(** * EarVan audio engine: a shallow embedding of [services/audioEngine.ts]

    The engine is a class with mutable fields driving a Web Audio graph
    [Mic -> GainNode -> HighPassFilter -> EQ bank -> Compressor -> Analyser -> Output].
    It is modelled by explicit state passing: every method of the class is a
    function on the record [AudioEngine]; methods that can reject (microphone
    acquisition) also return a [Completion].

    Modelling conventions.
    - A JavaScript [number] that the engine computes with is a rational
      ([Q]): arithmetic is exact. The volume that a caller hands to
      [setMasterVolume] is a [double], which may also be [NaN] or an
      infinity.
    - A string is a [string] of bytes; [toLowerCase] folds the ASCII letters,
      which is all that matters for matching the ASCII keywords of the engine.
    - The Web Audio nodes are records holding what the engine writes to them.
      An [AudioParam] keeps its intrinsic [value] and the last automation
      scheduled with [setTargetAtTime]; the passage of real time (the
      exponential approach of the live value to its target) is not modelled.
    - Each asynchronous method runs to completion before the next call starts.

    The draw step of [components/AudioVisualizer.tsx], the one reader of the
    analyser, is embedded as far as it decides between the idle line and the
    bars. *)

From Stdlib Require Import QArith Qminmax ZArith List String Ascii Bool Lia Lqa.
Import ListNotations.

Set Implicit Arguments.

(** ** JavaScript helpers *)

Module JS.

Definition number := Q.

Definition Math_max (a b : number) : number := Qmax a b.
Definition Math_min (a b : number) : number := Qmin a b.

(** A [number] as it may reach the engine from a caller: a finite number,
    or one of the three values that are not. *)
Inductive double :=
| Finite (q : number)
| NaN
| Infinity
| NegInfinity.

(** [Math.min] and [Math.max] on such values: [NaN] as soon as an argument
    is [NaN]. *)
Definition Math_min_double (a b : double) : double :=
  match a, b with
  | NaN, _ | _, NaN => NaN
  | NegInfinity, _ | _, NegInfinity => NegInfinity
  | Infinity, x | x, Infinity => x
  | Finite x, Finite y => Finite (Math_min x y)
  end.

Definition Math_max_double (a b : double) : double :=
  match a, b with
  | NaN, _ | _, NaN => NaN
  | Infinity, _ | _, Infinity => Infinity
  | NegInfinity, x | x, NegInfinity => x
  | Finite x, Finite y => Finite (Math_max x y)
  end.

(** [x ?? d]: the nullish-coalescing operator on a possibly absent value. *)
Definition nullish {A : Type} (x : option A) (d : A) : A :=
  match x with
  | Some v => v
  | None => d
  end.

Definition toLowerChar (c : ascii) : ascii :=
  let n := nat_of_ascii c in
  if (65 <=? n)%nat && (n <=? 90)%nat then ascii_of_nat (n + 32) else c.

Fixpoint toLowerCase (s : string) : string :=
  match s with
  | EmptyString => EmptyString
  | String c rest => String (toLowerChar c) (toLowerCase rest)
  end.

(** [hay.includes(needle)] *)
Fixpoint includes (hay needle : string) : bool :=
  if String.prefix needle hay then true
  else match hay with
       | EmptyString => false
       | String _ rest => includes rest needle
       end.

(** A plain object used as a partial map from numeric keys to numbers,
    [Partial<Record<EQFrequency, number>>]; indexing with a key that is
    itself [undefined] finds nothing. *)
Definition PartialRecord := list (Z * number).

Fixpoint prop (m : PartialRecord) (k : Z) : option number :=
  match m with
  | [] => None
  | (k', v) :: rest => if Z.eqb k' k then Some v else prop rest k
  end.

Definition entry (k : Z) (v : number) : Z * number := (k, v).

Definition index (m : PartialRecord) (k : option Z) : option number :=
  match k with
  | Some f => prop m f
  | None => None
  end.

End JS.

Import JS.

Notation "x ?? d" := (nullish x d) (at level 45, left associativity).

Arguments entry k%_Z v%_Q.
Notation "k ':->' v" := (entry k v) (at level 60, no associativity).

Open Scope Q_scope.

(** ** types.ts *)

Inductive EnvironmentMode := QUIET | CONVERSATION | NOISY.

Record EqBands := {
  band500 : number;
  band1000 : number;
  band2000 : number;
  band4000 : number;
  band8000 : number
}.

Record HearingProfile := {
  name : string;
  eqBands : EqBands
}.

(** [profile.eqBands[freq]] *)
Definition eqBands_at (b : EqBands) (freq : option Z) : option number :=
  match freq with
  | Some 500%Z => Some (band500 b)
  | Some 1000%Z => Some (band1000 b)
  | Some 2000%Z => Some (band2000 b)
  | Some 4000%Z => Some (band4000 b)
  | Some 8000%Z => Some (band8000 b)
  | _ => None
  end.

(** ** Constants of the engine *)

Definition EQ_FREQUENCIES : list Z := [500; 1000; 2000; 4000; 8000]%Z.

Definition FFT_SIZE : Z := 1024%Z.
Definition SMOOTHING : number := 0.8.

Record Preset := {
  gainOffset : number;
  eqOffsets : PartialRecord;
  highpassFreq : number;
  compressorThreshold : number;
  compressorRatio : number
}.

Definition ENV_PRESETS (mode : EnvironmentMode) : Preset :=
  match mode with
  | QUIET =>
      {| gainOffset := 0;
         eqOffsets := [];
         highpassFreq := 1;
         compressorThreshold := -24;
         compressorRatio := 4 |}
  | CONVERSATION =>
      {| gainOffset := 0.15;
         eqOffsets := [500 :-> -5; 1000 :-> 6; 2000 :-> 8; 4000 :-> 4; 8000 :-> -2];
         highpassFreq := 150;
         compressorThreshold := -30;
         compressorRatio := 6 |}
  | NOISY =>
      {| gainOffset := 0.25;
         eqOffsets := [500 :-> -10; 1000 :-> 2; 2000 :-> 6; 4000 :-> 4; 8000 :-> -6];
         highpassFreq := 400;
         compressorThreshold := -20;
         compressorRatio := 10 |}
  end.

Definition MILD_LOSS_BOOSTS : PartialRecord :=
  [2000 :-> 3; 4000 :-> 5; 8000 :-> 6].

Definition SPEECH_FOCUS_BOOSTS : PartialRecord :=
  [500 :-> -3; 1000 :-> 6; 2000 :-> 8; 4000 :-> 4].

Definition BALANCED_BOOSTS : PartialRecord :=
  [500 :-> 1; 1000 :-> 2; 2000 :-> 2; 4000 :-> 1].

(** ** The Web Audio platform, as far as the engine drives it *)

Module WebAudio.

(** The last [setTargetAtTime(target, startTime, timeConstant)] event of a
    parameter. The start time is always the context's current time. *)
Record TargetEvent := {
  ev_target : number;
  ev_timeConstant : number
}.

Record AudioParam := {
  value : number;
  scheduled : option TargetEvent
}.

(** A parameter freshly created by the platform and then assigned [v]. *)
Definition param (v : number) : AudioParam :=
  {| value := v; scheduled := None |}.

Definition setTargetAtTime (target timeConstant : number) (p : AudioParam)
  : AudioParam :=
  {| value := value p;
     scheduled := Some {| ev_target := target; ev_timeConstant := timeConstant |} |}.

(** [setTargetAtTime] as the platform receives the call: the target is
    converted to a [float], and a target that is not finite is refused with
    a [TypeError] before anything is scheduled. *)
Definition NON_FINITE : string := "The provided float value is non-finite.".

Definition setTargetAtTime_checked (target : double) (timeConstant : number)
  (p : AudioParam) : option AudioParam :=
  match target with
  | Finite t => Some (setTargetAtTime t timeConstant p)
  | NaN | Infinity | NegInfinity => None
  end.

(** The value a parameter is heading for, if an automation was scheduled. *)
Definition target (p : AudioParam) : option number :=
  option_map ev_target (scheduled p).

Record GainNode := {
  gn_gain : AudioParam
}.

Inductive BiquadFilterType := highpass | peaking.

Record BiquadFilterNode := {
  bq_type : BiquadFilterType;
  bq_frequency : AudioParam;
  bq_Q : AudioParam;
  bq_gain : AudioParam
}.

Record DynamicsCompressorNode := {
  threshold : AudioParam;
  knee : AudioParam;
  ratio : AudioParam;
  attack : AudioParam;
  release : AudioParam
}.

(** The analyser keeps the magnitudes it computed last; they are what
    [getByteFrequencyData] copies out, one byte per bin. The audio thread
    refreshes them while the context renders; a read with no newly rendered
    audio in between returns the data computed before. *)
Record AnalyserNode := {
  fftSize : Z;
  smoothingTimeConstant : number;
  minDecibels : number;
  maxDecibels : number;
  frequencyData : list Z
}.

Definition frequencyBinCount (a : AnalyserNode) : Z := (fftSize a / 2)%Z.

Definition getByteFrequencyData (a : AnalyserNode) : list Z :=
  frequencyData a.

Record MediaStream := {
  active : bool
}.

(** Source nodes. The samples of the test buffer are random and play no
    part in the parameters of the graph. *)
Record MediaStreamAudioSourceNode := {
  mediaStream : MediaStream
}.

Record AudioBufferSourceNode := {
  loop : bool;
  started : bool
}.

Inductive AudioContextState := suspended | running | closed.

(** The nodes of the one topology the engine builds, used to record which
    node is connected to which. *)
Inductive NodeId :=
| MicNode
| TestNode
| Gain
| Highpass
| Eq (i : nat)
| Compressor
| Analyser
| Destination.

Definition NodeId_eqb (a b : NodeId) : bool :=
  match a, b with
  | MicNode, MicNode | TestNode, TestNode | Gain, Gain
  | Highpass, Highpass | Compressor, Compressor
  | Analyser, Analyser | Destination, Destination => true
  | Eq i, Eq j => Nat.eqb i j
  | _, _ => false
  end.

Definition Edge := (NodeId * NodeId)%type.

Definition Edge_eqb (e1 e2 : Edge) : bool :=
  NodeId_eqb (fst e1) (fst e2) && NodeId_eqb (snd e1) (snd e2).

Record AudioContext := {
  state : AudioContextState;
  sampleRate : Z;
  edges : list Edge
}.

(** [src.connect(dst)]; connecting twice changes nothing. *)
Definition connect (src dst : NodeId) (c : AudioContext) : AudioContext :=
  {| state := state c;
     sampleRate := sampleRate c;
     edges := if existsb (Edge_eqb (src, dst)) (edges c) then edges c
              else edges c ++ [(src, dst)] |}.

(** [src.disconnect()]: drops every outgoing connection of [src]. *)
Definition disconnect (src : NodeId) (c : AudioContext) : AudioContext :=
  {| state := state c;
     sampleRate := sampleRate c;
     edges := filter (fun e => negb (NodeId_eqb (fst e) src)) (edges c) |}.

Definition setState (st : AudioContextState) (c : AudioContext) : AudioContext :=
  {| state := st; sampleRate := sampleRate c; edges := edges c |}.

(** What the platform answers when the engine asks for the microphone and
    for a new context. A context starts [running] when the page may play
    audio and [suspended] otherwise. *)
Inductive UserMedia :=
| Granted
| Rejected (errName errMessage : string).

Record Platform := {
  getUserMedia : UserMedia;
  newContextState : AudioContextState
}.

End WebAudio.

Import WebAudio.

(** ** The [AudioEngine] class *)

Record AudioEngine := {
  context : option AudioContext;
  stream : option MediaStream;
  micSource : option MediaStreamAudioSourceNode;
  testSource : option AudioBufferSourceNode;
  gainNode : option GainNode;
  highpassFilter : option BiquadFilterNode;
  eqFilters : list BiquadFilterNode;
  compressor : option DynamicsCompressorNode;
  analyser : option AnalyserNode;
  _isRunning : bool;
  _currentMode : EnvironmentMode;
  _currentProfile : option HearingProfile;
  _isBypassed : bool;
  _isTesting : bool
}.

(** [new AudioEngine()]: the field initialisers of the class. *)
Definition newEngine : AudioEngine :=
  {| context := None; stream := None; micSource := None; testSource := None;
     gainNode := None; highpassFilter := None; eqFilters := [];
     compressor := None; analyser := None;
     _isRunning := false; _currentMode := QUIET; _currentProfile := None;
     _isBypassed := false; _isTesting := false |}.

(** Field assignments, [this.x = v]. *)
Section Assign.
Variable s : AudioEngine.

Definition set_context v :=
  {| context := v; stream := stream s; micSource := micSource s;
     testSource := testSource s; gainNode := gainNode s;
     highpassFilter := highpassFilter s; eqFilters := eqFilters s;
     compressor := compressor s; analyser := analyser s;
     _isRunning := _isRunning s; _currentMode := _currentMode s;
     _currentProfile := _currentProfile s; _isBypassed := _isBypassed s;
     _isTesting := _isTesting s |}.

Definition set_stream v :=
  {| context := context s; stream := v; micSource := micSource s;
     testSource := testSource s; gainNode := gainNode s;
     highpassFilter := highpassFilter s; eqFilters := eqFilters s;
     compressor := compressor s; analyser := analyser s;
     _isRunning := _isRunning s; _currentMode := _currentMode s;
     _currentProfile := _currentProfile s; _isBypassed := _isBypassed s;
     _isTesting := _isTesting s |}.

Definition set_micSource v :=
  {| context := context s; stream := stream s; micSource := v;
     testSource := testSource s; gainNode := gainNode s;
     highpassFilter := highpassFilter s; eqFilters := eqFilters s;
     compressor := compressor s; analyser := analyser s;
     _isRunning := _isRunning s; _currentMode := _currentMode s;
     _currentProfile := _currentProfile s; _isBypassed := _isBypassed s;
     _isTesting := _isTesting s |}.

Definition set_testSource v :=
  {| context := context s; stream := stream s; micSource := micSource s;
     testSource := v; gainNode := gainNode s;
     highpassFilter := highpassFilter s; eqFilters := eqFilters s;
     compressor := compressor s; analyser := analyser s;
     _isRunning := _isRunning s; _currentMode := _currentMode s;
     _currentProfile := _currentProfile s; _isBypassed := _isBypassed s;
     _isTesting := _isTesting s |}.

Definition set_gainNode v :=
  {| context := context s; stream := stream s; micSource := micSource s;
     testSource := testSource s; gainNode := v;
     highpassFilter := highpassFilter s; eqFilters := eqFilters s;
     compressor := compressor s; analyser := analyser s;
     _isRunning := _isRunning s; _currentMode := _currentMode s;
     _currentProfile := _currentProfile s; _isBypassed := _isBypassed s;
     _isTesting := _isTesting s |}.

Definition set_highpassFilter v :=
  {| context := context s; stream := stream s; micSource := micSource s;
     testSource := testSource s; gainNode := gainNode s;
     highpassFilter := v; eqFilters := eqFilters s;
     compressor := compressor s; analyser := analyser s;
     _isRunning := _isRunning s; _currentMode := _currentMode s;
     _currentProfile := _currentProfile s; _isBypassed := _isBypassed s;
     _isTesting := _isTesting s |}.

Definition set_eqFilters v :=
  {| context := context s; stream := stream s; micSource := micSource s;
     testSource := testSource s; gainNode := gainNode s;
     highpassFilter := highpassFilter s; eqFilters := v;
     compressor := compressor s; analyser := analyser s;
     _isRunning := _isRunning s; _currentMode := _currentMode s;
     _currentProfile := _currentProfile s; _isBypassed := _isBypassed s;
     _isTesting := _isTesting s |}.

Definition set_compressor v :=
  {| context := context s; stream := stream s; micSource := micSource s;
     testSource := testSource s; gainNode := gainNode s;
     highpassFilter := highpassFilter s; eqFilters := eqFilters s;
     compressor := v; analyser := analyser s;
     _isRunning := _isRunning s; _currentMode := _currentMode s;
     _currentProfile := _currentProfile s; _isBypassed := _isBypassed s;
     _isTesting := _isTesting s |}.

Definition set_analyser v :=
  {| context := context s; stream := stream s; micSource := micSource s;
     testSource := testSource s; gainNode := gainNode s;
     highpassFilter := highpassFilter s; eqFilters := eqFilters s;
     compressor := compressor s; analyser := v;
     _isRunning := _isRunning s; _currentMode := _currentMode s;
     _currentProfile := _currentProfile s; _isBypassed := _isBypassed s;
     _isTesting := _isTesting s |}.

Definition set_isRunning v :=
  {| context := context s; stream := stream s; micSource := micSource s;
     testSource := testSource s; gainNode := gainNode s;
     highpassFilter := highpassFilter s; eqFilters := eqFilters s;
     compressor := compressor s; analyser := analyser s;
     _isRunning := v; _currentMode := _currentMode s;
     _currentProfile := _currentProfile s; _isBypassed := _isBypassed s;
     _isTesting := _isTesting s |}.

Definition set_currentMode v :=
  {| context := context s; stream := stream s; micSource := micSource s;
     testSource := testSource s; gainNode := gainNode s;
     highpassFilter := highpassFilter s; eqFilters := eqFilters s;
     compressor := compressor s; analyser := analyser s;
     _isRunning := _isRunning s; _currentMode := v;
     _currentProfile := _currentProfile s; _isBypassed := _isBypassed s;
     _isTesting := _isTesting s |}.

Definition set_currentProfile v :=
  {| context := context s; stream := stream s; micSource := micSource s;
     testSource := testSource s; gainNode := gainNode s;
     highpassFilter := highpassFilter s; eqFilters := eqFilters s;
     compressor := compressor s; analyser := analyser s;
     _isRunning := _isRunning s; _currentMode := _currentMode s;
     _currentProfile := v; _isBypassed := _isBypassed s;
     _isTesting := _isTesting s |}.

Definition set_isBypassed v :=
  {| context := context s; stream := stream s; micSource := micSource s;
     testSource := testSource s; gainNode := gainNode s;
     highpassFilter := highpassFilter s; eqFilters := eqFilters s;
     compressor := compressor s; analyser := analyser s;
     _isRunning := _isRunning s; _currentMode := _currentMode s;
     _currentProfile := _currentProfile s; _isBypassed := v;
     _isTesting := _isTesting s |}.

Definition set_isTesting v :=
  {| context := context s; stream := stream s; micSource := micSource s;
     testSource := testSource s; gainNode := gainNode s;
     highpassFilter := highpassFilter s; eqFilters := eqFilters s;
     compressor := compressor s; analyser := analyser s;
     _isRunning := _isRunning s; _currentMode := _currentMode s;
     _currentProfile := _currentProfile s; _isBypassed := _isBypassed s;
     _isTesting := v |}.

(** A call on the context object, when there is one. *)
Definition on_context (f : AudioContext -> AudioContext) :=
  set_context (option_map f (context s)).
End Assign.

(** *** Methods that may reject

    An asynchronous method either returns or throws an [Error] carrying a
    message; the fields it assigned before throwing stay assigned. *)

Inductive Completion :=
| Returned
| Threw (message : string).

Definition Method := AudioEngine -> AudioEngine * Completion.

Definition ret : Method := fun s => (s, Returned).

Definition throw (message : string) : Method := fun s => (s, Threw message).

Definition assign (f : AudioEngine -> AudioEngine) : Method :=
  fun s => (f s, Returned).

Definition andThen (m k : Method) : Method :=
  fun s =>
    match m s with
    | (s', Returned) => k s'
    | (s', Threw e) => (s', Threw e)
    end.

Notation "m ';;' k" := (andThen m k) (at level 61, right associativity).

Definition branch (cond : AudioEngine -> bool) (yes no : Method) : Method :=
  fun s => if cond s then yes s else no s.

(** *** Building the graph *)

Definition isSome {A : Type} (x : option A) : bool :=
  match x with
  | Some _ => true
  | None => false
  end.

(** The [forEach] of [_connectStaticChain]: each filter is connected to the
    node before it and becomes the node the next one is connected to. *)
Fixpoint chainFilters (fs : list BiquadFilterNode) (i : nat)
  (node : NodeId) (c : AudioContext) : NodeId * AudioContext :=
  match fs with
  | [] => (node, c)
  | _ :: rest => chainFilters rest (S i) (Eq i) (connect node (Eq i) c)
  end.

Definition _connectStaticChain (s : AudioEngine) : AudioEngine :=
  match context s with
  | None => s
  | Some c =>
      let c := connect Gain Highpass c in
      let '(node, c) := chainFilters (eqFilters s) 0 Highpass c in
      let c := connect node Compressor c in
      let c := connect Compressor Analyser c in
      let c := connect Analyser Destination c in
      set_context s (Some c)
  end.

Definition micErrorMessage (errName errMessage : string) : string :=
  if String.eqb errName "NotAllowedError" then
    "Microphone permission denied. Please allow mic access and try again."
  else if String.eqb errName "NotFoundError" then
    "No microphone found. Please connect a mic and try again."
  else
    String.append "Microphone error: " errMessage.

Definition streamUsable (s : AudioEngine) : bool :=
  match stream s with
  | Some st => active st
  | None => false
  end.

Definition _attachMicrophone (env : Platform) : Method :=
  branch (fun s => negb (isSome (context s))) ret
    ((* clean up old test source *)
     branch (fun s => isSome (testSource s))
       (assign (fun s =>
          set_isTesting
            (set_testSource (on_context s (disconnect TestNode)) None) false))
       ret ;;
     (* re-use the existing stream if it is still active *)
     branch streamUsable ret
       (match getUserMedia env with
        | Granted => assign (fun s => set_stream s (Some {| active := true |}))
        | Rejected errName errMessage => throw (micErrorMessage errName errMessage)
        end) ;;
     branch (fun s => isSome (micSource s))
       (assign (fun s => on_context s (disconnect MicNode)))
       ret ;;
     assign (fun s =>
       match stream s with
       | Some st =>
           on_context (set_micSource s (Some {| mediaStream := st |}))
             (connect MicNode Gain)
       | None => s
       end)).

Definition peakingFilter (freq : Z) : BiquadFilterNode :=
  {| bq_type := peaking;
     bq_frequency := param (inject_Z freq);
     bq_Q := param 1.4;
     bq_gain := param 0 |}.

(** The fresh branch of [initialize] up to the microphone: a new context, the
    nodes with their initial parameters, and the static chain. *)
Definition buildGraph (env : Platform) (s : AudioEngine) : AudioEngine :=
  let s := set_context s
             (Some {| state := newContextState env;
                      sampleRate := 44100;
                      edges := [] |}) in
  let s := set_gainNode s (Some {| gn_gain := param 1 |}) in
  let s := set_highpassFilter s
             (Some {| bq_type := highpass;
                      bq_frequency := param 1;
                      bq_Q := param 0.7;
                      bq_gain := param 0 |}) in
  let s := set_eqFilters s (map peakingFilter EQ_FREQUENCIES) in
  let s := set_compressor s
             (Some {| threshold := param (-24);
                      knee := param 30;
                      ratio := param 4;
                      attack := param 0.003;
                      release := param 0.15 |}) in
  let s := set_analyser s
             (Some {| fftSize := FFT_SIZE;
                      smoothingTimeConstant := SMOOTHING;
                      minDecibels := -90;
                      maxDecibels := -10;
                      frequencyData := repeat 0%Z (Z.to_nat (FFT_SIZE / 2)) |}) in
  _connectStaticChain s.

Definition initialize (env : Platform) : Method :=
  fun s =>
    match context s with
    | Some c =>
        let c := match state c with
                 | suspended => setState running c
                 | _ => c
                 end in
        (set_isRunning (set_context s (Some c)) true, Returned)
    | None =>
        (assign (buildGraph env) ;;
         _attachMicrophone env ;;
         assign (fun s => set_isRunning s true)) s
    end.

(** *** DSP application *)

Definition ramp : number := 0.05.

(** [list.forEach((x, i) => ...)] where the callback updates [x]. *)
Fixpoint forEach {A : Type} (f : A -> nat -> A) (l : list A) (i : nat) : list A :=
  match l with
  | [] => []
  | x :: rest => f x i :: forEach f rest (S i)
  end.

Definition set_bq_gain (f : BiquadFilterNode) (g : AudioParam) : BiquadFilterNode :=
  {| bq_type := bq_type f; bq_frequency := bq_frequency f;
     bq_Q := bq_Q f; bq_gain := g |}.

Definition set_bq_frequency (f : BiquadFilterNode) (p : AudioParam) : BiquadFilterNode :=
  {| bq_type := bq_type f; bq_frequency := p;
     bq_Q := bq_Q f; bq_gain := bq_gain f |}.

(** The body of the [eqFilters.forEach] callback of [_applySettings]. *)
Definition applyBand (s : AudioEngine) (preset : Preset)
  (filter : BiquadFilterNode) (i : nat) : BiquadFilterNode :=
  let freq := nth_error EQ_FREQUENCIES i in
  if _isBypassed s then
    set_bq_gain filter (setTargetAtTime 0 ramp (bq_gain filter))
  else
    let profileGain :=
      match _currentProfile s with
      | Some p => eqBands_at (eqBands p) freq
      | None => None
      end ?? 0 in
    let profileName :=
      match _currentProfile s with
      | Some p => toLowerCase (name p)
      | None => ""%string
      end in
    let specificBoost :=
      if includes profileName "mild" then index MILD_LOSS_BOOSTS freq ?? 0
      else if includes profileName "speech" then index SPEECH_FOCUS_BOOSTS freq ?? 0
      else if includes profileName "balanced" then index BALANCED_BOOSTS freq ?? 0
      else 0 in
    let envOffset := index (eqOffsets preset) freq ?? 0 in
    let total :=
      Math_max (-18) (Math_min 18 (profileGain + specificBoost + envOffset)) in
    set_bq_gain filter (setTargetAtTime total ramp (bq_gain filter)).

Definition _applySettings (s : AudioEngine) : AudioEngine :=
  if negb (isSome (context s)) || negb (isSome (_currentProfile s)) then s
  else
    let preset := ENV_PRESETS (_currentMode s) in
    (* 1. High-pass filter *)
    let s1 :=
      match highpassFilter s with
      | Some h =>
          set_highpassFilter s
            (Some (set_bq_frequency h
                     (setTargetAtTime
                        (if _isBypassed s then 1 else highpassFreq preset)
                        ramp (bq_frequency h))))
      | None => s
      end in
    (* 2. EQ filters *)
    let s2 := set_eqFilters s1 (forEach (applyBand s1 preset) (eqFilters s1) 0) in
    (* 3. Compressor *)
    let s3 :=
      match compressor s2 with
      | Some c =>
          set_compressor s2
            (Some {| threshold :=
                       setTargetAtTime
                         (if _isBypassed s2 then -60 else compressorThreshold preset)
                         ramp (threshold c);
                     knee := knee c;
                     ratio :=
                       setTargetAtTime
                         (if _isBypassed s2 then 1 else compressorRatio preset)
                         ramp (ratio c);
                     attack := attack c;
                     release := release c |})
      | None => s2
      end in
    (* 4. Gain node *)
    match gainNode s3 with
    | Some g =>
        set_gainNode s3
          (Some {| gn_gain :=
                     setTargetAtTime
                       (if _isBypassed s3 then 0 else 1.0 + gainOffset preset)
                       ramp (gn_gain g) |})
    | None => s3
    end.

(** *** Public controls *)

Definition start (env : Platform) : Method :=
  initialize env ;;
  assign (fun s => _applySettings (set_isBypassed s false)).

Definition suspend (s : AudioEngine) : AudioEngine :=
  let s :=
    match context s with
    | Some c =>
        match state c with
        | running => set_context s (Some (setState suspended c))
        | _ => s
        end
    | None => s
    end in
  set_isBypassed (set_isRunning s false) true.

Definition destroy (s : AudioEngine) : AudioEngine :=
  let s := if isSome (stream s) then set_stream s None else s in
  let s := if isSome (testSource s) then set_testSource s None else s in
  let s := if isSome (context s) then set_context s None else s in
  set_isTesting (set_isRunning (set_micSource s None) false) false.

Definition startTestAudio (s : AudioEngine) : AudioEngine :=
  if negb (isSome (context s)) || _isTesting s then s
  else
    let s := set_isTesting s true in
    let s := if isSome (micSource s) then on_context s (disconnect MicNode) else s in
    let s := set_testSource s (Some {| loop := true; started := true |}) in
    on_context s (connect TestNode Gain).

Definition stopTestAudio (env : Platform) : Method :=
  assign (fun s => set_isTesting s false) ;;
  branch (fun s => isSome (testSource s))
    (assign (fun s => set_testSource (on_context s (disconnect TestNode)) None))
    ret ;;
  _attachMicrophone env.

Definition setProfile (profile : HearingProfile) (s : AudioEngine) : AudioEngine :=
  _applySettings (set_currentProfile s (Some profile)).

Definition setEnvironment (mode : EnvironmentMode) (s : AudioEngine) : AudioEngine :=
  _applySettings (set_currentMode s mode).

Definition setBypass (bypass : bool) (s : AudioEngine) : AudioEngine :=
  _applySettings (set_isBypassed s bypass).

Definition setMasterVolume (value : double) : Method :=
  fun s =>
    match gainNode s, context s with
    | Some g, Some _ =>
        match setTargetAtTime_checked
                (Math_max_double (Finite 0) (Math_min_double (Finite 4) value))
                0.05 (gn_gain g) with
        | Some gain => (set_gainNode s (Some {| gn_gain := gain |}), Returned)
        | None => (s, Threw NON_FINITE)
        end
    | _, _ => (s, Returned)
    end.

(** *** Getters *)

Definition currentProfile (s : AudioEngine) := _currentProfile s.
Definition currentMode (s : AudioEngine) := _currentMode s.

Definition getAnalyser (s : AudioEngine) : option AnalyserNode := analyser s.

Definition isRunning (s : AudioEngine) : bool :=
  _isRunning s &&
  match context s with
  | Some c => match state c with running => true | _ => false end
  | None => false
  end.

Inductive ContextStateOrUninitialized :=
| uninitialized
| contextState (st : AudioContextState).

Definition getContextState (s : AudioEngine) : ContextStateOrUninitialized :=
  match context s with
  | Some c => contextState (state c)
  | None => uninitialized
  end.

(** *** The audio thread

    While the context is running the platform renders audio through the graph
    and the analyser recomputes its magnitudes; [magnitudes] stands for the
    bytes that the transform of the processed signal yields. A context that is
    suspended or closed renders nothing. *)
Definition renderQuantum (magnitudes : list Z) (s : AudioEngine) : AudioEngine :=
  match context s, analyser s with
  | Some c, Some a =>
      match state c with
      | running =>
          set_analyser s
            (Some {| fftSize := fftSize a;
                     smoothingTimeConstant := smoothingTimeConstant a;
                     minDecibels := minDecibels a;
                     maxDecibels := maxDecibels a;
                     frequencyData := magnitudes |})
      | _ => s
      end
  | _, _ => s
  end.

(** *** Histories of an engine instance *)

Inductive Call :=
| Initialize (env : Platform)
| Start (env : Platform)
| Suspend
| Destroy
| Stop
| StartTestAudio
| StopTestAudio (env : Platform)
| SetProfile (profile : HearingProfile)
| SetEnvironment (mode : EnvironmentMode)
| SetBypass (bypass : bool)
| SetMasterVolume (v : double)
| Render (magnitudes : list Z).

(** The engine after a call, whether the call returned or threw. *)
Definition exec (c : Call) (s : AudioEngine) : AudioEngine :=
  match c with
  | Initialize env => fst (initialize env s)
  | Start env => fst (start env s)
  | Suspend => suspend s
  | Destroy => destroy s
  | Stop => destroy s
  | StartTestAudio => startTestAudio s
  | StopTestAudio env => fst (stopTestAudio env s)
  | SetProfile profile => setProfile profile s
  | SetEnvironment mode => setEnvironment mode s
  | SetBypass bypass => setBypass bypass s
  | SetMasterVolume v => fst (setMasterVolume v s)
  | Render magnitudes => renderQuantum magnitudes s
  end.

Definition run (calls : list Call) (s : AudioEngine) : AudioEngine :=
  fold_left (fun s c => exec c s) calls s.

Inductive reachable : AudioEngine -> Prop :=
| reach_new : reachable newEngine
| reach_call : forall c s, reachable s -> reachable (exec c s).

(** Calls that build a context when there is none. *)
Definition buildsContext (c : Call) : bool :=
  match c with
  | Initialize _ | Start _ => true
  | _ => false
  end.

(** *** Stage parameters *)

(** Everything with an audible effect: the nodes of the processing chain with
    all their parameters (intrinsic values and scheduled targets). *)
Record StageParams := {
  sp_gain : option GainNode;
  sp_highpass : option BiquadFilterNode;
  sp_eq : list BiquadFilterNode;
  sp_compressor : option DynamicsCompressorNode
}.

Definition stageParams (s : AudioEngine) : StageParams :=
  {| sp_gain := gainNode s;
     sp_highpass := highpassFilter s;
     sp_eq := eqFilters s;
     sp_compressor := compressor s |}.

(** The graph of [initialize] is in place: every stage exists and the five
    peaking filters sit at the five fixed frequencies, in order. *)
Definition graphBuilt (s : AudioEngine) : Prop :=
  isSome (gainNode s) = true /\
  isSome (highpassFilter s) = true /\
  isSome (compressor s) = true /\
  isSome (analyser s) = true /\
  map (fun f => value (bq_frequency f)) (eqFilters s) = map inject_Z EQ_FREQUENCIES.

(** The filter of the bank that is bound to centre frequency [f]. *)
Definition bandFilter (s : AudioEngine) (f : Z) : option BiquadFilterNode :=
  find (fun flt => Qeq_bool (value (bq_frequency flt)) (inject_Z f)) (eqFilters s).

(** ** The visualizer's draw step, [components/AudioVisualizer.tsx] *)

Module Visualizer.

Inductive Frame :=
| IdleLine
| Bars (heights : list number).

Definition minBarH : number := 3.

(** One pass of [draw] on a canvas of height [h]: the idle line unless an
    analyser is given and the visualizer is active; otherwise one bar for
    each of the lower 60% of the bins. *)
Definition draw (analyser : option AnalyserNode) (isActive : bool) (h : number)
  : Frame :=
  match analyser, isActive with
  | Some a, true =>
      let data := getByteFrequencyData a in
      let binCount := Z.to_nat (Z.of_nat (List.length data) * 6 / 10) in
      Bars (map (fun d => Math_max minBarH (inject_Z d / 255 * (h - 4)))
              (firstn binCount data))
  | _, _ => IdleLine
  end.

End Visualizer.

(** ** The parameter resolver, as the specification words it

    [resolve(profile, mode, bypass)] returns the targets of every stage.
    These definitions follow the specification's algorithm; the theorems
    below compare them with what [_applySettings] writes to the graph. *)

Module Resolver.

Definition clamp (x lo hi : number) : number := Math_max lo (Math_min hi x).

(** [P.eqBands[f]] for one of the five bands. *)
Definition eqBand (P : HearingProfile) (f : Z) : number :=
  eqBands_at (eqBands P) (Some f) ?? 0.

(** The boost table selected by a keyword of the profile name, matched
    case-insensitively; no keyword, no boost. *)
Definition classTable (profileName : string) : PartialRecord :=
  let lowered := toLowerCase profileName in
  if includes lowered "mild" then MILD_LOSS_BOOSTS
  else if includes lowered "speech" then SPEECH_FOCUS_BOOSTS
  else if includes lowered "balanced" then BALANCED_BOOSTS
  else [].

Definition classBoost (profileName : string) (f : Z) : number :=
  prop (classTable profileName) f ?? 0.

Definition presetOffset (M : EnvironmentMode) (f : Z) : number :=
  prop (eqOffsets (ENV_PRESETS M)) f ?? 0.

Record ResolvedParams := {
  r_highpassFreq : number;
  r_bandGains : list number;
  r_gain : number;
  r_compressorThreshold : number;
  r_compressorRatio : number
}.

Definition bypassInert : ResolvedParams :=
  {| r_highpassFreq := 1;
     r_bandGains := [0; 0; 0; 0; 0];
     r_gain := 0;
     r_compressorThreshold := -60;
     r_compressorRatio := 1 |}.

Definition resolve (P : HearingProfile) (M : EnvironmentMode) (bypass : bool)
  : ResolvedParams :=
  if bypass then bypassInert
  else
    let preset := ENV_PRESETS M in
    {| r_highpassFreq := highpassFreq preset;
       r_bandGains :=
         map (fun f => clamp (eqBand P f + classBoost (name P) f + presetOffset M f)
                         (-18) 18)
           EQ_FREQUENCIES;
       r_gain := 1.0 + gainOffset preset;
       r_compressorThreshold := compressorThreshold preset;
       r_compressorRatio := compressorRatio preset |}.

Fixpoint allSome {A : Type} (l : list (option A)) : option (list A) :=
  match l with
  | [] => Some []
  | None :: _ => None
  | Some x :: rest => option_map (cons x) (allSome rest)
  end.

(** The targets the stages of an engine are heading for, once every
    ramped parameter has been given one. *)
Definition stageTargets (s : AudioEngine) : option ResolvedParams :=
  match gainNode s, highpassFilter s, compressor s with
  | Some g, Some h, Some c =>
      match target (gn_gain g), target (bq_frequency h),
            allSome (map (fun f => target (bq_gain f)) (eqFilters s)),
            target (threshold c), target (ratio c) with
      | Some tGain, Some tHigh, Some bands, Some tThr, Some tRatio =>
          Some {| r_highpassFreq := tHigh;
                  r_bandGains := bands;
                  r_gain := tGain;
                  r_compressorThreshold := tThr;
                  r_compressorRatio := tRatio |}
      | _, _, _, _, _ => None
      end
  | _, _, _ => None
  end.

End Resolver.

(** The processing stages and the analyser tap, i.e. the graph without its
    source nodes and without the context that hosts it. *)
Definition stagesOf (s : AudioEngine) : StageParams * option AnalyserNode :=
  (stageParams s, analyser s).

(** *** The static part of the graph *)

Definition isSource (n : NodeId) : bool :=
  match n with
  | MicNode | TestNode => true
  | _ => false
  end.

(** The state of a context and its connections other than those that leave
    a source node: the chain gain -> high-pass -> bank -> compressor ->
    analyser -> output. *)
Definition staticPart (c : AudioContext) : AudioContextState * list Edge :=
  (state c, filter (fun e => negb (isSource (fst e))) (edges c)).

Definition staticChain (s : AudioEngine) : option (AudioContextState * list Edge) :=
  option_map staticPart (context s).

(** The spectrum read by a caller that holds the engine's analyser. *)
Definition spectrumSnapshot (s : AudioEngine) : option (list Z) :=
  option_map getByteFrequencyData (getAnalyser s).

Definition silent (data : list Z) : bool :=
  forallb (fun b => Z.eqb b 0) data.

(** ** Fixtures *)

(** A platform that grants the microphone and lets audio play. *)
Definition micGranted : Platform :=
  {| getUserMedia := Granted; newContextState := running |}.

(** A platform on which the user refuses the microphone. *)
Definition micDenied : Platform :=
  {| getUserMedia := Rejected "NotAllowedError" "Permission denied";
     newContextState := running |}.

(** The preset of [SetupProfilePage.handleUseSpeechProfile]. *)
Definition speechFocusProfile : HearingProfile :=
  {| name := "Speech Focus Profile";
     eqBands := {| band500 := -2; band1000 := 4; band2000 := 6;
                   band4000 := 4; band8000 := 0 |} |}.

(** An engine that was started and given the speech-focus profile in
    conversation mode. *)
Definition conversationEngine : AudioEngine :=
  run [Start micGranted; SetProfile speechFocusProfile;
       SetEnvironment CONVERSATION] newEngine.

(** The same engine after the caller switched bypass on. *)
Definition bypassedEngine : AudioEngine :=
  exec (SetBypass true) conversationEngine.

(** Magnitudes of a loud signal, one byte for each of the 512 bins. *)
Definition loudSpectrum : list Z := repeat 200%Z 512.

(** An engine that rendered a loud signal while running. *)
Definition soundingEngine : AudioEngine :=
  run [Start micGranted; Render loudSpectrum] newEngine.

(** ** Observations on the graph as a whole *)

(** The connections that [_connectStaticChain] makes, in the order in which
    it makes them, for the bank of five filters. *)
Definition STATIC_CHAIN : list Edge :=
  [(Gain, Highpass); (Highpass, Eq 0); (Eq 0, Eq 1); (Eq 1, Eq 2);
   (Eq 2, Eq 3); (Eq 3, Eq 4); (Eq 4, Compressor); (Compressor, Analyser);
   (Analyser, Destination)].

(** The connections of the engine's context that do not leave a source, and
    those that do. *)
Definition staticEdges (s : AudioEngine) : option (list Edge) :=
  option_map (fun c => snd (staticPart c)) (context s).

Definition sourceEdges (c : AudioContext) : list Edge :=
  filter (fun e => isSource (fst e)) (edges c).

Definition sourceEdgesOf (s : AudioEngine) : list Edge :=
  match context s with
  | Some c => sourceEdges c
  | None => []
  end.

(** A parameter with its automation, if any, taken away. *)
Definition unramped (p : AudioParam) : AudioParam := param (value p).

(** The stages with the automations removed from the five parameters that
    [_applySettings] and [setMasterVolume] ramp: master gain, high-pass
    frequency, band gains, compressor threshold and ratio. *)
Definition withoutRamps (p : StageParams) : StageParams :=
  {| sp_gain :=
       option_map (fun g => {| gn_gain := unramped (gn_gain g) |}) (sp_gain p);
     sp_highpass :=
       option_map (fun h => set_bq_frequency h (unramped (bq_frequency h)))
         (sp_highpass p);
     sp_eq := map (fun f => set_bq_gain f (unramped (bq_gain f))) (sp_eq p);
     sp_compressor :=
       option_map
         (fun c => {| threshold := unramped (threshold c);
                      knee := knee c;
                      ratio := unramped (ratio c);
                      attack := attack c;
                      release := release c |})
         (sp_compressor p) |}.

(** The stages as [initialize] creates them. *)
Definition powerOnStages : StageParams :=
  {| sp_gain := Some {| gn_gain := param 1 |};
     sp_highpass :=
       Some {| bq_type := highpass; bq_frequency := param 1;
               bq_Q := param 0.7; bq_gain := param 0 |};
     sp_eq := map peakingFilter EQ_FREQUENCIES;
     sp_compressor :=
       Some {| threshold := param (-24); knee := param 30; ratio := param 4;
               attack := param 0.003; release := param 0.15 |} |}.

(** A parameter that, if it is heading anywhere, is heading into [lo, hi]. *)
Definition targetWithin (lo hi : number) (p : AudioParam) : Prop :=
  match target p with
  | Some t => lo <= t <= hi
  | None => True
  end.

Definition targetsInRange (p : StageParams) : Prop :=
  match sp_gain p with
  | Some g => targetWithin 0 4 (gn_gain g)
  | None => True
  end /\
  match sp_highpass p with
  | Some h => targetWithin 1 400 (bq_frequency h)
  | None => True
  end /\
  Forall (fun f => targetWithin (-18) 18 (bq_gain f)) (sp_eq p) /\
  match sp_compressor p with
  | Some c => targetWithin (-60) (-20) (threshold c) /\ targetWithin 1 10 (ratio c)
  | None => True
  end.

(** An engine that holds no device: no stream, no source node, not running,
    not testing. *)
Definition released (s : AudioEngine) : Prop :=
  stream s = None /\ micSource s = None /\ testSource s = None /\
  _isRunning s = false /\ _isTesting s = false.

(** At most one source feeds the graph, and it feeds the gain node: the
    microphone source while the engine holds one, or the test source while
    the engine is testing. *)
Definition oneSource (s : AudioEngine) : Prop :=
  sourceEdgesOf s = [] \/
  (sourceEdgesOf s = [(MicNode, Gain)] /\ isSome (micSource s) = true) \/
  (sourceEdgesOf s = [(TestNode, Gain)] /\ isSome (testSource s) = true /\
   _isTesting s = true).

(** ** The profile page, [pages/SetupProfilePage.tsx] *)

Module SetupProfile.

Definition DEFAULT_PROFILE : HearingProfile :=
  {| name := "Mild Loss Profile";
     eqBands := {| band500 := 0; band1000 := 0; band2000 := 0;
                   band4000 := 0; band8000 := 0 |} |}.

(** [{ ...bands, [freq]: value }] for one of the five band keys, the only
    keys that the type of [freq] admits. *)
Definition eqBands_with (b : EqBands) (freq : Z) (v : number) : EqBands :=
  match freq with
  | 500%Z => {| band500 := v; band1000 := band1000 b; band2000 := band2000 b;
                band4000 := band4000 b; band8000 := band8000 b |}
  | 1000%Z => {| band500 := band500 b; band1000 := v; band2000 := band2000 b;
                 band4000 := band4000 b; band8000 := band8000 b |}
  | 2000%Z => {| band500 := band500 b; band1000 := band1000 b; band2000 := v;
                 band4000 := band4000 b; band8000 := band8000 b |}
  | 4000%Z => {| band500 := band500 b; band1000 := band1000 b;
                 band2000 := band2000 b; band4000 := v; band8000 := band8000 b |}
  | 8000%Z => {| band500 := band500 b; band1000 := band1000 b;
                 band2000 := band2000 b; band4000 := band4000 b; band8000 := v |}
  | _ => b
  end.

(** The state update of [handleSliderChange]. *)
Definition handleSliderChange (freq : Z) (v : number) (prev : HearingProfile)
  : HearingProfile :=
  {| name := if includes (name prev) "Custom" then name prev
             else "Custom Profile"%string;
     eqBands := eqBands_with (eqBands prev) freq v |}.

Definition handleUseBalancedProfile : HearingProfile :=
  {| name := "Balanced Profile";
     eqBands := {| band500 := 0; band1000 := 2; band2000 := 3;
                   band4000 := 3; band8000 := 1 |} |}.

Definition handleUseSpeechProfile : HearingProfile :=
  {| name := "Speech Focus Profile";
     eqBands := {| band500 := -2; band1000 := 4; band2000 := 6;
                   band4000 := 4; band8000 := 0 |} |}.

(** The effect that follows every change of the page's profile: the engine
    is given the profile if it is running. *)
Definition syncProfile (profile : HearingProfile) (e : AudioEngine) : AudioEngine :=
  if isRunning e then setProfile profile e else e.

(** [startLiveTuning], run when the page mounts; a failure to start is
    logged and otherwise ignored. *)
Definition startLiveTuning (env : Platform) (profile : HearingProfile)
  (e : AudioEngine) : AudioEngine :=
  if isRunning e then setProfile profile e
  else
    match start env e with
    | (e', Returned) => setProfile profile e'
    | (e', Threw _) => e'
    end.

End SetupProfile.

(** ** The dashboard, [DashboardPage]

    The component state and the engine singleton make up the state of the
    page; each handler reads the component state of the latest render. *)

Module Dashboard.

Inductive AudioStatus := idle | starting | running | error.

Record State := {
  isAssistOn : bool;
  mode : EnvironmentMode;
  isTestingAudio : bool;
  audioStatus : AudioStatus;
  micError : option string;
  analyser : option AnalyserNode
}.

Definition Page := (State * AudioEngine)%type.

Definition startAudio (env : Platform) (userProfile : option HearingProfile)
  (p : Page) : Page :=
  let '(d, e) := p in
  match start env e with
  | (e, Returned) =>
      let e := match userProfile with
               | Some profile => setProfile profile e
               | None => e
               end in
      let e := setEnvironment (mode d) e in
      ({| isAssistOn := isAssistOn d; mode := mode d;
          isTestingAudio := isTestingAudio d; audioStatus := running;
          micError := None; analyser := getAnalyser e |}, e)
  | (e, Threw message) =>
      ({| isAssistOn := false; mode := mode d;
          isTestingAudio := isTestingAudio d; audioStatus := error;
          micError := Some message; analyser := analyser d |}, e)
  end.

Definition suspendAudio (p : Page) : Page :=
  let '(d, e) := p in
  ({| isAssistOn := isAssistOn d; mode := mode d;
      isTestingAudio := isTestingAudio d; audioStatus := idle;
      micError := micError d; analyser := analyser d |}, suspend e).

Definition set_isAssistOn (d : State) (v : bool) : State :=
  {| isAssistOn := v; mode := mode d; isTestingAudio := isTestingAudio d;
     audioStatus := audioStatus d; micError := micError d;
     analyser := analyser d |}.

Definition set_isTestingAudio (d : State) (v : bool) : State :=
  {| isAssistOn := isAssistOn d; mode := mode d; isTestingAudio := v;
     audioStatus := audioStatus d; micError := micError d;
     analyser := analyser d |}.

(** [handleToggle]: the power button. When switching off, a running test is
    stopped first; if that throws, the handler ends there. *)
Definition handleToggle (env : Platform) (userProfile : option HearingProfile)
  (p : Page) : Page * Completion :=
  let '(d, e) := p in
  let turningOn := negb (isAssistOn d) in
  let d := set_isAssistOn d turningOn in
  if turningOn then (startAudio env userProfile (d, e), Returned)
  else if isTestingAudio d then
    match stopTestAudio env e with
    | (e, Returned) => (suspendAudio (set_isTestingAudio d false, e), Returned)
    | (e, Threw message) => ((d, e), Threw message)
    end
  else (suspendAudio (d, e), Returned).

Definition handleModeChange (newMode : EnvironmentMode) (p : Page) : Page :=
  let '(d, e) := p in
  ({| isAssistOn := isAssistOn d; mode := newMode;
      isTestingAudio := isTestingAudio d; audioStatus := audioStatus d;
      micError := micError d; analyser := analyser d |},
   setEnvironment newMode e).

Definition toggleTestAudio (env : Platform) (p : Page) : Page * Completion :=
  let '(d, e) := p in
  if isTestingAudio d then
    match stopTestAudio env e with
    | (e, Returned) => ((set_isTestingAudio d false, e), Returned)
    | (e, Threw message) => ((d, e), Threw message)
    end
  else ((set_isTestingAudio d true, startTestAudio e), Returned).

(** One bar of [getProfileBars]: the height of the bar in percent of its
    track, and whether it is drawn as a boost. *)
Definition profileBar (val : number) : number * bool :=
  let pct := Math_max 20 (20 + val * 2) in
  (pct / 44 * 100, negb (Qle_bool val 0)).

Definition getProfileBars (userProfile : option HearingProfile)
  : option (list (number * bool)) :=
  match userProfile with
  | None => None
  | Some profile =>
      Some (map (fun f => profileBar (eqBands_at (eqBands profile) (Some f) ?? 0))
              EQ_FREQUENCIES)
  end.

(** *** One stay on the page

    The page when it is mounted over the engine [e]: the state from the
    initialisers of [useState], then the two effects that run on mount, the
    one that hands [user.profile] to a running engine and the one that
    fetches the analyser of a running engine. *)
Definition mount (userProfile : option HearingProfile) (e : AudioEngine)
  : Page :=
  let d := {| isAssistOn := isRunning e; mode := QUIET;
              isTestingAudio := false;
              audioStatus := if isRunning e then running else idle;
              micError := None; analyser := None |} in
  let e := match userProfile with
           | Some profile => if isRunning e then setProfile profile e else e
           | None => e
           end in
  ({| isAssistOn := isAssistOn d; mode := mode d;
      isTestingAudio := isTestingAudio d; audioStatus := audioStatus d;
      micError := micError d;
      analyser := if isRunning e then getAnalyser e else analyser d |}, e).

(** The controls of the page. [user.profile] is a prop of the page and
    stays what it is while the page is mounted. *)
Inductive Control :=
| PowerButton (env : Platform)
| ModeButton (newMode : EnvironmentMode)
| TestButton (env : Platform).

(** The mode selector takes no pointer events and the test button is
    disabled unless [isAssistOn && audioStatus === 'running']. *)
Definition controlsLive (d : State) : bool :=
  isAssistOn d && match audioStatus d with running => true | _ => false end.

(** A press on a control, with the handler run to its end; the power button
    is disabled while [audioStatus === 'starting']. *)
Definition press (userProfile : option HearingProfile) (c : Control) (p : Page)
  : Page :=
  match c with
  | PowerButton env =>
      match audioStatus (fst p) with
      | starting => p
      | _ => fst (handleToggle env userProfile p)
      end
  | ModeButton newMode =>
      if controlsLive (fst p) then handleModeChange newMode p else p
  | TestButton env =>
      if controlsLive (fst p) then fst (toggleTestAudio env p) else p
  end.

(** The pages that a user can bring about after the page was mounted over
    the engine [e0]. *)
Inductive shown (userProfile : option HearingProfile) (e0 : AudioEngine)
  : Page -> Prop :=
| shown_mount : shown userProfile e0 (mount userProfile e0)
| shown_press : forall c p,
    shown userProfile e0 p -> shown userProfile e0 (press userProfile c p).

End Dashboard.

(** [handleLogout] of [App.tsx], as far as the engine is concerned. *)
Definition handleLogout (e : AudioEngine) : AudioEngine := destroy e.

(** ** The local store, [services/databaseService.ts] and [authService.ts]

    [localStorage] holds two items. What [JSON.stringify] wrote is what
    [JSON.parse] reads back, so an item is modelled by the value it encodes;
    an item can also be missing, or hold text that [JSON.parse] rejects.
    An object is modelled with the fields it has at run time, which may be
    fewer than its type promises. The users are a plain object: a read of
    [users[key]] finds the members that every object inherits from
    [Object.prototype] as well as the entries. The readings of the clock
    and of the random generator are arguments. Character codes are those
    of the bytes of the string, which are the UTF-16 code units for ASCII
    text. *)

Module Store.

(** An object of type [User] as it is at run time; a field that the
    object lacks is [None]. *)
Record User := {
  id : option string;
  name : option string;
  email : option string;
  username : option string;
  profile : option HearingProfile;
  createdAt : option string;
  updatedAt : option string
}.

(** [User & { _passwordHash: string }] *)
Record StoredUser := {
  user : User;
  _passwordHash : option string
}.

(** [{}] *)
Definition emptyObject : StoredUser :=
  {| user := {| id := None; name := None; email := None; username := None;
                profile := None; createdAt := None; updatedAt := None |};
     _passwordHash := None |}.

(** [Record<string, StoredUser>]: the own properties of the object in the
    order of insertion, which is the order of [Object.values] for keys that
    are no array indices, as the generated ones and the names of
    [Object.prototype] are. *)
Definition Users := list (string * StoredUser).

Inductive Item (A : Type) :=
| Missing
| Garbled
| Encoded (v : A).

Arguments Missing {A}.
Arguments Garbled {A}.
Arguments Encoded {A} v.

Record LocalStorage := {
  earvan_users : Item Users;
  earvan_user : Item User
}.

(** The outcome of a promise. *)
Inductive Outcome (A : Type) :=
| Fulfilled (v : A)
| Failed (message : string).

Arguments Fulfilled {A} v.
Arguments Failed {A} message.

(** The names of the members of [Object.prototype]. *)
Definition OBJECT_PROTOTYPE : list string :=
  ["constructor"; "__defineGetter__"; "__defineSetter__"; "hasOwnProperty";
   "__lookupGetter__"; "__lookupSetter__"; "isPrototypeOf";
   "propertyIsEnumerable"; "toString"; "valueOf"; "__proto__";
   "toLocaleString"]%string.

Definition inherited (key : string) : bool :=
  existsb (String.eqb key) OBJECT_PROTOTYPE.

(** The own property [key] of the object. *)
Fixpoint own (users : Users) (key : string) : option StoredUser :=
  match users with
  | [] => None
  | (k, u) :: rest => if String.eqb k key then Some u else own rest key
  end.

(** What a read of [users[key]] gives: the own property; failing that, the
    member of [Object.prototype] of that name, which is a function or, for
    [__proto__], the prototype itself; failing that, [undefined]. *)
Inductive Property :=
| Own (stored : StoredUser)
| Inherited
| Undefined.

(** [users[key]] *)
Definition lookup (users : Users) (key : string) : Property :=
  match own users key with
  | Some stored => Own stored
  | None => if inherited key then Inherited else Undefined
  end.

(** [{ ...x }]: the own enumerable properties of [x], of which a function
    and [Object.prototype] have none. *)
Definition spread (x : Property) : StoredUser :=
  match x with
  | Own stored => stored
  | Inherited | Undefined => emptyObject
  end.

(** The object with the own property [key] set to [u]: an existing entry
    keeps its place, a new one comes last. *)
Fixpoint define (users : Users) (key : string) (u : StoredUser) : Users :=
  match users with
  | [] => [(key, u)]
  | (k, u0) :: rest =>
      if String.eqb k key then (k, u) :: rest
      else (k, u0) :: define rest key u
  end.

(** [users[key] = u]. Where the object has no own property [__proto__], an
    assignment to that name is taken by the setter of [Object.prototype]: it
    replaces the prototype of the object and adds no property. *)
Definition assignEntry (users : Users) (key : string) (u : StoredUser) : Users :=
  match own users key with
  | Some _ => define users key u
  | None => if String.eqb key "__proto__" then users else define users key u
  end.

Definition values (users : Users) : list StoredUser := map snd users.

Definition loadUsers (ls : LocalStorage) : Users :=
  match earvan_users ls with
  | Encoded users => users
  | Missing | Garbled => []
  end.

Definition saveUsers (users : Users) (ls : LocalStorage) : LocalStorage :=
  {| earvan_users := Encoded users; earvan_user := earvan_user ls |}.

(** [x | 0]: the 32-bit signed integer of an integral number. *)
Definition toInt32 (z : Z) : Z := ((z + 2 ^ 31) mod 2 ^ 32 - 2 ^ 31)%Z.

(** One turn of the loop of [simpleHash]:
    [hash = (hash << 5) - hash + char; hash |= 0]. *)
Definition hashStep (hash char : Z) : Z :=
  toInt32 (toInt32 (hash * 32) - hash + char)%Z.

Definition charCodes (input : string) : list Z :=
  map (fun c => Z.of_nat (nat_of_ascii c)) (list_ascii_of_string input).

Definition hashValue (input : string) : Z :=
  fold_left hashStep (charCodes input) 0%Z.

Definition digit36 (d : Z) : ascii :=
  if (d <? 10)%Z then ascii_of_nat (48 + Z.to_nat d)
  else ascii_of_nat (87 + Z.to_nat d).

(** [n.toString(36)] for a natural number below 36^[fuel]. *)
Fixpoint toBase36 (fuel : nat) (n : Z) (acc : string) : string :=
  match fuel with
  | O => acc
  | S fuel' =>
      let acc' := String (digit36 (n mod 36)) acc in
      if (n / 36 =? 0)%Z then acc' else toBase36 fuel' (n / 36) acc'
  end.

Definition toString36 (n : Z) : string := toBase36 7 n "".

Definition simpleHash (input : string) : string :=
  String.append "sha_" (toString36 (Z.abs (hashValue input))).

(** [n.toString(36)] for an integer of magnitude below 36^11, which every
    time value is. *)
Definition integerToString36 (n : Z) : string :=
  if (n <? 0)%Z then String "-"%char (toBase36 11 (- n) "")
  else toBase36 11 n "".

(** [generateId]: [clock] is the reading of [Date.now()], [random] the
    digits cut out of [Math.random().toString(36)]. *)
Definition generateId (clock : Z) (random : string) : string :=
  String.append (integerToString36 clock) (String.append "_" random).

Definition toPublicUser (stored : StoredUser) : User := user stored.

Definition sameText (a b : string) : bool :=
  String.eqb (toLowerCase a) (toLowerCase b).

(** The [TypeError] of [u.email.toLowerCase()] where the object [u] has no
    such field; the text is the platform's. *)
Definition UNDEFINED_FIELD : string :=
  "Cannot read properties of undefined (reading 'toLowerCase')".

(** [list.some(u => u.field.toLowerCase() === text.toLowerCase())]: the
    search stops at the first match; [None] is the [TypeError] thrown at an
    object without the field that is met before a match. *)
Fixpoint someSameText (field : StoredUser -> option string) (text : string)
  (l : list StoredUser) : option bool :=
  match l with
  | [] => Some false
  | u :: rest =>
      match field u with
      | None => None
      | Some t =>
          if sameText t text then Some true else someSameText field text rest
      end
  end.

(** [list.find(u => u.field.toLowerCase() === text.toLowerCase())], with
    the same failure. *)
Fixpoint findSameText (field : StoredUser -> option string) (text : string)
  (l : list StoredUser) : option (option StoredUser) :=
  match l with
  | [] => Some None
  | u :: rest =>
      match field u with
      | None => None
      | Some t =>
          if sameText t text then Some (Some u)
          else findSameText field text rest
      end
  end.

Definition createUser (clock : Z) (random now : string)
  (name0 email0 username0 password : string) (ls : LocalStorage)
  : LocalStorage * Outcome User :=
  let users := loadUsers ls in
  match someSameText (fun u => email (user u)) email0 (values users) with
  | None => (ls, Failed UNDEFINED_FIELD)
  | Some true => (ls, Failed "This email is already registered.")
  | Some false =>
      match someSameText (fun u => username (user u)) username0
              (values users) with
      | None => (ls, Failed UNDEFINED_FIELD)
      | Some true => (ls, Failed "This username is already taken.")
      | Some false =>
          if (String.length password <? 6)%nat then
            (ls, Failed "Password must be at least 6 characters.")
          else
            let newId := generateId clock random in
            let newUser :=
              {| user := {| id := Some newId; name := Some name0;
                            email := Some email0;
                            username := Some username0; profile := None;
                            createdAt := Some now; updatedAt := Some now |};
                 _passwordHash := Some (simpleHash password) |} in
            (saveUsers (assignEntry users newId newUser) ls,
             Fulfilled (toPublicUser newUser))
      end
  end.

(** [stored._passwordHash !== hash] *)
Definition differs (stored : option string) (hash : string) : bool :=
  match stored with
  | Some h => negb (String.eqb h hash)
  | None => true
  end.

Definition loginUser (email0 password : string) (ls : LocalStorage)
  : Outcome User :=
  let users := loadUsers ls in
  match findSameText (fun u => email (user u)) email0 (values users) with
  | None => Failed UNDEFINED_FIELD
  | Some None => Failed "No account found with this email."
  | Some (Some stored) =>
      if differs (_passwordHash stored) (simpleHash password) then
        Failed "Incorrect password. Please try again."
      else Fulfilled (toPublicUser stored)
  end.

(** [{ ...stored, profile, updatedAt: now }] *)
Definition withProfile (stored : StoredUser) (p : HearingProfile) (now : string)
  : StoredUser :=
  {| user := {| id := id (user stored); name := name (user stored);
                email := email (user stored);
                username := username (user stored);
                profile := Some p;
                createdAt := createdAt (user stored);
                updatedAt := Some now |};
     _passwordHash := _passwordHash stored |}.

Definition updateHearingProfile (now userId : string) (p : HearingProfile)
  (ls : LocalStorage) : LocalStorage * Outcome unit :=
  let users := loadUsers ls in
  match lookup users userId with
  | Undefined => (ls, Failed "User not found.")
  | found =>
      (saveUsers (assignEntry users userId (withProfile (spread found) p now))
         ls,
       Fulfilled tt)
  end.

Definition getUserData (userId : string) (ls : LocalStorage) : option User :=
  match lookup (loadUsers ls) userId with
  | Undefined => None
  | found => Some (toPublicUser (spread found))
  end.

(** *** [authService] *)

Definition setSession (u : User) (ls : LocalStorage) : LocalStorage :=
  {| earvan_users := earvan_users ls; earvan_user := Encoded u |}.

Definition login (email0 password : string) (ls : LocalStorage)
  : LocalStorage * Outcome User :=
  match loginUser email0 password ls with
  | Fulfilled u => (setSession u ls, Fulfilled u)
  | Failed m => (ls, Failed m)
  end.

Definition signup (clock : Z) (random now : string)
  (name0 email0 username0 password : string) (ls : LocalStorage)
  : LocalStorage * Outcome User :=
  match createUser clock random now name0 email0 username0 password ls with
  | (ls', Fulfilled u) => (setSession u ls', Fulfilled u)
  | (ls', Failed m) => (ls', Failed m)
  end.

Definition updateProfile (now userId : string) (p : HearingProfile)
  (ls : LocalStorage) : LocalStorage * Outcome User :=
  match updateHearingProfile now userId p ls with
  | (ls', Failed m) => (ls', Failed m)
  | (ls', Fulfilled _) =>
      match getUserData userId ls' with
      | None => (ls', Failed "Failed to retrieve updated user.")
      | Some updatedUser => (setSession updatedUser ls', Fulfilled updatedUser)
      end
  end.

Definition logout (ls : LocalStorage) : LocalStorage :=
  {| earvan_users := earvan_users ls; earvan_user := Missing |}.

Definition getCurrentUser (ls : LocalStorage) : option User :=
  match earvan_user ls with
  | Encoded u => Some u
  | Missing | Garbled => None
  end.

(** *** Observations *)

(** The hash that [simpleHash] would compute without the 32-bit
    truncations: the polynomial in 31 over the character codes. *)
Definition polynomial31 (codes : list Z) : Z :=
  fold_left (fun acc c => acc * 31 + c)%Z codes 0%Z.

(** The number that a text of base-36 digits denotes, [parseInt(s, 36)]. *)
Definition undigit36 (c : ascii) : Z :=
  let n := Z.of_nat (nat_of_ascii c) in
  if (n <? 58)%Z then (n - 48)%Z else (n - 87)%Z.

Definition fromBase36 (s : string) : Z :=
  fold_left (fun v c => v * 36 + undigit36 c)%Z (list_ascii_of_string s) 0%Z.

(** The values that the entries have for a field, lower-cased, in the order
    of the entries. *)
Definition texts (field : StoredUser -> option string) (users : Users)
  : list string :=
  flat_map (fun e => match field (snd e) with
                     | Some t => [toLowerCase t]
                     | None => []
                     end) users.

(** An entry as [createUser] writes it: it has an address and a user name,
    and sits under its own identifier, which is no name of
    [Object.prototype]. *)
Definition account (e : string * StoredUser) : Prop :=
  id (user (snd e)) = Some (fst e) /\
  isSome (email (user (snd e))) = true /\
  isSome (username (user (snd e))) = true /\
  inherited (fst e) = false.

(** An entry as [updateHearingProfile] writes it over a member inherited
    from [Object.prototype]: a profile under that name, with no identifier,
    address, user name or password hash. *)
Definition remnant (e : string * StoredUser) : Prop :=
  inherited (fst e) = true /\
  id (user (snd e)) = None /\
  email (user (snd e)) = None /\
  username (user (snd e)) = None /\
  _passwordHash (snd e) = None /\
  isSome (profile (user (snd e))) = true.

(** No two entries share an address or a user name, letter case apart; no
    key is there twice; and every entry is an account under its identifier
    or a profile under an inherited name. *)
Definition wellKeyed (users : Users) : Prop :=
  NoDup (texts (fun s => email (user s)) users) /\
  NoDup (texts (fun s => username (user s)) users) /\
  NoDup (map fst users) /\
  Forall (fun e => account e \/ remnant e) users.

(** The calls of the two services that write to the store. *)
Inductive Call :=
| Signup (clock : Z) (random now name0 email0 username0 password : string)
| Login (email0 password : string)
| UpdateProfile (now userId : string) (p : HearingProfile)
| Logout.

Definition exec (c : Call) (ls : LocalStorage) : LocalStorage :=
  match c with
  | Signup clock random now name0 email0 username0 password =>
      fst (signup clock random now name0 email0 username0 password ls)
  | Login email0 password => fst (login email0 password ls)
  | UpdateProfile now userId p => fst (updateProfile now userId p ls)
  | Logout => logout ls
  end.

(** A browser that has never run the application. *)
Definition emptyStorage : LocalStorage :=
  {| earvan_users := Missing; earvan_user := Missing |}.

Inductive reachable : LocalStorage -> Prop :=
| reach_empty : reachable emptyStorage
| reach_call : forall c ls, reachable ls -> reachable (exec c ls).

End Store.

(** * Properties *)

(** ** Helper lemmas *)

Lemma nth_error_forEach :
  forall (A : Type) (f : A -> nat -> A) (l : list A) (k i : nat),
    nth_error (forEach f l k) i =
    option_map (fun x => f x (k + i)%nat) (nth_error l i).
Proof.
  intros A f l; induction l as [|x rest IH]; intros k i.
  - destruct i; reflexivity.
  - destruct i as [|i]; simpl.
    + now rewrite Nat.add_0_r.
    + rewrite IH. now rewrite Nat.add_succ_r.
Qed.

(** Applying settings rewrites gains and targets only: the centre
    frequencies of the bank stay where [initialize] put them. *)
Lemma forEach_applyBand_frequency :
  forall s preset l k,
    map (fun f => value (bq_frequency f)) (forEach (applyBand s preset) l k) =
    map (fun f => value (bq_frequency f)) l.
Proof.
  intros s preset l; induction l as [|x rest IH]; intros k; simpl.
  - reflexivity.
  - rewrite IH. f_equal. unfold applyBand.
    destruct (_isBypassed s); reflexivity.
Qed.

Lemma clamp_bounds :
  forall x lo hi, lo <= hi -> lo <= Resolver.clamp x lo hi <= hi.
Proof.
  intros x lo hi Hle. unfold Resolver.clamp, Math_max, Math_min. split.
  - apply Q.le_max_l.
  - apply Q.max_lub; [exact Hle | apply Q.le_min_l].
Qed.

Lemma reachable_run :
  forall calls s, reachable s -> reachable (run calls s).
Proof.
  induction calls as [|c calls IH]; intros s Hs; simpl.
  - exact Hs.
  - apply IH. now apply reach_call.
Qed.

(** ** Frame lemmas: what each method leaves alone *)

(** Case analysis on whatever a method body branches on. *)
Ltac branches :=
  repeat match goal with
         | |- context [match ?x with _ => _ end] => is_var x; destruct x; simpl
         | |- context [if ?x then _ else _] => is_var x; destruct x; simpl
         | |- context [isSome ?x] => is_var x; destruct x; simpl
         | |- context [option_map _ ?x] => is_var x; destruct x; simpl
         | |- context [active ?x] => is_var x; destruct x; simpl
         | |- context [state ?x] => is_var x; destruct x; simpl
         end.

Ltac unfold_methods :=
  unfold stopTestAudio, startTestAudio, _attachMicrophone, suspend, destroy,
    andThen, branch, assign, ret, throw, streamUsable, on_context; simpl.

Lemma attachMicrophone_frame :
  forall env s,
    stagesOf (fst (_attachMicrophone env s)) = stagesOf s /\
    isSome (context (fst (_attachMicrophone env s))) = isSome (context s) /\
    _isRunning (fst (_attachMicrophone env s)) = _isRunning s /\
    _isBypassed (fst (_attachMicrophone env s)) = _isBypassed s /\
    _currentProfile (fst (_attachMicrophone env s)) = _currentProfile s /\
    _currentMode (fst (_attachMicrophone env s)) = _currentMode s.
Proof.
  intros [getUM st0] s. destruct s. unfold_methods. unfold stagesOf, stageParams.
  branches; repeat split; reflexivity.
Qed.

Lemma applySettings_context :
  forall s, context (_applySettings s) = context s.
Proof.
  intros s. unfold _applySettings. destruct s; simpl. branches; reflexivity.
Qed.

Lemma applySettings_flags :
  forall s,
    _isRunning (_applySettings s) = _isRunning s /\
    _isBypassed (_applySettings s) = _isBypassed s /\
    _currentProfile (_applySettings s) = _currentProfile s /\
    _currentMode (_applySettings s) = _currentMode s /\
    analyser (_applySettings s) = analyser s.
Proof.
  intros s. unfold _applySettings. destruct s; simpl.
  branches; repeat split; reflexivity.
Qed.

Lemma applySettings_graphBuilt :
  forall s, graphBuilt s -> graphBuilt (_applySettings s).
Proof.
  intros s (Hg & Hh & Hc & Ha & Hf). unfold graphBuilt, _applySettings.
  destruct s; simpl in *.
  destruct (negb (isSome context0) || negb (isSome _currentProfile0)); simpl.
  - repeat split; assumption.
  - destruct gainNode0, highpassFilter0, compressor0, analyser0;
      try discriminate; simpl.
    repeat split; try reflexivity.
    rewrite forEach_applyBand_frequency. exact Hf.
Qed.

(** No profile, or no context: [_applySettings] returns at once. *)
Lemma applySettings_inert :
  forall s,
    isSome (context s) = false \/ _currentProfile s = None ->
    _applySettings s = s.
Proof.
  intros s H. unfold _applySettings.
  destruct H as [H | H]; rewrite H; simpl.
  - reflexivity.
  - now rewrite orb_true_r.
Qed.

Lemma graphBuilt_stagesOf :
  forall s s', stagesOf s' = stagesOf s -> graphBuilt s -> graphBuilt s'.
Proof.
  intros s s' H. unfold stagesOf, stageParams in H.
  injection H as Hg Hh He Hc Ha. unfold graphBuilt.
  rewrite Hg, Hh, He, Hc, Ha. tauto.
Qed.

Lemma simple_calls_frame :
  forall s,
    (stagesOf (suspend s) = stagesOf s /\
     isSome (context (suspend s)) = isSome (context s)) /\
    (stagesOf (destroy s) = stagesOf s /\ context (destroy s) = None) /\
    (stagesOf (startTestAudio s) = stagesOf s /\
     isSome (context (startTestAudio s)) = isSome (context s)).
Proof.
  intros s. destruct s. unfold_methods. unfold stagesOf, stageParams; simpl.
  repeat split; branches; reflexivity.
Qed.

Lemma stopTestAudio_frame :
  forall env s,
    stagesOf (fst (stopTestAudio env s)) = stagesOf s /\
    isSome (context (fst (stopTestAudio env s))) = isSome (context s) /\
    _isRunning (fst (stopTestAudio env s)) = _isRunning s /\
    _isBypassed (fst (stopTestAudio env s)) = _isBypassed s /\
    _currentProfile (fst (stopTestAudio env s)) = _currentProfile s /\
    _currentMode (fst (stopTestAudio env s)) = _currentMode s.
Proof.
  intros [getUM st0] s. destruct s. unfold_methods. unfold stagesOf, stageParams.
  branches; repeat split; reflexivity.
Qed.

(** [initialize] on an engine that has a context only resumes it. *)
Lemma initialize_existing :
  forall env s c,
    context s = Some c ->
    initialize env s =
    (set_isRunning
       (set_context s
          (Some match state c with
                | suspended => setState running c
                | _ => c
                end)) true,
     Returned).
Proof.
  intros env s c H. unfold initialize. now rewrite H.
Qed.

Lemma connectStaticChain_frame :
  forall s,
    stagesOf (_connectStaticChain s) = stagesOf s /\
    isSome (context (_connectStaticChain s)) = isSome (context s).
Proof.
  intros s. unfold _connectStaticChain.
  destruct (context s) as [c|] eqn:Hc; [|rewrite ?Hc; split; reflexivity].
  destruct (chainFilters (eqFilters s) 0 Highpass (connect Gain Highpass c)).
  simpl. rewrite ?Hc. split; reflexivity.
Qed.

Lemma initialize_fresh :
  forall env s,
    context s = None ->
    initialize env s =
    match _attachMicrophone env (buildGraph env s) with
    | (s', Returned) => (set_isRunning s' true, Returned)
    | (s', Threw e) => (s', Threw e)
    end.
Proof.
  intros env s H. unfold initialize. rewrite H.
  unfold andThen, assign.
  destruct (_attachMicrophone env (buildGraph env s)) as [s' [|e]]; reflexivity.
Qed.

Lemma buildGraph_builds :
  forall env s,
    isSome (context (buildGraph env s)) = true /\ graphBuilt (buildGraph env s).
Proof.
  intros env s. unfold buildGraph.
  match goal with
  | |- context [_connectStaticChain ?s0] =>
      destruct (connectStaticChain_frame s0) as [Hst Hctx]
  end.
  split.
  - rewrite Hctx. reflexivity.
  - eapply graphBuilt_stagesOf; [exact Hst|].
    unfold graphBuilt. repeat split; reflexivity.
Qed.

(** [initialize] always leaves a context and a complete graph behind, also
    when the microphone is refused. *)
Lemma initialize_builds :
  forall env s,
    (isSome (context s) = true -> graphBuilt s) ->
    isSome (context (fst (initialize env s))) = true /\
    graphBuilt (fst (initialize env s)).
Proof.
  intros env s Inv. destruct (context s) as [c|] eqn:Hc.
  - rewrite (initialize_existing env s Hc). simpl. split; [reflexivity|].
    apply graphBuilt_stagesOf with (s := s); [reflexivity|].
    apply Inv. reflexivity.
  - rewrite (initialize_fresh env s Hc).
    destruct (buildGraph_builds env s) as [Hctx0 Hg0].
    pose proof (attachMicrophone_frame env (buildGraph env s)) as (Hst & Hctx & _).
    destruct (_attachMicrophone env (buildGraph env s)) as [s' [|e]];
      cbn [fst] in *.
    + split.
      * change (isSome (context s') = true). congruence.
      * apply graphBuilt_stagesOf with (s := s'); [reflexivity|].
        eapply graphBuilt_stagesOf; [exact Hst | exact Hg0].
    + split.
      * congruence.
      * eapply graphBuilt_stagesOf; [exact Hst | exact Hg0].
Qed.

Lemma start_unfold :
  forall env s,
    start env s =
    match initialize env s with
    | (s', Returned) => (_applySettings (set_isBypassed s' false), Returned)
    | (s', Threw e) => (s', Threw e)
    end.
Proof.
  intros env s. unfold start, andThen, assign.
  destruct (initialize env s) as [s' [|e]]; reflexivity.
Qed.

Lemma start_builds :
  forall env s,
    (isSome (context s) = true -> graphBuilt s) ->
    isSome (context (fst (start env s))) = true /\
    graphBuilt (fst (start env s)).
Proof.
  intros env s Inv. rewrite start_unfold.
  destruct (initialize_builds env Inv) as [Hctx Hg].
  destruct (initialize env s) as [s' [|e]]; simpl in *.
  - rewrite applySettings_context. simpl. split; [exact Hctx|].
    apply applySettings_graphBuilt.
    apply graphBuilt_stagesOf with (s := s'); [reflexivity | exact Hg].
  - now split.
Qed.

(** What [setMasterVolume] does to the engine: nothing, or a ramp of the
    master gain towards a target within [0, 4]. *)
Lemma setMasterVolume_cases :
  forall v s,
    fst (setMasterVolume v s) = s \/
    exists g c t,
      gainNode s = Some g /\ context s = Some c /\ 0 <= t <= 4 /\
      fst (setMasterVolume v s) =
        set_gainNode s
          (Some {| gn_gain := setTargetAtTime t 0.05 (gn_gain g) |}).
Proof.
  intros v s. unfold setMasterVolume.
  destruct (gainNode s) as [g|]; [|now left].
  destruct (context s) as [c|]; [|now left].
  destruct v as [q| | |]; cbn [Math_min_double Math_max_double
                               setTargetAtTime_checked fst];
    try (now left); right; exists g, c.
  - exists (Math_max 0 (Math_min 4 q)). repeat split; try reflexivity;
      apply (@clamp_bounds q 0 4); apply Qle_bool_imp_le; reflexivity.
  - exists (Math_max 0 4). repeat split; try reflexivity;
      apply Qle_bool_imp_le; reflexivity.
  - exists 0. repeat split; try reflexivity;
      apply Qle_bool_imp_le; reflexivity.
Qed.

Lemma setMasterVolume_graphBuilt :
  forall v s,
    context (fst (setMasterVolume v s)) = context s /\
    (graphBuilt s -> graphBuilt (fst (setMasterVolume v s))).
Proof.
  intros v s.
  destruct (setMasterVolume_cases v s)
    as [-> | (g & c & t & Hg & Hc & Ht & ->)]; [split; auto|].
  unfold graphBuilt. destruct s; cbn in *. subst.
  split; [reflexivity | tauto].
Qed.

Lemma renderQuantum_graphBuilt :
  forall m s,
    context (renderQuantum m s) = context s /\
    stageParams (renderQuantum m s) = stageParams s /\
    (graphBuilt s -> graphBuilt (renderQuantum m s)).
Proof.
  intros m s. unfold renderQuantum, graphBuilt, stageParams. destruct s; simpl.
  branches; repeat split; try reflexivity; tauto.
Qed.

(** The invariant of the class: whenever the engine holds a context, the
    whole graph of [initialize] is in place. *)
Lemma exec_graphBuilt :
  forall c s,
    (isSome (context s) = true -> graphBuilt s) ->
    isSome (context (exec c s)) = true -> graphBuilt (exec c s).
Proof.
  intros c s Inv Hctx.
  destruct (simple_calls_frame s) as ((Hs1 & Hs2) & (Hd1 & Hd2) & (Ht1 & Ht2)).
  destruct c; simpl in *.
  - now apply initialize_builds.
  - now apply start_builds.
  - eapply graphBuilt_stagesOf; [exact Hs1|]. apply Inv. now rewrite <- Hs2.
  - rewrite Hd2 in Hctx. discriminate.
  - rewrite Hd2 in Hctx. discriminate.
  - eapply graphBuilt_stagesOf; [exact Ht1|]. apply Inv. now rewrite <- Ht2.
  - destruct (stopTestAudio_frame env s) as (Hst & Hc & _).
    eapply graphBuilt_stagesOf; [exact Hst|]. apply Inv. now rewrite <- Hc.
  - unfold setProfile in *. rewrite applySettings_context in Hctx.
    apply applySettings_graphBuilt.
    apply graphBuilt_stagesOf with (s := s); [reflexivity | now apply Inv].
  - unfold setEnvironment in *. rewrite applySettings_context in Hctx.
    apply applySettings_graphBuilt.
    apply graphBuilt_stagesOf with (s := s); [reflexivity | now apply Inv].
  - unfold setBypass in *. rewrite applySettings_context in Hctx.
    apply applySettings_graphBuilt.
    apply graphBuilt_stagesOf with (s := s); [reflexivity | now apply Inv].
  - destruct (setMasterVolume_graphBuilt v s) as [Hc Hg].
    rewrite Hc in Hctx. auto.
  - destruct (renderQuantum_graphBuilt magnitudes s) as (Hc & _ & Hg).
    rewrite Hc in Hctx. auto.
Qed.

Lemma reachable_graphBuilt :
  forall s, reachable s -> isSome (context s) = true -> graphBuilt s.
Proof.
  induction 1 as [|c s Hs IH].
  - discriminate.
  - now apply exec_graphBuilt.
Qed.

(** ** [_applySettings] against the resolver *)

(** A built bank is five filters. *)
Lemma graphBuilt_five :
  forall s,
    graphBuilt s ->
    exists f0 f1 f2 f3 f4,
      eqFilters s = [f0; f1; f2; f3; f4] /\
      value (bq_frequency f0) = 500 /\ value (bq_frequency f1) = 1000 /\
      value (bq_frequency f2) = 2000 /\ value (bq_frequency f3) = 4000 /\
      value (bq_frequency f4) = 8000.
Proof.
  intros s (_ & _ & _ & _ & Hf).
  destruct (eqFilters s) as [|f0 [|f1 [|f2 [|f3 [|f4 [|f5 rest]]]]]];
    try discriminate.
  injection Hf as H0 H1 H2 H3 H4.
  exists f0, f1, f2, f3, f4. repeat split; assumption.
Qed.

(** With a context and a profile, the targets that [_applySettings] schedules
    on the stages are exactly the record that [resolve] computes from the
    profile, the mode and the bypass flag of the engine. *)
Lemma applySettings_refines_resolve :
  forall s P,
    isSome (context s) = true ->
    graphBuilt s ->
    _currentProfile s = Some P ->
    Resolver.stageTargets (_applySettings s) =
    Some (Resolver.resolve P (_currentMode s) (_isBypassed s)).
Proof.
  intros s P Hctx Hg HP.
  destruct (graphBuilt_five Hg) as (f0 & f1 & f2 & f3 & f4 & He & _).
  destruct Hg as (Hgn & Hhp & Hcp & _).
  destruct s; cbn [context gainNode highpassFilter compressor eqFilters
                   _currentProfile] in *.
  subst _currentProfile0 eqFilters0.
  destruct context0 as [ctx|], gainNode0 as [g|], highpassFilter0 as [h|],
    compressor0 as [c|]; try discriminate.
  unfold _applySettings, Resolver.stageTargets, Resolver.resolve.
  cbn [context _currentProfile isSome negb orb].
  destruct _isBypassed0.
  - reflexivity.
  - unfold applyBand, Resolver.classBoost, Resolver.classTable, Resolver.eqBand,
      Resolver.presetOffset.
    cbn [highpassFilter set_highpassFilter eqFilters set_eqFilters compressor
         set_compressor gainNode set_gainNode _isBypassed _currentProfile
         _currentMode forEach].
    destruct (includes (toLowerCase (name P)) "mild");
      [reflexivity|].
    destruct (includes (toLowerCase (name P)) "speech");
      [reflexivity|].
    destruct (includes (toLowerCase (name P)) "balanced"); reflexivity.
Qed.

Lemma stageTargets_bands :
  forall s r,
    Resolver.stageTargets s = Some r ->
    Resolver.allSome (map (fun f => target (bq_gain f)) (eqFilters s)) =
    Some (Resolver.r_bandGains r).
Proof.
  intros s r. unfold Resolver.stageTargets.
  destruct (gainNode s) as [g|]; [|discriminate].
  destruct (highpassFilter s) as [h|]; [|discriminate].
  destruct (compressor s) as [c|]; [|discriminate].
  destruct (target (gn_gain g)); [|discriminate].
  destruct (target (bq_frequency h)); [|discriminate].
  destruct (Resolver.allSome _) as [bands|]; [|discriminate].
  destruct (target (threshold c)); [|discriminate].
  destruct (target (ratio c)); [|discriminate].
  intros H. injection H as <-. reflexivity.
Qed.

Lemma allSome_five :
  forall (A : Type) (t0 t1 t2 t3 t4 : option A) (l : list A),
    Resolver.allSome [t0; t1; t2; t3; t4] = Some l ->
    exists x0 x1 x2 x3 x4,
      l = [x0; x1; x2; x3; x4] /\
      t0 = Some x0 /\ t1 = Some x1 /\ t2 = Some x2 /\ t3 = Some x3 /\ t4 = Some x4.
Proof.
  intros A [x0|] [x1|] [x2|] [x3|] [x4|] l H; try discriminate.
  injection H as <-. exists x0, x1, x2, x3, x4. repeat split; reflexivity.
Qed.

(** The band filters of a built engine after [_applySettings], with the gain
    target of each, whatever the bypass flag. *)
Lemma applySettings_bank :
  forall s P,
    isSome (context s) = true ->
    graphBuilt s ->
    _currentProfile s = Some P ->
    forall i f,
      nth_error EQ_FREQUENCIES i = Some f ->
      exists flt,
        bandFilter (_applySettings s) f = Some flt /\
        nth_error (eqFilters (_applySettings s)) i = Some flt /\
        target (bq_gain flt) =
        nth_error
          (Resolver.r_bandGains
             (Resolver.resolve P (_currentMode s) (_isBypassed s))) i.
Proof.
  intros s P Hctx Hg HP i f Hi.
  pose proof (applySettings_refines_resolve Hctx Hg HP) as Href.
  apply stageTargets_bands in Href.
  destruct (graphBuilt_five (applySettings_graphBuilt Hg))
    as (g0 & g1 & g2 & g3 & g4 & He & F0 & F1 & F2 & F3 & F4).
  rewrite He in Href. cbn [map] in Href.
  apply allSome_five in Href.
  destruct Href as (x0 & x1 & x2 & x3 & x4 & Hl & T0 & T1 & T2 & T3 & T4).
  unfold bandFilter. rewrite He, Hl.
  destruct i as [|[|[|[|[|i]]]]];
    [ | | | | | destruct i; discriminate];
    injection Hi as <-;
    [exists g0 | exists g1 | exists g2 | exists g3 | exists g4];
    cbn [find nth_error]; rewrite ?F0, ?F1, ?F2, ?F3, ?F4;
    cbn [Qeq_bool]; (split; [reflexivity | split; [reflexivity|]]);
    rewrite ?T0, ?T1, ?T2, ?T3, ?T4; reflexivity.
Qed.

Unset Implicit Arguments.

(** ** Parameter resolution *)

(** C1. For every engine that holds a context, with profile [P] set, mode [M]
    and bypass off, applying settings gives the EQ filter of every band
    frequency [f] of the bank the gain target
    [clamp(P.eqBands[f] + classBoost(P.name)[f] + preset(M).eqOffsets[f], -18, 18)],
    the boost and the offset being 0 where their tables have no entry. *)
Theorem applySettings_band_gain :
  forall (s : AudioEngine) (P : HearingProfile) (M : EnvironmentMode) (f : Z),
    reachable s ->
    isSome (context s) = true ->
    _currentProfile s = Some P ->
    _currentMode s = M ->
    _isBypassed s = false ->
    In f EQ_FREQUENCIES ->
    exists flt,
      bandFilter (_applySettings s) f = Some flt /\
      target (bq_gain flt) =
      Some (Resolver.clamp
              (Resolver.eqBand P f + Resolver.classBoost (name P) f
               + Resolver.presetOffset M f)
              (-18) 18).
Proof.
  intros s P M f Hr Hctx HP HM Hb Hf.
  apply In_nth_error in Hf. destruct Hf as [i Hi].
  destruct (applySettings_bank Hctx (reachable_graphBuilt Hr Hctx) HP i Hi)
    as (flt & Hband & _ & Ht).
  exists flt. split; [exact Hband|].
  rewrite Ht, HM, Hb. unfold Resolver.resolve. cbn [Resolver.r_bandGains].
  erewrite map_nth_error by exact Hi. reflexivity.
Qed.

Lemma applySettings_band_gain_witness :
  reachable conversationEngine /\
  _currentProfile conversationEngine = Some speechFocusProfile /\
  _currentMode conversationEngine = CONVERSATION /\
  exists flt,
    bandFilter (_applySettings conversationEngine) 4000 = Some flt /\
    target (bq_gain flt) =
    Some (Resolver.clamp
            (Resolver.eqBand speechFocusProfile 4000
             + Resolver.classBoost (name speechFocusProfile) 4000
             + Resolver.presetOffset CONVERSATION 4000)
            (-18) 18).
Proof.
  split; [apply reachable_run, reach_new|].
  split; [reflexivity|]. split; [reflexivity|].
  apply (applySettings_band_gain conversationEngine speechFocusProfile
           CONVERSATION 4000).
  - apply reachable_run, reach_new.
  - reflexivity.
  - reflexivity.
  - reflexivity.
  - reflexivity.
  - simpl. tauto.
Defined.

(** C2. For every profile [P] and mode [M], applying settings with bypass on
    yields the bypass-inert record whatever [P] and [M] are: the five band
    gains head for 0, the high-pass frequency for 1 Hz, the compressor for
    threshold -60 and ratio 1, and the master gain for 0. *)
Theorem bypass_inert :
  forall (s : AudioEngine) (P : HearingProfile) (M : EnvironmentMode),
    reachable s ->
    isSome (context s) = true ->
    _currentProfile s = Some P ->
    _currentMode s = M ->
    Resolver.stageTargets (setBypass true s) =
    Some {| Resolver.r_highpassFreq := 1;
            Resolver.r_bandGains := [0; 0; 0; 0; 0];
            Resolver.r_gain := 0;
            Resolver.r_compressorThreshold := -60;
            Resolver.r_compressorRatio := 1 |} /\
    forall f, In f EQ_FREQUENCIES ->
      exists flt,
        bandFilter (setBypass true s) f = Some flt /\
        target (bq_gain flt) = Some 0.
Proof.
  intros s P M Hr Hctx HP HM.
  pose proof (reachable_graphBuilt Hr Hctx) as Hg.
  unfold setBypass.
  assert (Hg' : graphBuilt (set_isBypassed s true))
    by (apply graphBuilt_stagesOf with (s := s); [reflexivity | exact Hg]).
  split.
  - rewrite (applySettings_refines_resolve (s := set_isBypassed s true) (P := P));
      auto.
  - intros f Hf. apply In_nth_error in Hf. destruct Hf as [i Hi].
    destruct (applySettings_bank (s := set_isBypassed s true) (P := P)
                Hctx Hg' HP i Hi) as (flt & Hband & _ & Ht).
    exists flt. split; [exact Hband|]. rewrite Ht.
    cbn [_isBypassed set_isBypassed Resolver.resolve Resolver.bypassInert
         Resolver.r_bandGains].
    destruct i as [|[|[|[|[|i]]]]]; try reflexivity.
    destruct i; discriminate.
Qed.

Lemma bypass_inert_witness :
  Resolver.stageTargets (setBypass true conversationEngine) =
  Some {| Resolver.r_highpassFreq := 1;
          Resolver.r_bandGains := [0; 0; 0; 0; 0];
          Resolver.r_gain := 0;
          Resolver.r_compressorThreshold := -60;
          Resolver.r_compressorRatio := 1 |}.
Proof.
  apply (proj1 (bypass_inert conversationEngine speechFocusProfile CONVERSATION
                  (reachable_run _ reach_new) eq_refl eq_refl eq_refl)).
Defined.

(** C8. With the profile "Speech Focus Profile" of bands
    500:-2, 1000:4, 2000:6, 4000:4, 8000:0, mode CONVERSATION and bypass off,
    the 2000 Hz band resolves to clamp(6 + 8 + 8, -18, 18) = 18: the
    speech-focus boost and the conversation offset at 2000 Hz are both 8, and
    their sum with the profile gain, 22, is clamped to 18. *)
Theorem speech_focus_conversation_2000 :
  forall s : AudioEngine,
    reachable s ->
    isSome (context s) = true ->
    _currentProfile s = Some speechFocusProfile ->
    _currentMode s = CONVERSATION ->
    _isBypassed s = false ->
    (exists flt,
       bandFilter (_applySettings s) 2000 = Some flt /\
       target (bq_gain flt) = Some 18) /\
    Resolver.eqBand speechFocusProfile 2000 = 6 /\
    Resolver.classBoost (name speechFocusProfile) 2000 = 8 /\
    Resolver.presetOffset CONVERSATION 2000 = 8 /\
    6 + 8 + 8 == 22 /\
    Resolver.clamp (6 + 8 + 8) (-18) 18 = 18.
Proof.
  intros s Hr Hctx HP HM Hb. repeat split; try reflexivity.
  destruct (applySettings_bank Hctx (reachable_graphBuilt Hr Hctx) HP 2 eq_refl)
    as (flt & Hband & _ & Ht).
  exists flt. split; [exact Hband|].
  rewrite Ht, HM, Hb. reflexivity.
Qed.

Lemma speech_focus_conversation_2000_witness :
  exists flt,
    bandFilter (_applySettings conversationEngine) 2000 = Some flt /\
    target (bq_gain flt) = Some 18.
Proof.
  apply (proj1 (speech_focus_conversation_2000 conversationEngine
                  (reachable_run _ reach_new) eq_refl eq_refl eq_refl eq_refl)).
Defined.

(** ** Lifecycle lemmas *)

Lemma connectStaticChain_flags :
  forall s,
    _currentProfile (_connectStaticChain s) = _currentProfile s /\
    _currentMode (_connectStaticChain s) = _currentMode s /\
    _isBypassed (_connectStaticChain s) = _isBypassed s.
Proof.
  intros s. unfold _connectStaticChain.
  destruct (context s) as [c|]; [|repeat split; reflexivity].
  destruct (chainFilters (eqFilters s) 0 Highpass (connect Gain Highpass c)).
  repeat split; reflexivity.
Qed.

Lemma buildGraph_flags :
  forall env s,
    _currentProfile (buildGraph env s) = _currentProfile s /\
    _currentMode (buildGraph env s) = _currentMode s /\
    _isBypassed (buildGraph env s) = _isBypassed s.
Proof.
  intros env s. unfold buildGraph.
  match goal with
  | |- context [_connectStaticChain ?s0] =>
      destruct (connectStaticChain_flags s0) as (Hp0 & Hm0 & Hb0);
      rewrite Hp0, Hm0, Hb0
  end.
  repeat split; reflexivity.
Qed.

(** [initialize] never touches the profile, the mode or the bypass flag. *)
Lemma initialize_flags :
  forall env s,
    _currentProfile (fst (initialize env s)) = _currentProfile s /\
    _currentMode (fst (initialize env s)) = _currentMode s /\
    _isBypassed (fst (initialize env s)) = _isBypassed s.
Proof.
  intros env s. destruct (context s) as [c|] eqn:Hc.
  - rewrite (initialize_existing env s Hc). repeat split; reflexivity.
  - rewrite (initialize_fresh env s Hc).
    pose proof (attachMicrophone_frame env (buildGraph env s))
      as (_ & _ & _ & Hb & Hp & Hm).
    destruct (buildGraph_flags env s) as (Hp0 & Hm0 & Hb0).
    rewrite Hp0 in Hp. rewrite Hm0 in Hm. rewrite Hb0 in Hb.
    destruct (_attachMicrophone env (buildGraph env s)) as [s' [|e]];
      cbn [fst] in *; repeat split; assumption.
Qed.

(** With the microphone granted, attaching it cannot fail. *)
Lemma attachMicrophone_granted :
  forall env s,
    getUserMedia env = Granted ->
    snd (_attachMicrophone env s) = Returned.
Proof.
  intros [getUM st0] s H. cbn in H. subst getUM.
  destruct s. unfold_methods. branches; reflexivity.
Qed.

(** [initialize] returns whenever a context exists already or the platform
    grants the microphone. *)
Lemma initialize_returns :
  forall env s,
    isSome (context s) = true \/ getUserMedia env = Granted ->
    snd (initialize env s) = Returned.
Proof.
  intros env s H. destruct (context s) as [c|] eqn:Hc.
  - now rewrite (initialize_existing env s Hc).
  - destruct H as [H | H]; [discriminate|].
    rewrite (initialize_fresh env s Hc).
    pose proof (attachMicrophone_granted env (buildGraph env s) H) as Ha.
    destruct (_attachMicrophone env (buildGraph env s)) as [s' [|e]];
      [reflexivity | discriminate].
Qed.

Lemma start_returns :
  forall env s,
    isSome (context s) = true \/ getUserMedia env = Granted ->
    snd (start env s) = Returned.
Proof.
  intros env s H. rewrite start_unfold.
  pose proof (initialize_returns env s H) as Hi.
  destruct (initialize env s) as [s' [|e]]; [reflexivity | discriminate].
Qed.

(** ** Source switching leaves the static chain alone *)

Lemma staticPart_connect :
  forall src dst c,
    isSource src = true -> staticPart (connect src dst c) = staticPart c.
Proof.
  intros src dst c H. unfold staticPart, connect. cbn [state edges].
  destruct (existsb (Edge_eqb (src, dst)) (edges c)); [reflexivity|].
  rewrite filter_app. cbn [filter fst]. rewrite H. cbn [negb].
  now rewrite app_nil_r.
Qed.

Lemma NodeId_eqb_eq :
  forall a b, NodeId_eqb a b = true -> a = b.
Proof.
  intros a b; destruct a, b; simpl; try discriminate; try reflexivity.
  intros H. apply Nat.eqb_eq in H. now subst.
Qed.

Lemma staticPart_disconnect :
  forall src c,
    isSource src = true -> staticPart (disconnect src c) = staticPart c.
Proof.
  intros src c H. unfold staticPart, disconnect. cbn [state edges].
  f_equal. induction (edges c) as [|e rest IH]; [reflexivity|].
  cbn [filter]. destruct (NodeId_eqb (fst e) src) eqn:E; cbn [negb].
  - apply NodeId_eqb_eq in E. rewrite E, H. cbn [negb]. exact IH.
  - cbn [filter]. destruct (negb (isSource (fst e))); [now rewrite IH | exact IH].
Qed.

Arguments WebAudio.connect : simpl never.
Arguments WebAudio.disconnect : simpl never.
Arguments staticPart : simpl never.

Ltac static_chain :=
  unfold staticChain; destruct_engine;
  unfold_methods; branches;
  rewrite ?staticPart_connect, ?staticPart_disconnect by reflexivity;
  reflexivity
with destruct_engine :=
  match goal with
  | s : AudioEngine |- _ => destruct s
  end.

Lemma startTestAudio_staticChain :
  forall s, staticChain (startTestAudio s) = staticChain s.
Proof.
  intros s. static_chain.
Qed.

Lemma stopTestAudio_staticChain :
  forall env s, staticChain (fst (stopTestAudio env s)) = staticChain s.
Proof.
  intros [getUM st0] s. static_chain.
Qed.

(** ** Clamping *)

Lemma clamp_below :
  forall v lo hi : Q, v < lo -> lo <= hi -> Resolver.clamp v lo hi = lo.
Proof.
  intros v lo hi Hv Hle.
  unfold Resolver.clamp, Math_max, Math_min, Qmax, Qmin,
    GenericMinMax.gmax, GenericMinMax.gmin.
  assert (Hgt : (hi ?= v) = Gt) by (apply (proj1 (Qgt_alt hi v)); lra).
  rewrite Hgt.
  assert (Hgt' : (lo ?= v) = Gt) by (apply (proj1 (Qgt_alt lo v)); lra).
  now rewrite Hgt'.
Qed.

Lemma clamp_above :
  forall v lo hi : Q, hi < v -> lo < hi -> Resolver.clamp v lo hi = hi.
Proof.
  intros v lo hi Hv Hlt.
  unfold Resolver.clamp, Math_max, Math_min, Qmax, Qmin,
    GenericMinMax.gmax, GenericMinMax.gmin.
  assert (H1 : (hi ?= v) = Lt) by (apply (proj1 (Qlt_alt hi v)); lra).
  rewrite H1.
  assert (H2 : (lo ?= hi) = Lt) by (apply (proj1 (Qlt_alt lo hi)); lra).
  now rewrite H2.
Qed.

Lemma clamp_inside :
  forall v lo hi : Q, lo <= v <= hi -> Resolver.clamp v lo hi == v.
Proof.
  intros v lo hi [H1 H2]. unfold Resolver.clamp, Math_max, Math_min.
  rewrite (Q.min_r hi v) by exact H2. now apply Q.max_r.
Qed.

(** ** No profile, no parameters *)

(** C3. While no profile has been set, applying settings is a no-op and not
    an error: [_applySettings] returns the engine as it is; [setEnvironment]
    and [setBypass] (which cannot throw) only record the mode and the flag and
    leave every stage parameter unchanged; and the apply step of [start] adds
    nothing to what [initialize] did, so that on an engine with a context
    [start] returns and leaves every stage parameter unchanged. *)
Theorem apply_without_profile_is_noop :
  forall s : AudioEngine,
    _currentProfile s = None ->
    _applySettings s = s /\
    (forall mode,
       setEnvironment mode s = set_currentMode s mode /\
       stageParams (setEnvironment mode s) = stageParams s) /\
    (forall bypass,
       setBypass bypass s = set_isBypassed s bypass /\
       stageParams (setBypass bypass s) = stageParams s) /\
    (forall env,
       start env s =
       match initialize env s with
       | (s', Returned) => (set_isBypassed s' false, Returned)
       | (s', Threw e) => (s', Threw e)
       end) /\
    (forall env,
       isSome (context s) = true ->
       snd (start env s) = Returned /\
       stageParams (fst (start env s)) = stageParams s).
Proof.
  intros s HP.
  assert (Hstart : forall env,
             start env s =
             match initialize env s with
             | (s', Returned) => (set_isBypassed s' false, Returned)
             | (s', Threw e) => (s', Threw e)
             end).
  { intros env. rewrite start_unfold.
    destruct (initialize_flags env s) as (Hp & _).
    destruct (initialize env s) as [s' [|e]]; [|reflexivity].
    cbn [fst] in Hp. rewrite applySettings_inert; [reflexivity|].
    right. cbn. congruence. }
  split; [apply applySettings_inert; now right|].
  split; [|split; [|split; [exact Hstart|]]].
  - intros mode. unfold setEnvironment.
    rewrite applySettings_inert by (right; exact HP). split; reflexivity.
  - intros bypass. unfold setBypass.
    rewrite applySettings_inert by (right; exact HP). split; reflexivity.
  - intros env Hctx. rewrite Hstart.
    destruct (context s) as [c|] eqn:Hc; [|discriminate].
    rewrite (initialize_existing env s Hc). split; reflexivity.
Qed.

Lemma apply_without_profile_is_noop_witness :
  _applySettings (exec (Start micGranted) newEngine) =
  exec (Start micGranted) newEngine.
Proof.
  apply (proj1 (apply_without_profile_is_noop
                  (exec (Start micGranted) newEngine) eq_refl)).
Defined.

(** ** Master volume *)

(** C9, as claimed, fails: [NaN] is a number, and for it the clamp
    [Math.max(0, Math.min(4, NaN))] is [NaN], which the platform refuses as a
    target. On an engine just started, whose master gain has no target yet,
    [setMasterVolume(NaN)] throws and the gain still has no target: no
    target within [0, 4] was set. *)
Lemma volume_NaN_sets_no_target :
  snd (setMasterVolume NaN (exec (Start micGranted) newEngine))
    = Threw NON_FINITE /\
  option_map (fun g => target (gn_gain g))
    (gainNode (fst (setMasterVolume NaN (exec (Start micGranted) newEngine))))
    = Some None.
Proof.
  split; vm_compute; reflexivity.
Qed.

(** C9, amended. On an engine that holds a context, [setMasterVolume] with a
    finite [v] returns and sets the target of the master gain to [v] clamped
    to [0, 4]: 0 for [v] below 0, 4 for [v] above 4, and [v] itself in
    between; [Infinity] gives the target 4 and [-Infinity] the target 0;
    [NaN] is refused by the platform, the call throws and the engine is as
    it was. On any engine and for any input whatever, the call leaves the
    gain node as it was or gives it a target within [0, 4], so it cannot
    drive the master gain negative or above 4. *)
Theorem setMasterVolume_clamps :
  forall s : AudioEngine,
    (reachable s ->
     isSome (context s) = true ->
     (forall v : number,
        snd (setMasterVolume (Finite v) s) = Returned /\
        exists g,
          gainNode (fst (setMasterVolume (Finite v) s)) = Some g /\
          target (gn_gain g) = Some (Math_max 0 (Math_min 4 v)) /\
          (v < 0 -> target (gn_gain g) = Some 0) /\
          (4 < v -> target (gn_gain g) = Some 4) /\
          (0 <= v <= 4 -> Math_max 0 (Math_min 4 v) == v)) /\
     (snd (setMasterVolume Infinity s) = Returned /\
      exists g,
        gainNode (fst (setMasterVolume Infinity s)) = Some g /\
        target (gn_gain g) = Some 4) /\
     (snd (setMasterVolume NegInfinity s) = Returned /\
      exists g,
        gainNode (fst (setMasterVolume NegInfinity s)) = Some g /\
        target (gn_gain g) = Some 0) /\
     setMasterVolume NaN s = (s, Threw NON_FINITE)) /\
    (forall (value : double) g,
       gainNode (fst (setMasterVolume value s)) = Some g ->
       gainNode s = Some g \/
       exists t, target (gn_gain g) = Some t /\ 0 <= t <= 4).
Proof.
  intros s. split.
  - intros Hr Hctx.
    destruct (reachable_graphBuilt Hr Hctx) as (Hg & _).
    unfold setMasterVolume.
    destruct (gainNode s) as [g|]; [|discriminate].
    destruct (context s) as [c|]; [|discriminate].
    cbn [Math_min_double Math_max_double setTargetAtTime_checked fst snd].
    split; [|split; [|split]].
    + intros v. split; [reflexivity|].
      eexists. split; [reflexivity|]. cbn [gn_gain].
      split; [reflexivity|]. unfold target, setTargetAtTime; cbn.
      split; [|split].
      * intros Hv. f_equal. apply (clamp_below v 0 4); [exact Hv | lra].
      * intros Hv. f_equal. apply (clamp_above v 0 4); [exact Hv | lra].
      * intros Hv. apply (clamp_inside v 0 4 Hv).
    + split; [reflexivity|]. eexists. split; reflexivity.
    + split; [reflexivity|]. eexists. split; reflexivity.
    + reflexivity.
  - intros value g Hg.
    destruct (setMasterVolume_cases value s)
      as [E | (g0 & c & t & Hg0 & Hc & Ht & E)]; rewrite E in Hg.
    + left. exact Hg.
    + right. cbn [gainNode set_gainNode] in Hg. injection Hg as <-.
      exists t. split; [reflexivity | exact Ht].
Qed.

Lemma setMasterVolume_clamps_witness :
  exists g,
    gainNode (fst (setMasterVolume (Finite 7) conversationEngine)) = Some g /\
    target (gn_gain g) = Some 4.
Proof.
  destruct (proj2 (proj1 (proj1 (setMasterVolume_clamps conversationEngine)
                            (reachable_run _ reach_new) eq_refl) 7))
    as (g & Hg & _ & _ & Habove & _).
  exists g. split; [exact Hg|]. apply Habove. reflexivity.
Defined.

(** ** Source switch *)

(** C6. Switching to the test source and back leaves every stage as it was:
    after [startTestAudio], and again after the [stopTestAudio] that follows
    (whether it returns or throws), the gain node, the high-pass filter, the
    five band filters and the compressor have the parameter values and
    targets they had, the analyser is the same, and so are the state of the
    context and every connection of the chain behind the source nodes. *)
Theorem source_switch_preserves_stages :
  forall (env : Platform) (s : AudioEngine),
    (stageParams (startTestAudio s) = stageParams s /\
     analyser (startTestAudio s) = analyser s /\
     staticChain (startTestAudio s) = staticChain s) /\
    (stageParams (fst (stopTestAudio env (startTestAudio s))) = stageParams s /\
     analyser (fst (stopTestAudio env (startTestAudio s))) = analyser s /\
     staticChain (fst (stopTestAudio env (startTestAudio s))) = staticChain s).
Proof.
  intros env s.
  destruct (simple_calls_frame s) as (_ & _ & (Hst1 & _)).
  destruct (stopTestAudio_frame env (startTestAudio s)) as (Hst2 & _).
  rewrite Hst1 in Hst2.
  pose proof (f_equal fst Hst1) as Hp1. pose proof (f_equal snd Hst1) as Ha1.
  pose proof (f_equal fst Hst2) as Hp2. pose proof (f_equal snd Hst2) as Ha2.
  cbn [stagesOf fst snd] in Hp1, Ha1, Hp2, Ha2.
  split; (split; [assumption | split; [assumption|]]).
  - apply startTestAudio_staticChain.
  - rewrite stopTestAudio_staticChain. apply startTestAudio_staticChain.
Qed.

(** ** Bypass across the power toggle *)

(** C10, as claimed, fails: [start] does not set the flag for every prior
    state. An engine that was destroyed with bypass on has no context; when
    the platform then refuses the microphone, [start] throws before it
    reaches the assignment and bypass is still on. *)
Lemma refused_start_keeps_bypass :
  _isBypassed (destroy bypassedEngine) = true /\
  snd (start micDenied (destroy bypassedEngine))
    = Threw (micErrorMessage "NotAllowedError" "Permission denied") /\
  _isBypassed (fst (start micDenied (destroy bypassedEngine))) = true.
Proof.
  repeat split; vm_compute; reflexivity.
Qed.

(** C10, amended. Whatever the engine was, [start], when it returns, has set
    the bypass flag to false, and it returns whenever a context exists or
    the microphone is granted; a [start] that throws (no context, microphone
    refused) leaves the flag as it was. [suspend] always sets the flag to
    true. Hence a bypass that the caller had switched on is not there any
    more after [suspend] followed by [start] on an engine that holds a
    context. *)
Theorem start_clears_bypass_suspend_sets_it :
  forall (env : Platform) (s : AudioEngine),
    (snd (start env s) = Returned -> _isBypassed (fst (start env s)) = false) /\
    (isSome (context s) = true \/ getUserMedia env = Granted ->
     snd (start env s) = Returned) /\
    (forall m, snd (start env s) = Threw m ->
               _isBypassed (fst (start env s)) = _isBypassed s) /\
    _isBypassed (suspend s) = true /\
    (isSome (context s) = true ->
     _isBypassed s = true ->
     snd (start env (suspend s)) = Returned /\
     _isBypassed (fst (start env (suspend s))) = false).
Proof.
  assert (Hclears : forall env s,
             snd (start env s) = Returned ->
             _isBypassed (fst (start env s)) = false).
  { intros env s. rewrite start_unfold.
    destruct (initialize env s) as [s' [|e]]; [|discriminate].
    intros _. cbn [fst].
    destruct (applySettings_flags (set_isBypassed s' false)) as (_ & Hb & _).
    rewrite Hb. reflexivity. }
  intros env s. split; [apply Hclears|].
  split; [apply start_returns|].
  split.
  { intros m. rewrite start_unfold.
    destruct (initialize_flags env s) as (_ & _ & Hb).
    destruct (initialize env s) as [s' [|e]]; [discriminate|].
    intros _. exact Hb. }
  split; [reflexivity|].
  intros Hctx _.
  assert (Hret : snd (start env (suspend s)) = Returned).
  { apply start_returns. left.
    destruct (simple_calls_frame s) as ((_ & Hc) & _). now rewrite Hc. }
  split; [exact Hret | now apply Hclears].
Qed.

Lemma start_clears_bypass_suspend_sets_it_witness :
  _isBypassed bypassedEngine = true /\
  snd (start micGranted (suspend bypassedEngine)) = Returned /\
  _isBypassed (fst (start micGranted (suspend bypassedEngine))) = false.
Proof.
  split; [reflexivity|].
  apply (proj2 (proj2 (proj2 (proj2
           (start_clears_bypass_suspend_sets_it micGranted bypassedEngine))))
           eq_refl eq_refl).
Defined.

(** ** Life after [destroy] *)

Lemma isSome_false :
  forall (A : Type) (x : option A), isSome x = false -> x = None.
Proof.
  intros A [a|]; [discriminate | reflexivity].
Qed.

(** Only [initialize] and [start] ever create a context. *)
Lemma exec_keeps_no_context :
  forall c s,
    buildsContext c = false ->
    context s = None ->
    context (exec c s) = None.
Proof.
  intros c s Hc Hs.
  destruct (simple_calls_frame s) as ((_ & Hs2) & (_ & Hd2) & (_ & Ht2)).
  destruct c; try discriminate; cbn [exec].
  - apply isSome_false. now rewrite Hs2, Hs.
  - exact Hd2.
  - exact Hd2.
  - apply isSome_false. now rewrite Ht2, Hs.
  - destruct (stopTestAudio_frame env s) as (_ & H & _).
    apply isSome_false. now rewrite H, Hs.
  - unfold setProfile. now rewrite applySettings_context.
  - unfold setEnvironment. now rewrite applySettings_context.
  - unfold setBypass. now rewrite applySettings_context.
  - destruct (setMasterVolume_graphBuilt v s) as [H _]. now rewrite H.
  - destruct (renderQuantum_graphBuilt magnitudes s) as (H & _). now rewrite H.
Qed.

Lemma run_keeps_no_context :
  forall calls s,
    forallb (fun c => negb (buildsContext c)) calls = true ->
    context s = None ->
    context (run calls s) = None.
Proof.
  induction calls as [|c calls IH]; intros s Hall Hs; [exact Hs|].
  cbn [forallb] in Hall. apply andb_prop in Hall. destruct Hall as [Hc Hall].
  cbn [run fold_left]. apply IH; [exact Hall|].
  apply exec_keeps_no_context; [|exact Hs].
  now destruct (buildsContext c).
Qed.

Lemma isRunning_no_context :
  forall s, context s = None -> isRunning s = false.
Proof.
  intros s H. unfold isRunning. rewrite H. apply andb_false_r.
Qed.

Lemma chainFilters_state :
  forall fs i node c, state (snd (chainFilters fs i node c)) = state c.
Proof.
  induction fs as [|f fs IH]; intros i node c; [reflexivity|].
  cbn [chainFilters]. now rewrite IH.
Qed.

Lemma buildGraph_state :
  forall env s,
    option_map state (context (buildGraph env s)) = Some (newContextState env).
Proof.
  intros env s. unfold buildGraph, _connectStaticChain.
  cbn [context set_context set_gainNode set_highpassFilter set_eqFilters
       set_compressor set_analyser eqFilters].
  match goal with
  | |- context [chainFilters ?fs ?i ?n ?c] =>
      pose proof (chainFilters_state fs i n c) as H;
      destruct (chainFilters fs i n c) as [node c']
  end.
  cbn [snd] in H. cbn [context set_context option_map]. f_equal.
  change (state c' = newContextState env). rewrite H. reflexivity.
Qed.

Lemma attachMicrophone_state :
  forall env s,
    option_map state (context (fst (_attachMicrophone env s))) =
    option_map state (context s).
Proof.
  intros [getUM st0] s. destruct s. unfold_methods. branches; reflexivity.
Qed.

(** From no context, with the microphone granted and audio allowed to play,
    [initialize] returns with the engine running. *)
Lemma initialize_fresh_running :
  forall env s,
    context s = None ->
    getUserMedia env = Granted ->
    newContextState env = running ->
    snd (initialize env s) = Returned /\
    isRunning (fst (initialize env s)) = true.
Proof.
  intros env s Hc Hg Hn.
  rewrite (initialize_fresh env s Hc).
  pose proof (attachMicrophone_granted env (buildGraph env s) Hg) as Hret.
  pose proof (attachMicrophone_state env (buildGraph env s)) as Hst.
  rewrite buildGraph_state, Hn in Hst.
  destruct (_attachMicrophone env (buildGraph env s)) as [s' [|e]];
    [|discriminate].
  cbn [fst snd] in *. split; [reflexivity|].
  unfold isRunning. cbn [_isRunning set_isRunning context andb].
  destruct (context s') as [c|]; [|discriminate].
  cbn in Hst. injection Hst as ->. reflexivity.
Qed.

Lemma isRunning_applySettings :
  forall s, isRunning (_applySettings s) = isRunning s.
Proof.
  intros s. unfold isRunning. rewrite applySettings_context.
  destruct (applySettings_flags s) as (Hr & _). now rewrite Hr.
Qed.

(** C4, as claimed, fails: an engine that ran and was destroyed reports no
    context and is not running, yet one call of [start] on the same instance
    makes it run again. *)
Lemma destroyed_engine_restarts :
  getContextState (destroy conversationEngine) = uninitialized /\
  isRunning (destroy conversationEngine) = false /\
  isRunning (run [Start micGranted] (destroy conversationEngine)) = true.
Proof.
  repeat split; reflexivity.
Qed.

(** C4, amended. [destroy] puts the engine back where a new instance is: it
    holds no context. Calls other than [start] and [initialize] keep it so,
    hence not running, however many follow; [start] on the same instance
    builds a new context and graph and, when the microphone is granted and
    audio may play, returns with the engine running. *)
Theorem destroy_then_only_start_revives :
  forall (s : AudioEngine),
    (forall calls,
       forallb (fun c => negb (buildsContext c)) calls = true ->
       getContextState (run calls (destroy s)) = uninitialized /\
       isRunning (run calls (destroy s)) = false) /\
    (forall env,
       getUserMedia env = Granted ->
       newContextState env = running ->
       snd (start env (destroy s)) = Returned /\
       isRunning (fst (start env (destroy s))) = true).
Proof.
  intros s.
  assert (Hd : context (destroy s) = None)
    by (destruct (simple_calls_frame s) as (_ & (_ & H) & _); exact H).
  split.
  - intros calls Hall.
    pose proof (run_keeps_no_context calls (destroy s) Hall Hd) as Hc.
    split; [unfold getContextState; now rewrite Hc|].
    now apply isRunning_no_context.
  - intros env Hg Hn. rewrite start_unfold.
    destruct (initialize_fresh_running env (destroy s) Hd Hg Hn) as [Hret Hrun].
    destruct (initialize env (destroy s)) as [s' [|e]]; [|discriminate].
    cbn [fst snd] in *. split; [reflexivity|].
    rewrite isRunning_applySettings. exact Hrun.
Qed.

Lemma destroy_then_only_start_revives_witness :
  (getContextState
     (run [Suspend; SetBypass false; StartTestAudio; SetMasterVolume (Finite 1)]
        (destroy conversationEngine)) = uninitialized /\
   isRunning
     (run [Suspend; SetBypass false; StartTestAudio; SetMasterVolume (Finite 1)]
        (destroy conversationEngine)) = false) /\
  (snd (start micGranted (destroy conversationEngine)) = Returned /\
   isRunning (fst (start micGranted (destroy conversationEngine))) = true).
Proof.
  split.
  - apply (proj1 (destroy_then_only_start_revives conversationEngine)).
    reflexivity.
  - apply (proj2 (destroy_then_only_start_revives conversationEngine));
      reflexivity.
Defined.

(** ** Suspend and resume *)

Lemma forEach_idempotent :
  forall (A : Type) (f g : A -> nat -> A) (l : list A) (k : nat),
    (forall x i, f (g x i) i = g x i) ->
    forEach f (forEach g l k) k = forEach g l k.
Proof.
  intros A f g l; induction l as [|x rest IH]; intros k H; [reflexivity|].
  cbn [forEach]. now rewrite H, IH.
Qed.

(** Applying settings twice is applying them once: right after any call that
    applies settings, the stages carry what [_applySettings] writes. *)
Lemma applySettings_idempotent :
  forall s, _applySettings (_applySettings s) = _applySettings s.
Proof.
  intros s. destruct s.
  destruct context0 as [ctx|]; [|reflexivity].
  destruct _currentProfile0 as [P|]; [|reflexivity].
  destruct highpassFilter0 as [h|], compressor0 as [c|], gainNode0 as [g|];
    lazy beta iota zeta delta
      [_applySettings context stream micSource testSource gainNode
       highpassFilter eqFilters compressor analyser _isRunning _currentMode
       _currentProfile _isBypassed _isTesting set_highpassFilter
       set_eqFilters set_compressor set_gainNode isSome negb orb];
    rewrite forEach_idempotent by
      (intros x i; unfold applyBand; cbn [_isBypassed _currentProfile];
       destruct _isBypassed0; reflexivity);
    reflexivity.
Qed.


(** C5, as claimed, fails on a running engine whose bypass the caller
    switched on: its stages head for the bypass-inert record; after [suspend]
    and [start] they head for the record resolved without bypass, and a
    [start] while running changes the engine in the same way. *)
Lemma suspend_start_drifts_under_bypass :
  reachable bypassedEngine /\
  isRunning bypassedEngine = true /\
  Resolver.stageTargets bypassedEngine = Some Resolver.bypassInert /\
  Resolver.stageTargets (fst (start micGranted (suspend bypassedEngine))) =
    Some (Resolver.resolve speechFocusProfile CONVERSATION false) /\
  stageParams (fst (start micGranted (suspend bypassedEngine))) <>
    stageParams bypassedEngine /\
  fst (start micGranted bypassedEngine) <> bypassedEngine.
Proof.
  split; [apply reach_call, reachable_run, reach_new|].
  split; [reflexivity|]. split; [reflexivity|]. split; [reflexivity|].
  split.
  - intros H.
    apply (f_equal (fun p => option_map (fun g => target (gn_gain g)) (sp_gain p)))
      in H.
    vm_compute in H. discriminate.
  - intros H. apply (f_equal _isBypassed) in H. vm_compute in H. discriminate.
Qed.

(** C5, amended. On a running engine whose bypass is off and whose stages
    carry what [_applySettings] writes (so that applying again changes
    nothing), [suspend] followed by [start] returns the engine exactly as it
    was before the suspension, stage parameters included, and [start] while
    running returns it unchanged. The stages are in that condition right
    after every call that applies settings. *)
Theorem suspend_start_restores :
  forall (env : Platform) (s : AudioEngine),
    (isRunning s = true ->
     _isBypassed s = false ->
     _applySettings s = s ->
     start env (suspend s) = (s, Returned) /\
     stageParams (fst (start env (suspend s))) = stageParams s /\
     start env s = (s, Returned)) /\
    (forall profile,
       _applySettings (setProfile profile s) = setProfile profile s) /\
    (forall mode,
       _applySettings (setEnvironment mode s) = setEnvironment mode s) /\
    (snd (start env s) = Returned ->
     _applySettings (fst (start env s)) = fst (start env s)).
Proof.
  intros env s. split; [|split; [|split]].
  - intros Hrun Hb Happ.
    assert (Hsus : start env (suspend s) = (s, Returned)).
    { rewrite start_unfold.
      destruct s. unfold isRunning in Hrun. cbn in Hrun, Hb.
      destruct _isRunning0; [|discriminate].
      destruct context0 as [[st sr es]|]; [|discriminate].
      destruct st; try discriminate. subst _isBypassed0.
      match type of Happ with
      | _applySettings ?S = _ =>
          change ((_applySettings S, Returned) = (S, Returned))
      end.
      now rewrite Happ. }
    split; [exact Hsus|]. split; [now rewrite Hsus|].
    rewrite start_unfold.
    destruct s. unfold isRunning in Hrun. cbn in Hrun, Hb.
    destruct _isRunning0; [|discriminate].
    destruct context0 as [[st sr es]|]; [|discriminate].
    destruct st; try discriminate. subst _isBypassed0.
    match type of Happ with
    | _applySettings ?S = _ =>
        change ((_applySettings S, Returned) = (S, Returned))
    end.
    now rewrite Happ.
  - intros profile. apply applySettings_idempotent.
  - intros mode. apply applySettings_idempotent.
  - rewrite start_unfold.
    destruct (initialize env s) as [s' [|e]]; [|discriminate].
    intros _. apply applySettings_idempotent.
Qed.

Lemma suspend_start_restores_witness :
  start micGranted (suspend conversationEngine) = (conversationEngine, Returned) /\
  stageParams (fst (start micGranted (suspend conversationEngine))) =
    stageParams conversationEngine /\
  start micGranted conversationEngine = (conversationEngine, Returned).
Proof.
  apply (proj1 (suspend_start_restores micGranted conversationEngine));
    vm_compute; reflexivity.
Defined.

(** ** The spectrum tap while the engine is off *)

(** C7, as claimed, fails: an engine that rendered a loud signal and was then
    suspended, or destroyed, still hands out the analyser with the magnitudes
    of that signal, none of them zero. *)
Lemma stale_spectrum_after_suspend :
  silent loudSpectrum = false /\
  (getContextState (suspend soundingEngine) = contextState suspended /\
   isRunning (suspend soundingEngine) = false /\
   spectrumSnapshot (suspend soundingEngine) = Some loudSpectrum) /\
  (getContextState (destroy soundingEngine) = uninitialized /\
   isRunning (destroy soundingEngine) = false /\
   spectrumSnapshot (destroy soundingEngine) = Some loudSpectrum).
Proof.
  repeat split; reflexivity.
Qed.

(** C7, amended. The engine does not silence its tap: [getAnalyser] returns
    the same analyser after [suspend] and after [destroy] as before, and
    while the engine is suspended or destroyed the audio thread does not
    refresh it, so the snapshot stays what it was. Stale data are kept off
    the screen by the visualizer, which draws its idle line, without reading
    the analyser, whenever it is not active or has no analyser. *)
Theorem spectrum_tap_retained :
  forall (s : AudioEngine) (magnitudes : list Z),
    (getAnalyser (suspend s) = getAnalyser s /\
     spectrumSnapshot (renderQuantum magnitudes (suspend s)) = spectrumSnapshot s) /\
    (getAnalyser (destroy s) = getAnalyser s /\
     spectrumSnapshot (renderQuantum magnitudes (destroy s)) = spectrumSnapshot s) /\
    (forall a h, Visualizer.draw a false h = Visualizer.IdleLine) /\
    (forall isActive h, Visualizer.draw None isActive h = Visualizer.IdleLine).
Proof.
  intros s magnitudes. split; [|split; [|split]].
  - destruct s. unfold spectrumSnapshot, getAnalyser, renderQuantum.
    unfold_methods. branches; split; reflexivity.
  - destruct s. unfold spectrumSnapshot, getAnalyser, renderQuantum.
    unfold_methods. branches; split; reflexivity.
  - intros [a|] h; reflexivity.
  - intros isActive h. reflexivity.
Qed.

(** * Further properties of the engine *)

(** ** The topology never changes *)

Lemma staticEdges_context :
  forall a b, context a = context b -> staticEdges a = staticEdges b.
Proof.
  intros a b H. unfold staticEdges. now rewrite H.
Qed.

Lemma staticEdges_staticChain :
  forall a b, staticChain a = staticChain b -> staticEdges a = staticEdges b.
Proof.
  intros a b H. unfold staticEdges, staticChain in *.
  destruct (context a), (context b); cbn in *; congruence.
Qed.

Lemma attachMicrophone_staticChain :
  forall env s,
    staticChain (fst (_attachMicrophone env s)) = staticChain s.
Proof.
  intros [getUM st0] s. static_chain.
Qed.

Lemma buildGraph_stages :
  forall env s, stageParams (buildGraph env s) = powerOnStages.
Proof.
  intros env s. unfold buildGraph.
  match goal with
  | |- context [_connectStaticChain ?s0] =>
      destruct (connectStaticChain_frame s0) as [Hst _]
  end.
  apply (f_equal fst) in Hst. cbn [stagesOf fst] in Hst. rewrite Hst.
  reflexivity.
Qed.

Lemma buildGraph_edges :
  forall env s,
    option_map edges (context (buildGraph env s)) = Some STATIC_CHAIN.
Proof.
  intros env s. reflexivity.
Qed.

Lemma buildGraph_staticEdges :
  forall env s, staticEdges (buildGraph env s) = Some STATIC_CHAIN.
Proof.
  intros env s. reflexivity.
Qed.

Lemma initialize_staticEdges :
  forall env s,
    staticEdges (fst (initialize env s)) =
    match context s with
    | Some _ => staticEdges s
    | None => Some STATIC_CHAIN
    end.
Proof.
  intros env s. destruct (context s) as [c|] eqn:Hc.
  - rewrite (initialize_existing env s Hc). unfold staticEdges.
    cbn [fst context set_context set_isRunning option_map]. rewrite Hc.
    destruct c as [st sr es]; destruct st; reflexivity.
  - rewrite (initialize_fresh env s Hc).
    pose proof (attachMicrophone_staticChain env (buildGraph env s)) as H.
    apply staticEdges_staticChain in H. rewrite buildGraph_staticEdges in H.
    destruct (_attachMicrophone env (buildGraph env s)) as [s' [|e]];
      cbn [fst] in *; [|exact H].
    rewrite <- H. apply staticEdges_context. reflexivity.
Qed.

Lemma suspend_staticEdges :
  forall s, staticEdges (suspend s) = staticEdges s.
Proof.
  intros s. destruct s. unfold staticEdges, suspend; simpl.
  destruct context0 as [[st sr es]|]; [|reflexivity].
  destruct st; reflexivity.
Qed.

(** The static part of the graph after any call: gone with the context, the
    chain of [_connectStaticChain] when the call built the context, and
    what it was otherwise. *)
Lemma exec_staticEdges :
  forall c s,
    context s = None \/ staticEdges s = Some STATIC_CHAIN ->
    context (exec c s) = None \/ staticEdges (exec c s) = Some STATIC_CHAIN.
Proof.
  intros c s Inv.
  assert (Hinit : forall env,
             staticEdges (fst (initialize env s)) = Some STATIC_CHAIN).
  { intros env. rewrite initialize_staticEdges.
    destruct (context s); [|reflexivity].
    destruct Inv as [Inv | Inv]; [discriminate | exact Inv]. }
  destruct c; cbn [exec].
  - right. apply Hinit.
  - right. rewrite start_unfold. specialize (Hinit env).
    destruct (initialize env s) as [s' [|e]]; cbn [fst] in *; [|exact Hinit].
    rewrite <- Hinit. apply staticEdges_context.
    now rewrite applySettings_context.
  - destruct Inv as [Inv | Inv].
    + left. destruct (simple_calls_frame s) as ((_ & H) & _).
      apply isSome_false. now rewrite H, Inv.
    + right. now rewrite suspend_staticEdges.
  - left. destruct (simple_calls_frame s) as (_ & (_ & H) & _). exact H.
  - left. destruct (simple_calls_frame s) as (_ & (_ & H) & _). exact H.
  - destruct Inv as [Inv | Inv].
    + left. destruct (simple_calls_frame s) as (_ & _ & (_ & H)).
      apply isSome_false. now rewrite H, Inv.
    + right. rewrite <- Inv.
      apply staticEdges_staticChain, startTestAudio_staticChain.
  - destruct Inv as [Inv | Inv].
    + left. destruct (stopTestAudio_frame env s) as (_ & H & _).
      apply isSome_false. now rewrite H, Inv.
    + right. rewrite <- Inv.
      apply staticEdges_staticChain, stopTestAudio_staticChain.
  - destruct Inv as [Inv | Inv]; [left | right; rewrite <- Inv];
      unfold setProfile; [now rewrite applySettings_context|].
    apply staticEdges_context. now rewrite applySettings_context.
  - destruct Inv as [Inv | Inv]; [left | right; rewrite <- Inv];
      unfold setEnvironment; [now rewrite applySettings_context|].
    apply staticEdges_context. now rewrite applySettings_context.
  - destruct Inv as [Inv | Inv]; [left | right; rewrite <- Inv];
      unfold setBypass; [now rewrite applySettings_context|].
    apply staticEdges_context. now rewrite applySettings_context.
  - destruct (setMasterVolume_graphBuilt v s) as [H _].
    destruct Inv as [Inv | Inv]; [left; now rewrite H |].
    right. rewrite <- Inv. now apply staticEdges_context.
  - destruct (renderQuantum_graphBuilt magnitudes s) as (H & _).
    destruct Inv as [Inv | Inv]; [left; now rewrite H |].
    right. rewrite <- Inv. now apply staticEdges_context.
Qed.

(** X1. Whatever calls the engine has received, while it holds a context the
    connections behind the source nodes are exactly the chain
    gain -> high-pass -> five band filters in order -> compressor ->
    analyser -> output: no call reconnects, drops or doubles a stage. *)
Theorem topology_is_fixed :
  forall s : AudioEngine,
    reachable s ->
    isSome (context s) = true ->
    staticEdges s = Some STATIC_CHAIN.
Proof.
  intros s Hr.
  assert (Inv : context s = None \/ staticEdges s = Some STATIC_CHAIN).
  { induction Hr as [|c s Hs IH]; [now left | now apply exec_staticEdges]. }
  intros Hctx. destruct Inv as [Inv | Inv]; [|exact Inv].
  rewrite Inv in Hctx. discriminate.
Qed.

Lemma topology_is_fixed_witness :
  staticEdges
    (run [Start micGranted; StartTestAudio; SetEnvironment NOISY; Suspend;
          StopTestAudio micGranted; Start micGranted] newEngine) =
  Some STATIC_CHAIN.
Proof.
  apply (topology_is_fixed _ (reachable_run _ reach_new)).
  vm_compute; reflexivity.
Defined.

(** ** Invariants of the stages *)

(** An induction principle for the stages: a property of the stage
    parameters that holds when [initialize] has built them and is kept by
    [_applySettings] and by [setMasterVolume] holds whenever the engine has a
    context, for no other call writes to a stage. *)
Lemma stage_invariant :
  forall Q : StageParams -> Prop,
    Q powerOnStages ->
    (forall s, Q (stageParams s) -> Q (stageParams (_applySettings s))) ->
    (forall v s, Q (stageParams s) ->
                 Q (stageParams (fst (setMasterVolume v s)))) ->
    forall s, reachable s -> isSome (context s) = true -> Q (stageParams s).
Proof.
  intros Q Hon Happ Hvol s Hr.
  induction Hr as [|c s Hs IH]; [discriminate|].
  assert (Hinit : forall env,
             Q (stageParams (fst (initialize env s)))).
  { intros env. destruct (context s) as [ctx|] eqn:Hc.
    - rewrite (initialize_existing env s Hc). apply IH. reflexivity.
    - rewrite (initialize_fresh env s Hc).
      pose proof (attachMicrophone_frame env (buildGraph env s)) as (Hst & _).
      apply (f_equal fst) in Hst. cbn [stagesOf fst] in Hst.
      rewrite buildGraph_stages in Hst.
      destruct (_attachMicrophone env (buildGraph env s)) as [s' [|e]];
        cbn [fst] in *.
      + change (Q (stageParams s')). now rewrite Hst.
      + now rewrite Hst. }
  assert (Hframe : forall s',
             stagesOf s' = stagesOf s ->
             isSome (context s') = isSome (context s) ->
             isSome (context s') = true -> Q (stageParams s')).
  { intros s' Hst Hc Hc'. apply (f_equal fst) in Hst. cbn [stagesOf fst] in Hst.
    rewrite Hst. apply IH. now rewrite <- Hc. }
  destruct (simple_calls_frame s) as ((Hs1 & Hs2) & (Hd1 & Hd2) & (Ht1 & Ht2)).
  intros Hctx. destruct c; cbn [exec] in *.
  - apply Hinit.
  - rewrite start_unfold. specialize (Hinit env).
    destruct (initialize env s) as [s' [|e]]; cbn [fst] in *; [|exact Hinit].
    apply Happ. exact Hinit.
  - now apply Hframe.
  - rewrite Hd2 in Hctx. discriminate.
  - rewrite Hd2 in Hctx. discriminate.
  - now apply Hframe.
  - destruct (stopTestAudio_frame env s) as (Hst & Hc & _). now apply Hframe.
  - unfold setProfile in *. rewrite applySettings_context in Hctx.
    apply Happ. now apply IH.
  - unfold setEnvironment in *. rewrite applySettings_context in Hctx.
    apply Happ. now apply IH.
  - unfold setBypass in *. rewrite applySettings_context in Hctx.
    apply Happ. now apply IH.
  - destruct (setMasterVolume_graphBuilt v s) as [Hc _]. rewrite Hc in Hctx.
    apply Hvol. now apply IH.
  - destruct (renderQuantum_graphBuilt magnitudes s) as (Hc & Hst & _).
    rewrite Hc in Hctx. rewrite Hst. now apply IH.
Qed.

Lemma forEach_applyBand_unramped :
  forall s preset l k,
    map (fun f => set_bq_gain f (unramped (bq_gain f)))
      (forEach (applyBand s preset) l k) =
    map (fun f => set_bq_gain f (unramped (bq_gain f))) l.
Proof.
  intros s preset l; induction l as [|x rest IH]; intros k; [reflexivity|].
  cbn [forEach map]. rewrite IH. f_equal.
  unfold applyBand. destruct (_isBypassed s); reflexivity.
Qed.

Lemma applySettings_withoutRamps :
  forall s,
    withoutRamps (stageParams (_applySettings s)) = withoutRamps (stageParams s).
Proof.
  intros s. destruct s.
  destruct context0 as [ctx|]; [|reflexivity].
  destruct _currentProfile0 as [P|]; [|reflexivity].
  destruct highpassFilter0 as [h|], compressor0 as [c|], gainNode0 as [g|];
    lazy beta iota zeta delta
      [_applySettings context stream micSource testSource gainNode
       highpassFilter eqFilters compressor analyser _isRunning _currentMode
       _currentProfile _isBypassed _isTesting set_highpassFilter
       set_eqFilters set_compressor set_gainNode isSome negb orb
       stageParams withoutRamps sp_gain sp_highpass sp_eq sp_compressor];
    rewrite forEach_applyBand_unramped; reflexivity.
Qed.

Lemma setMasterVolume_withoutRamps :
  forall v s,
    withoutRamps (stageParams (fst (setMasterVolume v s))) =
    withoutRamps (stageParams s).
Proof.
  intros v s.
  destruct (setMasterVolume_cases v s)
    as [-> | (g & c & t & Hg & Hc & Ht & ->)]; [reflexivity|].
  destruct s. cbn in *. subst. reflexivity.
Qed.

(** X2. The engine only ever ramps: on every engine that holds a context,
    the stages without their scheduled automations are the stages that
    [initialize] created. No call writes a value into a parameter, changes a
    filter type, a centre frequency, a Q, or the knee, attack and release of
    the compressor; the only automations are on the master gain, the
    high-pass frequency, the band gains and the compressor threshold and
    ratio. *)
Theorem only_ramps_change_stages :
  forall s : AudioEngine,
    reachable s ->
    isSome (context s) = true ->
    withoutRamps (stageParams s) = powerOnStages.
Proof.
  apply (stage_invariant (fun p => withoutRamps p = powerOnStages)).
  - reflexivity.
  - intros s H. now rewrite applySettings_withoutRamps.
  - intros v s H. now rewrite setMasterVolume_withoutRamps.
Qed.

Lemma only_ramps_change_stages_witness :
  withoutRamps
    (stageParams
       (run [Start micGranted; SetProfile speechFocusProfile; SetBypass true;
             SetMasterVolume (Finite 3)] newEngine)) = powerOnStages.
Proof.
  apply (only_ramps_change_stages _ (reachable_run _ reach_new)).
  vm_compute; reflexivity.
Defined.

Lemma forEach_Forall :
  forall (A : Type) (P : A -> Prop) (f : A -> nat -> A) (l : list A) (k : nat),
    (forall x i, P (f x i)) -> Forall P (forEach f l k).
Proof.
  intros A P f l; induction l as [|x rest IH]; intros k H; cbn [forEach].
  - constructor.
  - constructor; [apply H | now apply IH].
Qed.

Lemma applyBand_target_bounded :
  forall s preset x i,
    targetWithin (-18) 18 (bq_gain (applyBand s preset x i)).
Proof.
  intros s preset x i. unfold applyBand, targetWithin.
  destruct (_isBypassed s); cbn [bq_gain set_bq_gain target setTargetAtTime
                                   scheduled option_map ev_target].
  - split; apply Qle_bool_imp_le; reflexivity.
  - match goal with
    | |- _ <= Math_max _ (Math_min _ ?x) <= _ =>
        apply (@clamp_bounds x (-18) 18)
    end.
    apply Qle_bool_imp_le; reflexivity.
Qed.

Ltac concrete_range :=
  unfold targetWithin;
  cbn [target setTargetAtTime scheduled option_map ev_target gn_gain
       bq_frequency set_bq_frequency threshold ratio];
  repeat split; apply Qle_bool_imp_le; vm_compute; reflexivity.

Lemma applySettings_targetsInRange :
  forall s,
    targetsInRange (stageParams s) ->
    targetsInRange (stageParams (_applySettings s)).
Proof.
  intros s H. destruct s.
  destruct context0 as [ctx|]; [|exact H].
  destruct _currentProfile0 as [P|]; [|exact H].
  destruct H as (Hg & Hh & He & Hc).
  cbn [stageParams sp_gain sp_highpass sp_eq sp_compressor gainNode
       highpassFilter eqFilters compressor] in Hg, Hh, He, Hc.
  unfold targetsInRange.
  destruct highpassFilter0 as [h|], compressor0 as [c|], gainNode0 as [g|];
    lazy beta iota zeta delta
      [_applySettings context stream micSource testSource gainNode
       highpassFilter eqFilters compressor analyser _isRunning _currentMode
       _currentProfile _isBypassed _isTesting set_highpassFilter
       set_eqFilters set_compressor set_gainNode isSome negb orb
       stageParams sp_gain sp_highpass sp_eq sp_compressor];
    (split; [|split; [|split]]);
    try exact I;
    try (apply forEach_Forall; intros x i; apply applyBand_target_bounded);
    destruct _isBypassed0, _currentMode0; concrete_range.
Qed.

Lemma setMasterVolume_targetsInRange :
  forall v s,
    targetsInRange (stageParams s) ->
    targetsInRange (stageParams (fst (setMasterVolume v s))).
Proof.
  intros v s H.
  destruct (setMasterVolume_cases v s)
    as [-> | (g & c & t & Hg & Hc & Ht & ->)]; [exact H|].
  destruct s. cbn [gainNode context] in Hg, Hc. subst.
  destruct H as (_ & Hh & He & Hcp).
  split; [exact Ht | split; [|split]]; assumption.
Qed.

(** X3. On every engine that holds a context, whatever profiles, modes,
    bypass settings and volumes it was given, every scheduled target lies in
    a fixed range: band gains within [-18, 18] dB, the master gain within
    [0, 4], the high-pass frequency within [1, 400] Hz, the compressor
    threshold within [-60, -20] dBFS and its ratio within [1, 10]. *)
Theorem targets_stay_in_range :
  forall s : AudioEngine,
    reachable s ->
    isSome (context s) = true ->
    targetsInRange (stageParams s).
Proof.
  apply (stage_invariant targetsInRange).
  - unfold targetsInRange, powerOnStages. cbn.
    repeat split; try exact I. repeat constructor.
  - apply applySettings_targetsInRange.
  - apply setMasterVolume_targetsInRange.
Qed.

Lemma targets_stay_in_range_witness :
  targetsInRange
    (stageParams
       (run [Start micGranted;
             SetProfile {| name := "Mild boost";
                           eqBands := {| band500 := 100; band1000 := -100;
                                         band2000 := 12; band4000 := 12;
                                         band8000 := 12 |} |};
             SetEnvironment NOISY; SetMasterVolume (Finite 9)] newEngine)).
Proof.
  apply (targets_stay_in_range _ (reachable_run _ reach_new)).
  vm_compute; reflexivity.
Defined.

(** ** Sources and devices *)

Lemma exec_context_isSome :
  forall c s,
    buildsContext c = false ->
    isSome (context (exec c s)) = isSome (context s) \/
    context (exec c s) = None.
Proof.
  intros c s Hc.
  destruct (simple_calls_frame s) as ((_ & Hs2) & (_ & Hd2) & (_ & Ht2)).
  destruct c; try discriminate; cbn [exec].
  - now left.
  - now right.
  - now right.
  - now left.
  - left. now destruct (stopTestAudio_frame env s) as (_ & H & _).
  - left. unfold setProfile. now rewrite applySettings_context.
  - left. unfold setEnvironment. now rewrite applySettings_context.
  - left. unfold setBypass. now rewrite applySettings_context.
  - left. destruct (setMasterVolume_graphBuilt v s) as [H _]. now rewrite H.
  - left. destruct (renderQuantum_graphBuilt magnitudes s) as (H & _).
    now rewrite H.
Qed.

Lemma destroy_released :
  forall s, released (destroy s).
Proof.
  intros s. destruct s. unfold released, destroy; simpl.
  branches; repeat split; reflexivity.
Qed.

Lemma exec_released :
  forall c s,
    buildsContext c = false ->
    context s = None ->
    released s ->
    released (exec c s).
Proof.
  intros c s Hc Hctx (H1 & H2 & H3 & H4 & H5).
  destruct s. cbn in Hctx, H1, H2, H3, H4, H5. subst.
  destruct c; try discriminate; try (repeat split; reflexivity).
  destruct gainNode0; repeat split; reflexivity.
Qed.

(** X4. An engine without a context holds no device: before the first
    [start], after [destroy], and after whatever calls follow short of a new
    [start], it has no microphone stream, no microphone or test source node,
    and is neither running nor testing. *)
Theorem no_context_no_device :
  forall s : AudioEngine,
    reachable s ->
    context s = None ->
    released s.
Proof.
  intros s Hr. induction Hr as [|c s Hs IH].
  - intros _. repeat split; reflexivity.
  - intros Hctx. destruct (buildsContext c) eqn:Hb.
    + exfalso. destruct c; try discriminate; cbn [exec] in Hctx.
      * destruct (initialize_builds env (reachable_graphBuilt Hs)) as [H _].
        rewrite Hctx in H. discriminate.
      * destruct (start_builds env (reachable_graphBuilt Hs)) as [H _].
        rewrite Hctx in H. discriminate.
    + destruct (exec_context_isSome c s Hb) as [H | _].
      * rewrite Hctx in H. cbn in H. symmetry in H. apply isSome_false in H.
        apply exec_released; auto.
      * destruct c; try discriminate;
          try (apply destroy_released).
        all: destruct (context s) eqn:Hc;
          [|apply exec_released; auto].
        all: exfalso.
        --  destruct (simple_calls_frame s) as ((_ & H) & _).
            cbn [exec] in Hctx. rewrite Hctx, Hc in H. discriminate.
        --  destruct (simple_calls_frame s) as (_ & _ & (_ & H)).
            cbn [exec] in Hctx. rewrite Hctx, Hc in H. discriminate.
        --  destruct (stopTestAudio_frame env s) as (_ & H & _).
            cbn [exec] in Hctx. rewrite Hctx, Hc in H. discriminate.
        --  cbn [exec] in Hctx. unfold setProfile in Hctx.
            rewrite applySettings_context in Hctx. cbn in Hctx. congruence.
        --  cbn [exec] in Hctx. unfold setEnvironment in Hctx.
            rewrite applySettings_context in Hctx. cbn in Hctx. congruence.
        --  cbn [exec] in Hctx. unfold setBypass in Hctx.
            rewrite applySettings_context in Hctx. cbn in Hctx. congruence.
        --  destruct (setMasterVolume_graphBuilt v s) as [H _].
            cbn [exec] in Hctx. congruence.
        --  destruct (renderQuantum_graphBuilt magnitudes s) as (H & _).
            cbn [exec] in Hctx. congruence.
Qed.

Lemma no_context_no_device_witness :
  released
    (run [Start micGranted; StartTestAudio; Destroy; SetBypass false;
          StopTestAudio micGranted; StartTestAudio] newEngine).
Proof.
  apply (no_context_no_device _ (reachable_run _ reach_new)).
  vm_compute; reflexivity.
Defined.

Lemma existsb_sourceEdges :
  forall src dst c,
    isSource src = true ->
    existsb (Edge_eqb (src, dst)) (edges c) =
    existsb (Edge_eqb (src, dst)) (sourceEdges c).
Proof.
  intros src dst c H. unfold sourceEdges.
  induction (edges c) as [|e rest IH]; [reflexivity|].
  cbn [existsb filter]. destruct (isSource (fst e)) eqn:E.
  - cbn [existsb]. now rewrite IH.
  - rewrite IH. replace (Edge_eqb (src, dst) e) with false; [reflexivity|].
    unfold Edge_eqb. cbn [fst snd].
    destruct (NodeId_eqb src (fst e)) eqn:E2; [|reflexivity].
    apply NodeId_eqb_eq in E2. subst src. congruence.
Qed.

Lemma sourceEdges_connect :
  forall src dst c,
    isSource src = true ->
    sourceEdges (connect src dst c) =
    if existsb (Edge_eqb (src, dst)) (sourceEdges c) then sourceEdges c
    else sourceEdges c ++ [(src, dst)].
Proof.
  intros src dst c H. rewrite <- (existsb_sourceEdges src dst c H).
  unfold sourceEdges, connect. cbn [edges].
  destruct (existsb (Edge_eqb (src, dst)) (edges c)); [reflexivity|].
  rewrite filter_app. cbn [filter fst]. now rewrite H.
Qed.

Lemma sourceEdges_disconnect :
  forall src c,
    sourceEdges (disconnect src c) =
    filter (fun e => negb (NodeId_eqb (fst e) src)) (sourceEdges c).
Proof.
  intros src c. unfold sourceEdges, disconnect. cbn [edges].
  induction (edges c) as [|e rest IH]; [reflexivity|].
  cbn [filter].
  destruct (NodeId_eqb (fst e) src) eqn:E1, (isSource (fst e)) eqn:E2;
    cbn [negb filter]; rewrite ?E1, ?E2; cbn [negb]; now rewrite IH.
Qed.

Arguments sourceEdges : simpl never.

(** Closes a goal [oneSource] once the source connections are computed. *)
Ltac one_source_cases :=
  first [ left; reflexivity
        | right; left; split; reflexivity
        | right; right; repeat split; reflexivity ].

Ltac one_source :=
  match goal with
  | H : oneSource _ |- _ =>
      unfold oneSource, sourceEdgesOf in H |- *;
      cbn [context micSource testSource _isTesting] in H;
      unfold_methods; branches;
      rewrite ?sourceEdges_connect, ?sourceEdges_disconnect by reflexivity;
      try one_source_cases;
      destruct H as [H | [[H H'] | [H [H' H'']]]];
      try discriminate;
      rewrite ?H; try one_source_cases
  end.

Lemma attachMicrophone_oneSource :
  forall env s, oneSource s -> oneSource (fst (_attachMicrophone env s)).
Proof.
  intros [um st0] s H. destruct s. one_source.
Qed.

Lemma startTestAudio_oneSource :
  forall s, oneSource s -> oneSource (startTestAudio s).
Proof.
  intros s H. destruct s. one_source.
Qed.

Lemma stopTestAudio_oneSource :
  forall env s, oneSource s -> oneSource (fst (stopTestAudio env s)).
Proof.
  intros [um st0] s H. destruct s. one_source.
Qed.

Lemma oneSource_frame :
  forall a b,
    context a = context b ->
    micSource a = micSource b ->
    testSource a = testSource b ->
    _isTesting a = _isTesting b ->
    oneSource b -> oneSource a.
Proof.
  intros a b Hc Hm Ht Hi. unfold oneSource, sourceEdgesOf.
  now rewrite Hc, Hm, Ht, Hi.
Qed.

Lemma applySettings_sources :
  forall s,
    micSource (_applySettings s) = micSource s /\
    testSource (_applySettings s) = testSource s /\
    stream (_applySettings s) = stream s /\
    _isTesting (_applySettings s) = _isTesting s.
Proof.
  intros s. unfold _applySettings. destruct s; simpl.
  branches; repeat split; reflexivity.
Qed.

Lemma applySettings_oneSource :
  forall s, oneSource s -> oneSource (_applySettings s).
Proof.
  intros s. destruct (applySettings_sources s) as (Hm & Ht & _ & Hi).
  apply oneSource_frame; auto using applySettings_context.
Qed.

Lemma initialize_oneSource :
  forall env s, oneSource s -> oneSource (fst (initialize env s)).
Proof.
  intros env s H. destruct (context s) as [c|] eqn:Hc.
  - rewrite (initialize_existing env s Hc). cbn [fst].
    unfold oneSource, sourceEdgesOf in *. rewrite Hc in H.
    cbn [context set_context set_isRunning micSource testSource _isTesting].
    destruct c as [st sr es]; destruct st; exact H.
  - rewrite (initialize_fresh env s Hc).
    assert (Hb : oneSource (buildGraph env s)) by (left; reflexivity).
    apply (attachMicrophone_oneSource env) in Hb.
    destruct (_attachMicrophone env (buildGraph env s)) as [s' [|e]];
      cbn [fst] in *; exact Hb.
Qed.

Lemma exec_oneSource :
  forall c s, oneSource s -> oneSource (exec c s).
Proof.
  intros c s H. destruct c; cbn [exec].
  - now apply initialize_oneSource.
  - rewrite start_unfold. apply (initialize_oneSource env) in H.
    destruct (initialize env s) as [s' [|e]]; cbn [fst] in *; [|exact H].
    apply applySettings_oneSource. exact H.
  - destruct s. unfold oneSource, sourceEdgesOf, suspend in *. cbn in *.
    destruct context0 as [[st sr es]|]; [|exact H]. destruct st; exact H.
  - left. unfold sourceEdgesOf.
    destruct (simple_calls_frame s) as (_ & (_ & Hd) & _). now rewrite Hd.
  - left. unfold sourceEdgesOf.
    destruct (simple_calls_frame s) as (_ & (_ & Hd) & _). now rewrite Hd.
  - now apply startTestAudio_oneSource.
  - now apply stopTestAudio_oneSource.
  - now apply applySettings_oneSource.
  - now apply applySettings_oneSource.
  - now apply applySettings_oneSource.
  - destruct (setMasterVolume_cases v s)
      as [-> | (g & c & t & Hg & Hc & Ht & ->)]; [exact H|].
    destruct s. exact H.
  - destruct s. unfold renderQuantum. cbn [analyser context].
    destruct context0 as [[st sr es]|]; [|exact H].
    destruct analyser0; [|exact H]. destruct st; exact H.
Qed.

(** X5. Whatever calls the engine has received, at most one source feeds the
    graph and it feeds the gain node: either nothing, or the microphone
    source alone, or the test source alone (and then the engine is testing).
    The microphone and the test noise are never mixed. *)
Theorem one_source_at_a_time :
  forall s : AudioEngine, reachable s -> oneSource s.
Proof.
  intros s Hr. induction Hr as [|c s Hs IH].
  - left. reflexivity.
  - now apply exec_oneSource.
Qed.

Lemma one_source_at_a_time_witness :
  sourceEdgesOf
    (run [Start micGranted; StartTestAudio; StartTestAudio] newEngine) =
    [(TestNode, Gain)] /\
  oneSource (run [Start micGranted; StartTestAudio; StartTestAudio] newEngine).
Proof.
  split; [vm_compute; reflexivity|].
  apply (one_source_at_a_time _ (reachable_run _ reach_new)).
Defined.

(** ** A start that is refused the microphone *)

Lemma attachMicrophone_refused :
  forall env s errName errMessage,
    isSome (context s) = true ->
    testSource s = None ->
    streamUsable s = false ->
    getUserMedia env = Rejected errName errMessage ->
    _attachMicrophone env s = (s, Threw (micErrorMessage errName errMessage)).
Proof.
  intros [um st0] s errName errMessage Hc Ht Hs Hu.
  destruct s. unfold streamUsable in Hs. cbn in Hc, Ht, Hs, Hu. subst.
  destruct context0; [|discriminate].
  unfold _attachMicrophone, branch, andThen, ret, throw, assign, streamUsable.
  cbn [context testSource stream isSome negb]. rewrite Hs. reflexivity.
Qed.

Lemma connectStaticChain_sources :
  forall s,
    stream (_connectStaticChain s) = stream s /\
    micSource (_connectStaticChain s) = micSource s /\
    testSource (_connectStaticChain s) = testSource s /\
    _isRunning (_connectStaticChain s) = _isRunning s /\
    _isTesting (_connectStaticChain s) = _isTesting s.
Proof.
  intros s. unfold _connectStaticChain.
  destruct (context s) as [c|]; [|repeat split; reflexivity].
  destruct (chainFilters (eqFilters s) 0 Highpass (connect Gain Highpass c)).
  repeat split; reflexivity.
Qed.

Lemma buildGraph_sources :
  forall env s,
    stream (buildGraph env s) = stream s /\
    micSource (buildGraph env s) = micSource s /\
    testSource (buildGraph env s) = testSource s /\
    _isRunning (buildGraph env s) = _isRunning s /\
    _isTesting (buildGraph env s) = _isTesting s.
Proof.
  intros env s. unfold buildGraph.
  match goal with
  | |- context [_connectStaticChain ?s0] =>
      destruct (connectStaticChain_sources s0) as (H1 & H2 & H3 & H4 & H5);
      rewrite H1, H2, H3, H4, H5
  end.
  repeat split; reflexivity.
Qed.

(** [start] throws only on an engine without a context to which the platform
    refuses the microphone; it then leaves behind exactly the graph it had
    built before asking. *)
Lemma start_threw :
  forall env s m,
    reachable s ->
    snd (start env s) = Threw m ->
    context s = None /\
    (exists errName errMessage,
        getUserMedia env = Rejected errName errMessage /\
        m = micErrorMessage errName errMessage) /\
    fst (start env s) = buildGraph env s.
Proof.
  intros env s m Hr Hthrew. rewrite start_unfold in *.
  destruct (context s) as [c|] eqn:Hc.
  - rewrite (initialize_existing env s Hc) in Hthrew. discriminate.
  - split; [reflexivity|].
    destruct (no_context_no_device s Hr Hc) as (H1 & H2 & H3 & _).
    rewrite (initialize_fresh env s Hc) in *.
    destruct (buildGraph_sources env s) as (B1 & _ & B3 & _).
    destruct (buildGraph_builds env s) as [Bc _].
    destruct (getUserMedia env) as [|errName errMessage] eqn:Hu.
    + pose proof (attachMicrophone_granted env (buildGraph env s) Hu) as Hg.
      destruct (_attachMicrophone env (buildGraph env s)) as [s' [|e]];
        discriminate.
    + rewrite (attachMicrophone_refused env (buildGraph env s)
                 errName errMessage) in *;
        try assumption; try congruence.
      * cbn in Hthrew. injection Hthrew as <-.
        split; [now exists errName, errMessage | reflexivity].
      * unfold streamUsable. now rewrite B1, H1.
      * unfold streamUsable. now rewrite B1, H1.
Qed.

Lemma buildGraph_context :
  forall env s,
    context (buildGraph env s) =
    Some {| state := newContextState env;
            sampleRate := 44100;
            edges := STATIC_CHAIN |}.
Proof.
  intros env s. reflexivity.
Qed.

(** X6. [start] throws only when the engine had no context and the platform
    refused the microphone, and the message is the one chosen from the name
    of the platform's error. The engine it leaves behind has a context and the
    complete static chain with every stage at its power-on parameters, but no
    stream, no source and nothing connected to the gain node; it is not
    running, and profile, mode and bypass flag are as they were. *)
Theorem refused_start_leaves_bare_graph :
  forall (env : Platform) (s : AudioEngine) (m : string),
    reachable s ->
    snd (start env s) = Threw m ->
    context s = None /\
    (exists errName errMessage,
        getUserMedia env = Rejected errName errMessage /\
        m = micErrorMessage errName errMessage) /\
    stageParams (fst (start env s)) = powerOnStages /\
    staticEdges (fst (start env s)) = Some STATIC_CHAIN /\
    sourceEdgesOf (fst (start env s)) = [] /\
    stream (fst (start env s)) = None /\
    micSource (fst (start env s)) = None /\
    isRunning (fst (start env s)) = false /\
    _isBypassed (fst (start env s)) = _isBypassed s /\
    _currentProfile (fst (start env s)) = _currentProfile s /\
    _currentMode (fst (start env s)) = _currentMode s.
Proof.
  intros env s m Hr Hthrew.
  destruct (start_threw env s m Hr Hthrew) as (Hc & Hm & Hs).
  destruct (no_context_no_device s Hr Hc) as (H1 & H2 & _ & H4 & _).
  destruct (buildGraph_sources env s) as (B1 & B2 & _ & B4 & _).
  destruct (buildGraph_flags env s) as (F1 & F2 & F3).
  rewrite Hs. split; [exact Hc|]. split; [exact Hm|].
  split; [apply buildGraph_stages|].
  split; [reflexivity|]. split; [reflexivity|].
  split; [congruence|]. split; [congruence|].
  split; [unfold isRunning; rewrite B4, H4; reflexivity|].
  repeat split; assumption.
Qed.

Lemma refused_start_leaves_bare_graph_witness :
  snd (start micDenied newEngine) =
    Threw "Microphone permission denied. Please allow mic access and try again." /\
  stageParams (fst (start micDenied newEngine)) = powerOnStages /\
  sourceEdgesOf (fst (start micDenied newEngine)) = [].
Proof.
  split; [vm_compute; reflexivity|].
  destruct (refused_start_leaves_bare_graph micDenied newEngine
              "Microphone permission denied. Please allow mic access and try again."
              reach_new)
    as (_ & _ & H1 & _ & H2 & _).
  - vm_compute; reflexivity.
  - split; assumption.
Defined.

(** X7. After a [start] that was refused the microphone, the next [start]
    does not ask for it again: whatever the platform would answer, it
    returns and the engine reports that it is running, with no stream, no
    microphone source and nothing connected to the gain node. (The context
    that the first [start] created is taken not to be closed already, as a
    new context is not.) *)
Theorem retry_after_refusal_runs_without_microphone :
  forall (env env' : Platform) (s : AudioEngine) (m : string),
    reachable s ->
    snd (start env s) = Threw m ->
    newContextState env <> closed ->
    snd (start env' (fst (start env s))) = Returned /\
    isRunning (fst (start env' (fst (start env s)))) = true /\
    stream (fst (start env' (fst (start env s)))) = None /\
    micSource (fst (start env' (fst (start env s)))) = None /\
    sourceEdgesOf (fst (start env' (fst (start env s)))) = [].
Proof.
  intros env env' s m Hr Hthrew Hst.
  destruct (start_threw env s m Hr Hthrew) as (Hc & _ & Hs).
  destruct (no_context_no_device s Hr Hc) as (H1 & H2 & _).
  destruct (buildGraph_sources env s) as (B1 & B2 & _).
  rewrite Hs. rewrite start_unfold.
  rewrite (initialize_existing env' (buildGraph env s) (buildGraph_context env s)).
  cbn [fst snd]. split; [reflexivity|].
  match goal with
  | |- context [_applySettings ?s0] =>
      destruct (applySettings_sources s0) as (Am & _ & As & _);
      pose proof (applySettings_context s0) as Ac;
      pose proof (isRunning_applySettings s0) as Ar
  end.
  rewrite Ar, As, Am. unfold sourceEdgesOf. rewrite Ac.
  cbn [stream micSource context set_context set_isRunning set_isBypassed].
  split.
  - unfold isRunning. cbn [_isRunning set_isRunning set_isBypassed context
                            set_context andb state].
    destruct (newContextState env); [reflexivity | reflexivity | congruence].
  - split; [congruence|]. split; [congruence|].
    destruct (newContextState env); reflexivity.
Qed.

Lemma retry_after_refusal_runs_without_microphone_witness :
  isRunning (fst (start micDenied (fst (start micDenied newEngine)))) = true /\
  sourceEdgesOf (fst (start micDenied (fst (start micDenied newEngine)))) = [].
Proof.
  destruct (retry_after_refusal_runs_without_microphone micDenied micDenied
              newEngine
              "Microphone permission denied. Please allow mic access and try again."
              reach_new)
    as (_ & H1 & _ & _ & H2).
  - vm_compute; reflexivity.
  - discriminate.
  - split; assumption.
Defined.

(** ** How the controls compose *)

Lemma forEach_overwrite :
  forall (A : Type) (f g : A -> nat -> A) (l : list A) (k : nat),
    (forall x i, f (g x i) i = f x i) ->
    forEach f (forEach g l k) k = forEach f l k.
Proof.
  intros A f g l; induction l as [|x rest IH]; intros k H; [reflexivity|].
  cbn [forEach]. now rewrite H, IH.
Qed.

Lemma applyBand_overwrite :
  forall s1 p1 s0 p0 x i,
    applyBand s1 p1 (applyBand s0 p0 x i) i = applyBand s1 p1 x i.
Proof.
  intros s1 p1 s0 p0 x i. unfold applyBand.
  destruct (_isBypassed s1), (_isBypassed s0); reflexivity.
Qed.

(** What [_applySettings] wrote before does not show in what it writes after
    the profile, the mode or the bypass flag has been assigned. *)
Ltac absorb :=
  match goal with
  | s : AudioEngine |- _ => destruct s
  end;
  match goal with
  | c : option AudioContext |- _ => destruct c as [ctx|]; [|reflexivity]
  end;
  match goal with
  | p : option HearingProfile |- _ => destruct p as [P0|]; [|reflexivity]
  end;
  match goal with
  | h : option BiquadFilterNode, c : option DynamicsCompressorNode,
    g : option GainNode |- _ =>
      destruct h as [h|], c as [c|], g as [g|]
  end;
  lazy beta iota zeta delta
    [_applySettings context stream micSource testSource gainNode
     highpassFilter eqFilters compressor analyser _isRunning _currentMode
     _currentProfile _isBypassed _isTesting set_highpassFilter
     set_eqFilters set_compressor set_gainNode set_currentProfile
     set_currentMode set_isBypassed isSome negb orb];
  rewrite forEach_overwrite by (intros; apply applyBand_overwrite);
  reflexivity.

Lemma applySettings_absorbed_profile :
  forall s profile,
    _applySettings (set_currentProfile (_applySettings s) (Some profile)) =
    _applySettings (set_currentProfile s (Some profile)).
Proof.
  intros s profile. absorb.
Qed.

Lemma applySettings_absorbed_mode :
  forall s mode,
    _applySettings (set_currentMode (_applySettings s) mode) =
    _applySettings (set_currentMode s mode).
Proof.
  intros s mode. absorb.
Qed.

Lemma applySettings_absorbed_bypass :
  forall s bypass,
    _applySettings (set_isBypassed (_applySettings s) bypass) =
    _applySettings (set_isBypassed s bypass).
Proof.
  intros s bypass. absorb.
Qed.

(** X8. The three settings are independent and the last call of each kind
    wins: [setProfile], [setEnvironment] and [setBypass] commute with one
    another, and a second call of the same kind erases the first. The engine
    after any sequence of these calls is the one that a single call of each
    kind, with the last value given, produces. *)
Theorem settings_commute_last_wins :
  forall (s : AudioEngine) (P P' : HearingProfile) (M M' : EnvironmentMode)
         (b b' : bool),
    setProfile P (setEnvironment M s) = setEnvironment M (setProfile P s) /\
    setProfile P (setBypass b s) = setBypass b (setProfile P s) /\
    setEnvironment M (setBypass b s) = setBypass b (setEnvironment M s) /\
    setProfile P (setProfile P' s) = setProfile P s /\
    setEnvironment M (setEnvironment M' s) = setEnvironment M s /\
    setBypass b (setBypass b' s) = setBypass b s.
Proof.
  intros s P P' M M' b b'.
  unfold setProfile, setEnvironment, setBypass.
  rewrite !applySettings_absorbed_profile, !applySettings_absorbed_mode,
    !applySettings_absorbed_bypass.
  destruct s. repeat split; reflexivity.
Qed.

Lemma applySettings_absorbs_volume :
  forall v s,
    isSome (_currentProfile s) = true ->
    _applySettings (fst (setMasterVolume v s)) = _applySettings s.
Proof.
  intros v s H.
  destruct (setMasterVolume_cases v s)
    as [-> | (g & c & t & Hg & Hc & Ht & ->)]; [reflexivity|].
  destruct s. cbn in H, Hg, Hc. subst.
  destruct _currentProfile0 as [P|]; [|discriminate].
  destruct highpassFilter0 as [h|], compressor0 as [cp|]; reflexivity.
Qed.

Lemma setMasterVolume_setters :
  forall v s,
    (forall p, set_currentProfile (fst (setMasterVolume v s)) p =
               fst (setMasterVolume v (set_currentProfile s p))) /\
    (forall m, set_currentMode (fst (setMasterVolume v s)) m =
               fst (setMasterVolume v (set_currentMode s m))) /\
    (forall b, set_isBypassed (fst (setMasterVolume v s)) b =
               fst (setMasterVolume v (set_isBypassed s b))).
Proof.
  intros v s. destruct s. unfold setMasterVolume.
  destruct gainNode0 as [g|], context0 as [c|], v as [q| | |];
    repeat split; reflexivity.
Qed.

(** X9. A master volume lasts until settings are next applied: [setProfile]
    after [setMasterVolume] gives the engine that [setProfile] alone gives,
    and so do [setEnvironment] and [setBypass] once a profile is set. Without
    a profile these two leave the volume in place. *)
Theorem volume_is_overwritten_by_settings :
  forall (v : double) (s : AudioEngine),
    (forall P, setProfile P (fst (setMasterVolume v s)) = setProfile P s) /\
    (isSome (_currentProfile s) = true ->
     (forall M, setEnvironment M (fst (setMasterVolume v s)) =
                setEnvironment M s) /\
     (forall b, setBypass b (fst (setMasterVolume v s)) = setBypass b s)) /\
    (_currentProfile s = None ->
     (forall M, gainNode (setEnvironment M (fst (setMasterVolume v s))) =
                gainNode (fst (setMasterVolume v s))) /\
     (forall b, gainNode (setBypass b (fst (setMasterVolume v s))) =
                gainNode (fst (setMasterVolume v s)))).
Proof.
  intros v s. destruct (setMasterVolume_setters v s) as (Sp & Sm & Sb).
  split; [|split].
  - intros P. unfold setProfile. rewrite Sp.
    now apply applySettings_absorbs_volume.
  - intros H. split.
    + intros M. unfold setEnvironment. rewrite Sm.
      now apply applySettings_absorbs_volume.
    + intros b. unfold setBypass. rewrite Sb.
      now apply applySettings_absorbs_volume.
  - intros H.
    assert (Hv : _currentProfile (fst (setMasterVolume v s)) = None).
    { destruct (setMasterVolume_cases v s)
        as [-> | (g & c & t & Hg & Hc & Ht & ->)]; [exact H|].
      destruct s. exact H. }
    split.
    + intros M. unfold setEnvironment.
      rewrite applySettings_inert; [reflexivity | right; exact Hv].
    + intros b. unfold setBypass.
      rewrite applySettings_inert; [reflexivity | right; exact Hv].
Qed.

Lemma volume_is_overwritten_by_settings_witness :
  setEnvironment NOISY (fst (setMasterVolume (Finite 3) conversationEngine)) =
  setEnvironment NOISY conversationEngine.
Proof.
  apply (proj1 (proj1 (proj2
           (volume_is_overwritten_by_settings (Finite 3) conversationEngine))
                  eq_refl)).
Defined.

Lemma destroy_flags :
  forall s,
    _currentProfile (destroy s) = _currentProfile s /\
    _currentMode (destroy s) = _currentMode s /\
    _isBypassed (destroy s) = _isBypassed s.
Proof.
  intros s. destruct s. unfold destroy; simpl.
  branches; repeat split; reflexivity.
Qed.

(** X10. [destroy] forgets the devices but not the settings: profile, mode
    and bypass flag survive it, and the next [start] on the same instance,
    once it has the microphone, applies the profile and mode that were set
    before the shutdown to the fresh graph, with bypass off. *)
Theorem settings_survive_destroy :
  forall (env : Platform) (s : AudioEngine) (P : HearingProfile),
    _currentProfile s = Some P ->
    getUserMedia env = Granted ->
    _currentProfile (destroy s) = Some P /\
    _currentMode (destroy s) = _currentMode s /\
    _isBypassed (destroy s) = _isBypassed s /\
    snd (start env (destroy s)) = Returned /\
    Resolver.stageTargets (fst (start env (destroy s))) =
      Some (Resolver.resolve P (_currentMode s) false).
Proof.
  intros env s P HP Hg.
  destruct (destroy_flags s) as (Dp & Dm & Db).
  split; [congruence|]. split; [exact Dm|]. split; [exact Db|].
  assert (Hd : context (destroy s) = None)
    by (destruct (simple_calls_frame s) as (_ & (_ & H) & _); exact H).
  assert (Inv : isSome (context (destroy s)) = true -> graphBuilt (destroy s))
    by (rewrite Hd; discriminate).
  pose proof (initialize_returns env (destroy s) (or_intror Hg)) as Hret.
  destruct (@initialize_builds env (destroy s) Inv) as [Hctx Hbuilt].
  destruct (initialize_flags env (destroy s)) as (Ip & Im & _).
  rewrite start_unfold.
  destruct (initialize env (destroy s)) as [s' [|e]]; [|discriminate].
  cbn [fst snd] in *. split; [reflexivity|].
  rewrite (@applySettings_refines_resolve (set_isBypassed s' false) P).
  - cbn [_currentMode _isBypassed set_isBypassed]. now rewrite Im, Dm.
  - exact Hctx.
  - apply (@graphBuilt_stagesOf s'); [reflexivity | exact Hbuilt].
  - cbn [_currentProfile set_isBypassed]. congruence.
Qed.

Lemma settings_survive_destroy_witness :
  Resolver.stageTargets (fst (start micGranted (destroy conversationEngine))) =
  Some (Resolver.resolve speechFocusProfile CONVERSATION false).
Proof.
  destruct (settings_survive_destroy micGranted conversationEngine
              speechFocusProfile eq_refl eq_refl) as (_ & _ & _ & _ & H).
  exact H.
Defined.

(** ** Switching between the microphone and the test source *)

Lemma isRunning_context :
  forall s, isRunning s = true -> isSome (context s) = true.
Proof.
  intros s H. unfold isRunning in H. destruct (context s); [reflexivity|].
  now rewrite andb_false_r in H.
Qed.

(** X11. On an engine with a context that is not testing, [startTestAudio]
    leaves the test source as the only source connected to the gain node; the
    [stopTestAudio] that follows returns whenever the microphone stream is
    still active or the platform grants it again, and then the microphone
    source is the only source connected and the engine is no longer
    testing. *)
Theorem test_source_replaces_microphone :
  forall (env : Platform) (s : AudioEngine),
    reachable s ->
    isSome (context s) = true ->
    _isTesting s = false ->
    (sourceEdgesOf (startTestAudio s) = [(TestNode, Gain)] /\
     _isTesting (startTestAudio s) = true) /\
    (streamUsable s = true \/ getUserMedia env = Granted ->
     snd (stopTestAudio env (startTestAudio s)) = Returned /\
     sourceEdgesOf (fst (stopTestAudio env (startTestAudio s))) =
       [(MicNode, Gain)] /\
     _isTesting (fst (stopTestAudio env (startTestAudio s))) = false /\
     testSource (fst (stopTestAudio env (startTestAudio s))) = None).
Proof.
  intros [um st0] s Hr Hctx Ht.
  pose proof (one_source_at_a_time s Hr) as H.
  destruct s. unfold oneSource, sourceEdgesOf, streamUsable in *.
  cbn [context micSource testSource _isTesting stream getUserMedia] in *.
  subst _isTesting0. destruct context0 as [ctx|]; [|discriminate].
  split.
  - unfold_methods.
    destruct micSource0; cbn [isSome on_context set_isTesting set_testSource
                               context set_context option_map _isTesting];
      repeat first [rewrite sourceEdges_connect by reflexivity
                   | rewrite sourceEdges_disconnect];
      destruct H as [H | [[H H'] | [H [H' H'']]]]; try discriminate;
      rewrite H; split; reflexivity.
  - intros Hs. unfold_methods.
    destruct micSource0, stream0 as [[[|]]|], um;
      cbn [isSome on_context set_isTesting set_testSource set_stream
           set_micSource context set_context option_map _isTesting
           testSource stream micSource active negb fst snd];
      repeat first [rewrite sourceEdges_connect by reflexivity
                   | rewrite sourceEdges_disconnect];
      destruct Hs as [Hs | Hs]; try discriminate;
      destruct H as [H | [[H H'] | [H [H' H'']]]]; try discriminate;
      rewrite ?H; repeat split; reflexivity.
Qed.

Lemma test_source_replaces_microphone_witness :
  sourceEdgesOf (startTestAudio conversationEngine) = [(TestNode, Gain)] /\
  sourceEdgesOf
    (fst (stopTestAudio micDenied (startTestAudio conversationEngine))) =
    [(MicNode, Gain)].
Proof.
  destruct (test_source_replaces_microphone micDenied conversationEngine
              (reachable_run _ reach_new) eq_refl eq_refl)
    as ((H1 & _) & H2).
  split; [exact H1|].
  destruct H2 as (_ & H & _); [left; vm_compute; reflexivity | exact H].
Defined.

(** * The pages that drive the engine *)

(** ** Editing a profile with the sliders *)

Lemma slider_edit_value :
  forall (prev : HearingProfile) (freq : Z) (v : number),
    In freq EQ_FREQUENCIES ->
    eqBands_at (eqBands (SetupProfile.handleSliderChange freq v prev)) (Some freq)
      = Some v /\
    (forall g, g <> freq ->
       eqBands_at (eqBands (SetupProfile.handleSliderChange freq v prev)) (Some g)
       = eqBands_at (eqBands prev) (Some g)).
Proof.
  intros prev freq v Hin.
  unfold SetupProfile.handleSliderChange. cbn [name eqBands].
  split.
  - cbn in Hin. destruct Hin as [<- | [<- | [<- | [<- | [<- | []]]]]];
      reflexivity.
  - intros g Hg. cbn in Hin.
    destruct Hin as [<- | [<- | [<- | [<- | [<- | []]]]]];
      unfold SetupProfile.eqBands_with, eqBands_at;
      repeat match goal with
             | |- context [match ?x with _ => _ end] =>
                 is_var x; destruct x; try reflexivity; try congruence
             end.
Qed.

Lemma setProfile_bank :
  forall e P f,
    reachable e ->
    isSome (context e) = true ->
    In f EQ_FREQUENCIES ->
    exists flt,
      bandFilter (setProfile P e) f = Some flt /\
      target (bq_gain flt) =
      (if _isBypassed e then Some 0
       else Some (Resolver.clamp
                    (Resolver.eqBand P f + Resolver.classBoost (name P) f
                     + Resolver.presetOffset (_currentMode e) f)
                    (-18) 18)).
Proof.
  intros e P f Hr Hctx Hf.
  apply In_nth_error in Hf. destruct Hf as [i Hi].
  assert (Hg : graphBuilt (set_currentProfile e (Some P)))
    by (apply (@graphBuilt_stagesOf e); [reflexivity|];
        now apply reachable_graphBuilt).
  destruct (@applySettings_bank (set_currentProfile e (Some P)) P
              Hctx Hg eq_refl i f Hi) as (flt & Hband & _ & Ht).
  exists flt. split; [exact Hband|]. rewrite Ht.
  cbn [_currentMode _isBypassed set_currentProfile].
  destruct (_isBypassed e).
  - cbn [Resolver.resolve Resolver.bypassInert Resolver.r_bandGains].
    destruct i as [|[|[|[|[|i]]]]]; try reflexivity. destruct i; discriminate.
  - unfold Resolver.resolve. cbn [Resolver.r_bandGains].
    erewrite map_nth_error by exact Hi. reflexivity.
Qed.

(** X13. A profile edited with a slider loses the boost of its class: when
    the profile being edited is not a custom one already, the edited profile
    is named "Custom Profile", which selects no boost table, and the running
    engine (bypass off) is given, for the band that was moved, the target
    clamp(v + offset of the mode, -18, 18), whatever boost the preset
    profile had at that band. *)
Theorem slider_edit_drops_class_boost :
  forall (e : AudioEngine) (prev : HearingProfile) (freq : Z) (v : number),
    reachable e ->
    isRunning e = true ->
    _isBypassed e = false ->
    In freq EQ_FREQUENCIES ->
    includes (name prev) "Custom" = false ->
    (forall g,
       Resolver.classBoost
         (name (SetupProfile.handleSliderChange freq v prev)) g = 0) /\
    exists flt,
      bandFilter
        (SetupProfile.syncProfile
           (SetupProfile.handleSliderChange freq v prev) e) freq = Some flt /\
      target (bq_gain flt) =
      Some (Resolver.clamp
              (v + 0 + Resolver.presetOffset (_currentMode e) freq) (-18) 18).
Proof.
  intros e prev freq v Hr Hrun Hb Hin Hname.
  assert (Hn : name (SetupProfile.handleSliderChange freq v prev)
               = "Custom Profile"%string)
    by (unfold SetupProfile.handleSliderChange; cbn [name]; now rewrite Hname).
  split; [intros g; rewrite Hn; reflexivity|].
  unfold SetupProfile.syncProfile. rewrite Hrun.
  destruct (setProfile_bank e (SetupProfile.handleSliderChange freq v prev)
              freq Hr (isRunning_context e Hrun) Hin) as (flt & Hband & Ht).
  exists flt. split; [exact Hband|]. rewrite Ht, Hb, Hn.
  destruct (slider_edit_value prev freq v Hin) as [Hv _]. 
  unfold Resolver.eqBand. rewrite Hv. reflexivity.
Qed.

Lemma slider_edit_drops_class_boost_witness :
  exists flt,
    bandFilter
      (SetupProfile.syncProfile
         (SetupProfile.handleSliderChange 4000 5 SetupProfile.DEFAULT_PROFILE)
         conversationEngine) 4000 = Some flt /\
    target (bq_gain flt) =
    Some (Resolver.clamp
            (5 + 0 + Resolver.presetOffset (_currentMode conversationEngine) 4000)
            (-18) 18).
Proof.
  apply (proj2 (slider_edit_drops_class_boost conversationEngine
                  SetupProfile.DEFAULT_PROFILE 4000 5
                  (reachable_run _ reach_new) eq_refl eq_refl
                  (or_intror (or_intror (or_intror (or_introl eq_refl))))
                  eq_refl)).
Defined.

(** ** The power button *)

Lemma start_returned_bypass :
  forall env s,
    snd (start env s) = Returned -> _isBypassed (fst (start env s)) = false.
Proof.
  intros env s. rewrite start_unfold.
  destruct (initialize env s) as [s' [|e]]; [|discriminate].
  intros _. cbn [fst].
  destruct (applySettings_flags (set_isBypassed s' false)) as (_ & Hb & _).
  now rewrite Hb.
Qed.

(** [startAudio] with a profile, on an engine that has a context or is
    granted the microphone. *)
Lemma startAudio_success :
  forall env P d e,
    reachable e ->
    isSome (context e) = true \/ getUserMedia env = Granted ->
    exists e',
      Dashboard.startAudio env (Some P) (d, e) =
      ({| Dashboard.isAssistOn := Dashboard.isAssistOn d;
          Dashboard.mode := Dashboard.mode d;
          Dashboard.isTestingAudio := Dashboard.isTestingAudio d;
          Dashboard.audioStatus := Dashboard.running;
          Dashboard.micError := None;
          Dashboard.analyser := getAnalyser e' |}, e') /\
      Resolver.stageTargets e' =
        Some (Resolver.resolve P (Dashboard.mode d) false) /\
      _currentProfile e' = Some P /\
      _currentMode e' = Dashboard.mode d /\
      _isBypassed e' = false.
Proof.
  intros env P d e Hr Hok.
  pose proof (start_returns env e Hok) as Hret.
  pose proof (start_returned_bypass env e Hret) as Hb.
  destruct (@start_builds env e (reachable_graphBuilt Hr)) as [Hctx Hg].
  unfold Dashboard.startAudio.
  destruct (start env e) as [e1 [|m]]; [|discriminate]. cbn [fst snd] in *.
  eexists. split; [reflexivity|].
  unfold setEnvironment, setProfile. rewrite applySettings_absorbed_mode.
  set (s := set_currentMode (set_currentProfile e1 (Some P)) (Dashboard.mode d)).
  assert (Hgs : graphBuilt s)
    by (apply (@graphBuilt_stagesOf e1); [reflexivity | exact Hg]).
  rewrite (@applySettings_refines_resolve s P Hctx Hgs eq_refl).
  destruct (applySettings_flags s) as (_ & Fb & Fp & Fm & _).
  rewrite Fb, Fp, Fm. subst s.
  cbn [_currentMode _isBypassed _currentProfile set_currentMode
       set_currentProfile].
  rewrite Hb. repeat split; reflexivity.
Qed.

(** Switching on from a page that shows assist off. *)
Lemma power_on_state :
  forall env P d e,
    reachable e ->
    isSome (context e) = true \/ getUserMedia env = Granted ->
    Dashboard.isAssistOn d = false ->
    snd (Dashboard.handleToggle env (Some P) (d, e)) = Returned /\
    Dashboard.isAssistOn (fst (fst (Dashboard.handleToggle env (Some P) (d, e))))
      = true /\
    Resolver.stageTargets (snd (fst (Dashboard.handleToggle env (Some P) (d, e))))
      = Some (Resolver.resolve P (Dashboard.mode d) false).
Proof.
  intros env P d e Hr Hok Hoff.
  unfold Dashboard.handleToggle. rewrite Hoff. cbn [negb].
  destruct (startAudio_success env P (Dashboard.set_isAssistOn d true) e Hr Hok)
    as (e' & Heq & Ht & _).
  rewrite Heq. cbn. repeat split; assumption.
Qed.

(** X14. Switching assist on from the dashboard, for a user with a profile
    and with the microphone available, always ends in the same place
    whatever the engine had been told before (another mode, bypass, a master
    volume, a shutdown): the handler returns, the page shows assist on and
    running with no error and holds the engine's analyser, and the stages
    head for the parameters resolved from the user's profile and the mode
    shown on the page, with bypass off. *)
Theorem power_on_applies_profile_and_mode :
  forall (env : Platform) (P : HearingProfile) (d : Dashboard.State)
         (e : AudioEngine),
    reachable e ->
    Dashboard.isAssistOn d = false ->
    isSome (context e) = true \/ getUserMedia env = Granted ->
    let r := Dashboard.handleToggle env (Some P) (d, e) in
    snd r = Returned /\
    Dashboard.isAssistOn (fst (fst r)) = true /\
    Dashboard.audioStatus (fst (fst r)) = Dashboard.running /\
    Dashboard.micError (fst (fst r)) = None /\
    Dashboard.mode (fst (fst r)) = Dashboard.mode d /\
    Dashboard.analyser (fst (fst r)) = getAnalyser (snd (fst r)) /\
    Resolver.stageTargets (snd (fst r)) =
      Some (Resolver.resolve P (Dashboard.mode d) false) /\
    _currentMode (snd (fst r)) = Dashboard.mode d /\
    _isBypassed (snd (fst r)) = false.
Proof.
  intros env P d e Hr Hoff Hok r. subst r.
  unfold Dashboard.handleToggle. rewrite Hoff. cbn [negb].
  destruct (startAudio_success env P (Dashboard.set_isAssistOn d true) e Hr Hok)
    as (e' & Heq & Ht & _ & Hm & Hb).
  rewrite Heq. cbn. repeat split; assumption.
Qed.

Lemma power_on_applies_profile_and_mode_witness :
  Resolver.stageTargets
    (snd (fst (Dashboard.handleToggle micGranted (Some speechFocusProfile)
                 ({| Dashboard.isAssistOn := false;
                     Dashboard.mode := NOISY;
                     Dashboard.isTestingAudio := false;
                     Dashboard.audioStatus := Dashboard.idle;
                     Dashboard.micError := None;
                     Dashboard.analyser := None |},
                  suspend bypassedEngine)))) =
  Some (Resolver.resolve speechFocusProfile NOISY false).
Proof.
  destruct (power_on_applies_profile_and_mode micGranted speechFocusProfile
              {| Dashboard.isAssistOn := false;
                 Dashboard.mode := NOISY;
                 Dashboard.isTestingAudio := false;
                 Dashboard.audioStatus := Dashboard.idle;
                 Dashboard.micError := None;
                 Dashboard.analyser := None |}
              (suspend bypassedEngine))
    as (_ & _ & _ & _ & _ & _ & H & _).
  - apply (reach_call Suspend), reach_call, reachable_run, reach_new.
  - reflexivity.
  - left. vm_compute; reflexivity.
  - exact H.
Defined.

Lemma start_refused :
  forall env s errName errMessage,
    reachable s ->
    context s = None ->
    getUserMedia env = Rejected errName errMessage ->
    start env s = (buildGraph env s, Threw (micErrorMessage errName errMessage)).
Proof.
  intros env s errName errMessage Hr Hc Hu.
  destruct (no_context_no_device s Hr Hc) as (H1 & _ & H3 & _).
  destruct (buildGraph_sources env s) as (B1 & _ & B3 & _).
  destruct (buildGraph_builds env s) as [Bc _].
  rewrite start_unfold, (initialize_fresh env s Hc).
  rewrite (attachMicrophone_refused env (buildGraph env s) errName errMessage);
    try assumption; try congruence.
  unfold streamUsable. now rewrite B1, H1.
Qed.

(** X15. Switching assist on when the engine has no context and the platform
    refuses the microphone: the handler itself returns, the page goes back to
    assist off with status error and shows the message of the engine for the
    kind of refusal, and the engine is not running. *)
Theorem power_on_refused_shows_error :
  forall (env : Platform) (userProfile : option HearingProfile)
         (d : Dashboard.State) (e : AudioEngine) (errName errMessage : string),
    reachable e ->
    Dashboard.isAssistOn d = false ->
    context e = None ->
    getUserMedia env = Rejected errName errMessage ->
    let r := Dashboard.handleToggle env userProfile (d, e) in
    snd r = Returned /\
    Dashboard.isAssistOn (fst (fst r)) = false /\
    Dashboard.audioStatus (fst (fst r)) = Dashboard.error /\
    Dashboard.micError (fst (fst r)) = Some (micErrorMessage errName errMessage) /\
    isRunning (snd (fst r)) = false.
Proof.
  intros env up d e errName errMessage Hr Hoff Hc Hu r. subst r.
  unfold Dashboard.handleToggle, Dashboard.startAudio. rewrite Hoff. cbn [negb].
  rewrite (start_refused env e errName errMessage Hr Hc Hu).
  cbn [fst snd Dashboard.isAssistOn Dashboard.audioStatus Dashboard.micError].
  repeat split; try reflexivity.
  destruct (no_context_no_device e Hr Hc) as (_ & _ & _ & H4 & _).
  destruct (buildGraph_sources env e) as (_ & _ & _ & B4 & _).
  unfold isRunning. now rewrite B4, H4.
Qed.

Lemma power_on_refused_shows_error_witness :
  Dashboard.micError
    (fst (fst (Dashboard.handleToggle micDenied None
                 ({| Dashboard.isAssistOn := false;
                     Dashboard.mode := QUIET;
                     Dashboard.isTestingAudio := false;
                     Dashboard.audioStatus := Dashboard.idle;
                     Dashboard.micError := None;
                     Dashboard.analyser := None |}, newEngine)))) =
  Some (micErrorMessage "NotAllowedError" "Permission denied").
Proof.
  destruct (power_on_refused_shows_error micDenied None
              {| Dashboard.isAssistOn := false;
                 Dashboard.mode := QUIET;
                 Dashboard.isTestingAudio := false;
                 Dashboard.audioStatus := Dashboard.idle;
                 Dashboard.micError := None;
                 Dashboard.analyser := None |}
              newEngine "NotAllowedError" "Permission denied"
              reach_new eq_refl eq_refl eq_refl)
    as (_ & _ & _ & H & _).
  exact H.
Defined.

(** Switching assist off, when the handler returns. *)
Lemma power_off_state :
  forall env up d e,
    Dashboard.isAssistOn d = true ->
    snd (Dashboard.handleToggle env up (d, e)) = Returned ->
    exists e0,
      (e0 = e \/ e0 = fst (stopTestAudio env e)) /\
      Dashboard.handleToggle env up (d, e) =
      ({| Dashboard.isAssistOn := false;
          Dashboard.mode := Dashboard.mode d;
          Dashboard.isTestingAudio := false;
          Dashboard.audioStatus := Dashboard.idle;
          Dashboard.micError := Dashboard.micError d;
          Dashboard.analyser := Dashboard.analyser d |}, suspend e0, Returned).
Proof.
  intros env up d e Hon. unfold Dashboard.handleToggle. rewrite Hon.
  cbn [negb Dashboard.set_isAssistOn Dashboard.isTestingAudio].
  destruct (Dashboard.isTestingAudio d) eqn:Ht.
  - destruct (stopTestAudio env e) as [e1 [|m]]; [|discriminate].
    intros _. exists e1. split; [now right | reflexivity].
  - intros _. exists e. split; [now left|].
    unfold Dashboard.suspendAudio. cbn. now rewrite Ht.
Qed.

(** X16. The power button off and on again. When assist is on and the
    engine has a context, switching off (if the handler returns) leaves the
    engine not running, with every stage parameter untouched, and the page
    idle and not testing; switching on again then returns and sets the
    stages heading for the parameters resolved from the user's profile and
    the page's mode with bypass off. *)
Theorem power_cycle_restores_resolved_targets :
  forall (env env' : Platform) (P : HearingProfile) (d : Dashboard.State)
         (e : AudioEngine),
    reachable e ->
    isSome (context e) = true ->
    Dashboard.isAssistOn d = true ->
    let off := Dashboard.handleToggle env (Some P) (d, e) in
    snd off = Returned ->
    (isRunning (snd (fst off)) = false /\
     stageParams (snd (fst off)) = stageParams e /\
     Dashboard.isAssistOn (fst (fst off)) = false /\
     Dashboard.audioStatus (fst (fst off)) = Dashboard.idle /\
     Dashboard.isTestingAudio (fst (fst off)) = false) /\
    let on := Dashboard.handleToggle env' (Some P) (fst off) in
    snd on = Returned /\
    Dashboard.isAssistOn (fst (fst on)) = true /\
    Resolver.stageTargets (snd (fst on)) =
      Some (Resolver.resolve P (Dashboard.mode d) false).
Proof.
  intros env env' P d e Hr Hctx Hon off Hret. subst off.
  destruct (power_off_state env (Some P) d e Hon Hret) as (e0 & He0 & Heq).
  rewrite Heq. cbn [fst snd].
  assert (Hr0 : reachable e0)
    by (destruct He0 as [-> | ->];
        [exact Hr | apply (reach_call (StopTestAudio env)), Hr]).
  assert (Hc0 : isSome (context e0) = true /\ stageParams e0 = stageParams e).
  { destruct He0 as [-> | ->]; [now split|].
    destruct (stopTestAudio_frame env e) as (Hst & Hc & _).
    apply (f_equal fst) in Hst. cbn [stagesOf fst] in Hst.
    split; [now rewrite Hc | exact Hst]. }
  destruct Hc0 as [Hc0 Hs0].
  destruct (simple_calls_frame e0) as ((Hst & Hsc) & _).
  apply (f_equal fst) in Hst. cbn [stagesOf fst] in Hst.
  split.
  - split; [|split; [congruence | repeat split]].
    unfold isRunning, suspend. destruct e0; cbn.
    destruct context0 as [[st sr es]|]; [destruct st|]; reflexivity.
  - set (d' := {| Dashboard.isAssistOn := false;
                  Dashboard.mode := Dashboard.mode d;
                  Dashboard.isTestingAudio := false;
                  Dashboard.audioStatus := Dashboard.idle;
                  Dashboard.micError := Dashboard.micError d;
                  Dashboard.analyser := Dashboard.analyser d |}).
    destruct (power_on_state env' P d' (suspend e0)) as (H1 & H2 & H3).
    + apply (reach_call Suspend), Hr0.
    + left. now rewrite Hsc.
    + reflexivity.
    + cbv zeta. split; [exact H1 | split; [exact H2 | exact H3]].
Qed.

Lemma power_cycle_restores_resolved_targets_witness :
  Resolver.stageTargets
    (snd (fst (Dashboard.handleToggle micGranted (Some speechFocusProfile)
                 (fst (Dashboard.handleToggle micGranted (Some speechFocusProfile)
                         ({| Dashboard.isAssistOn := true;
                             Dashboard.mode := CONVERSATION;
                             Dashboard.isTestingAudio := true;
                             Dashboard.audioStatus := Dashboard.running;
                             Dashboard.micError := None;
                             Dashboard.analyser := None |},
                          run [Start micGranted; SetBypass true; StartTestAudio]
                            newEngine)))))) =
  Some (Resolver.resolve speechFocusProfile CONVERSATION false).
Proof.
  pose proof (power_cycle_restores_resolved_targets micGranted micGranted
                speechFocusProfile
                {| Dashboard.isAssistOn := true;
                   Dashboard.mode := CONVERSATION;
                   Dashboard.isTestingAudio := true;
                   Dashboard.audioStatus := Dashboard.running;
                   Dashboard.micError := None;
                   Dashboard.analyser := None |}
                (run [Start micGranted; SetBypass true; StartTestAudio] newEngine)
                (reachable_run _ reach_new)) as H.
  cbv zeta in H.
  assert (Hc : isSome (context (run [Start micGranted; SetBypass true;
                                     StartTestAudio] newEngine)) = true)
    by (vm_compute; reflexivity).
  specialize (H Hc eq_refl).
  match type of H with
  | ?A -> _ => assert (Hret : A) by (vm_compute; reflexivity)
  end.
  exact (proj2 (proj2 (proj2 (H Hret)))).
Defined.

(** ** What is drawn *)

(** X17. A bar of the dashboard's profile display stays inside its track for
    every value that a slider can give: for a band value in [-12, 12] the
    height is between 45% and 100% of the track, every value at or below 0
    gives the same shortest bar (20/44 of the track), 12 gives the full track,
    and the bar is drawn as a boost exactly when the value is positive. One
    bar is drawn for each of the five bands. *)
Theorem profile_bars_stay_in_track :
  forall val : number,
    -12 <= val <= 12 ->
    45 <= fst (Dashboard.profileBar val) <= 100 /\
    (val <= 0 -> fst (Dashboard.profileBar val) == 20 / 44 * 100) /\
    (val == 12 -> fst (Dashboard.profileBar val) == 100) /\
    (snd (Dashboard.profileBar val) = true <-> 0 < val) /\
    forall P, option_map (@List.length _) (Dashboard.getProfileBars (Some P))
              = Some 5%nat.
Proof.
  intros val [Hlo Hhi]. unfold Dashboard.profileBar, Math_max. cbn [fst snd].
  assert (Hb : negb (Qle_bool val 0) = true <-> 0 < val).
  { split; intros H.
    - destruct (Qle_bool val 0) eqn:E; [discriminate|].
      destruct (Qlt_le_dec 0 val) as [Hlt | Hle]; [exact Hlt|].
      apply Qle_bool_iff in Hle. congruence.
    - destruct (Qle_bool val 0) eqn:E; [|reflexivity].
      apply Qle_bool_iff in E. lra. }
  destruct (Q.max_spec 20 (20 + val * 2)) as [[H1 H2] | [H1 H2]];
    set (pct := Qmax 20 (20 + val * 2)) in *; clearbody pct;
    assert (E : pct / 44 * 100 == pct * (100 # 44)) by field;
    assert (E' : 20 / 44 * 100 == 20 * (100 # 44)) by field;
    rewrite !E, E';
    (split; [lra|]); (split; [intros H; lra|]); (split; [intros H; lra|]);
    (split; [exact Hb | reflexivity]).
Qed.

Lemma profile_bars_stay_in_track_witness :
  45 <= fst (Dashboard.profileBar (-7)) <= 100.
Proof.
  apply (proj1 (profile_bars_stay_in_track (-7)
                  (conj (Qle_bool_imp_le (-12) (-7) eq_refl)
                        (Qle_bool_imp_le (-7) 12 eq_refl)))).
Defined.

Lemma bar_height_bounded :
  forall (d : Z) (h : Q),
    (0 <= d <= 255)%Z ->
    7 <= h ->
    3 <= Math_max Visualizer.minBarH (inject_Z d / 255 * (h - 4)) <= h - 4.
Proof.
  intros d h [Hd0 Hd1] Hh. unfold Math_max, Visualizer.minBarH.
  assert (H0 : 0 <= inject_Z d) by (unfold Qle; cbn; lia).
  assert (H1 : inject_Z d <= 255) by (unfold Qle; cbn; lia).
  set (x := inject_Z d) in *. clearbody x.
  assert (E : x / 255 * (h - 4) == x * (1 # 255) * (h - 4)) by field.
  split.
  - apply Q.le_max_l.
  - apply Q.max_lub; [lra|]. rewrite E. nra.
Qed.

Lemma Forall_firstn_of :
  forall (A : Type) (P : A -> Prop) (n : nat) (l : list A),
    Forall P l -> Forall P (firstn n l).
Proof.
  intros A P n; induction n as [|n IH]; intros l H; [constructor|].
  destruct H as [|x l Hx Hl]; cbn [firstn]; constructor; auto.
Qed.

(** X18. When the visualizer is active, it draws one bar for each of the
    lowest 60% of the analyser's bins (the number of bins times 6, divided by
    10, rounded down), and for byte magnitudes and a canvas at least 7 high
    every bar is at least 3 and at most the canvas height less 4 high: a
    silent bin shows a stub, a full bin stops short of the top. *)
Theorem visualizer_bars_bounded :
  forall (a : AnalyserNode) (h : number),
    Forall (fun d => (0 <= d <= 255)%Z) (getByteFrequencyData a) ->
    7 <= h ->
    exists heights,
      Visualizer.draw (Some a) true h = Visualizer.Bars heights /\
      List.length heights =
        Z.to_nat (Z.of_nat (List.length (getByteFrequencyData a)) * 6 / 10) /\
      Forall (fun x => 3 <= x <= h - 4) heights.
Proof.
  intros a h Hbytes Hh. unfold Visualizer.draw.
  eexists. split; [reflexivity|]. split.
  - rewrite length_map, length_firstn. apply Nat.min_l.
    set (n := List.length (getByteFrequencyData a)).
    assert (Z.of_nat n * 6 / 10 <= Z.of_nat n)%Z
      by (apply Z.div_le_upper_bound; lia).
    lia.
  - apply Forall_map. apply Forall_firstn_of.
    eapply Forall_impl; [|exact Hbytes].
    intros d Hd. now apply bar_height_bounded.
Qed.

Lemma visualizer_bars_bounded_witness :
  exists heights,
    Visualizer.draw (getAnalyser soundingEngine) true 100 =
      Visualizer.Bars heights /\
    List.length heights = 307%nat.
Proof.
  destruct (visualizer_bars_bounded
              {| fftSize := FFT_SIZE; smoothingTimeConstant := SMOOTHING;
                 minDecibels := -90; maxDecibels := -10;
                 frequencyData := loudSpectrum |} 100)
    as (heights & Hd & Hl & _).
  - unfold getByteFrequencyData, loudSpectrum. cbn [frequencyData].
    apply Forall_forall. intros d Hin. apply repeat_spec in Hin. subst d. lia.
  - apply Qle_bool_imp_le. reflexivity.
  - exists heights. split; [exact Hd | exact Hl].
Defined.

(** * The local store *)

(** ** The password hash *)

Lemma toInt32_range :
  forall z, (- 2 ^ 31 <= Store.toInt32 z < 2 ^ 31)%Z.
Proof.
  intros z. unfold Store.toInt32.
  pose proof (Z.mod_pos_bound (z + 2 ^ 31) (2 ^ 32) ltac:(lia)). lia.
Qed.

Lemma toInt32_mod :
  forall z, (Store.toInt32 z mod 2 ^ 32 = z mod 2 ^ 32)%Z.
Proof.
  intros z. unfold Store.toInt32.
  rewrite Zminus_mod_idemp_l.
  replace (z + 2 ^ 31 - 2 ^ 31)%Z with z by lia. reflexivity.
Qed.

Lemma hashStep_mod :
  forall h p c,
    (h mod 2 ^ 32 = p mod 2 ^ 32)%Z ->
    (Store.hashStep h c mod 2 ^ 32 = (p * 31 + c) mod 2 ^ 32)%Z.
Proof.
  intros h p c H. unfold Store.hashStep.
  rewrite toInt32_mod.
  rewrite <- Zplus_mod_idemp_l, <- Zminus_mod_idemp_l, toInt32_mod.
  rewrite Zminus_mod_idemp_l, Zplus_mod_idemp_l.
  replace (h * 32 - h + c)%Z with (h * 31 + c)%Z by lia.
  rewrite <- Zplus_mod_idemp_l, <- Zmult_mod_idemp_l, H.
  rewrite Zmult_mod_idemp_l, Zplus_mod_idemp_l. reflexivity.
Qed.

Lemma hash_fold_mod :
  forall codes h p,
    (h mod 2 ^ 32 = p mod 2 ^ 32)%Z ->
    (fold_left Store.hashStep codes h mod 2 ^ 32 =
     fold_left (fun acc c => acc * 31 + c) codes p mod 2 ^ 32)%Z.
Proof.
  induction codes as [|c codes IH]; intros h p H; [exact H|].
  cbn [fold_left]. apply IH. now apply hashStep_mod.
Qed.

Lemma hash_fold_range :
  forall codes h,
    (- 2 ^ 31 <= h < 2 ^ 31)%Z ->
    (- 2 ^ 31 <= fold_left Store.hashStep codes h < 2 ^ 31)%Z.
Proof.
  induction codes as [|c codes IH]; intros h H; [exact H|].
  cbn [fold_left]. apply IH. apply toInt32_range.
Qed.

Lemma simpleHash_range :
  forall input, (- 2 ^ 31 <= Store.hashValue input < 2 ^ 31)%Z.
Proof.
  intros input. unfold Store.hashValue. apply hash_fold_range. lia.
Qed.

(** X19. The loop of [simpleHash] computes the polynomial hash in 31 of the
    character codes, reduced to a signed 32-bit integer: the value it reaches
    lies in [-2^31, 2^31) and is congruent modulo 2^32 to
    c1*31^(n-1) + ... + cn. The text returned is "sha_" followed by digits. *)
Theorem simpleHash_is_polynomial_hash :
  forall input : string,
    (- 2 ^ 31 <= Store.hashValue input < 2 ^ 31)%Z /\
    (Store.hashValue input mod 2 ^ 32 =
     Store.polynomial31 (Store.charCodes input) mod 2 ^ 32)%Z /\
    String.prefix "sha_" (Store.simpleHash input) = true.
Proof.
  intros input. unfold Store.hashValue, Store.polynomial31.
  split; [apply hash_fold_range; lia|].
  split; [now apply hash_fold_mod|].
  unfold Store.simpleHash.
  destruct (Store.toString36 _); reflexivity.
Qed.

Lemma undigit36_digit36 :
  forall d, (0 <= d < 36)%Z -> Store.undigit36 (Store.digit36 d) = d.
Proof.
  intros d Hd. unfold Store.undigit36, Store.digit36.
  destruct (d <? 10)%Z eqn:E.
  - apply Z.ltb_lt in E. rewrite nat_ascii_embedding by lia.
    destruct (Z.of_nat (48 + Z.to_nat d) <? 58)%Z eqn:E2;
      [lia | apply Z.ltb_ge in E2; lia].
  - apply Z.ltb_ge in E. rewrite nat_ascii_embedding by lia.
    destruct (Z.of_nat (87 + Z.to_nat d) <? 58)%Z eqn:E2;
      [apply Z.ltb_lt in E2; lia | lia].
Qed.

Lemma base36_fold_shift :
  forall l v,
    (fold_left (fun v c => v * 36 + Store.undigit36 c) l v =
     v * 36 ^ Z.of_nat (List.length l)
     + fold_left (fun v c => v * 36 + Store.undigit36 c) l 0)%Z.
Proof.
  induction l as [|c l IH]; intros v.
  - cbn. lia.
  - cbn [fold_left List.length]. rewrite IH.
    rewrite (IH (0 * 36 + Store.undigit36 c)%Z).
    rewrite Nat2Z.inj_succ, Z.pow_succ_r by lia. ring.
Qed.

Lemma fromBase36_String :
  forall c s,
    (Store.fromBase36 (String c s) =
     Store.undigit36 c * 36 ^ Z.of_nat (String.length s) + Store.fromBase36 s)%Z.
Proof.
  intros c s. unfold Store.fromBase36. cbn [list_ascii_of_string fold_left].
  rewrite base36_fold_shift.
  replace (List.length (list_ascii_of_string s)) with (String.length s).
  - ring.
  - induction s as [|a s IH]; cbn; congruence.
Qed.

Lemma fromBase36_toBase36 :
  forall fuel n acc,
    (0 <= n < 36 ^ Z.of_nat fuel)%Z ->
    (Store.fromBase36 (Store.toBase36 fuel n acc) =
     n * 36 ^ Z.of_nat (String.length acc) + Store.fromBase36 acc)%Z.
Proof.
  induction fuel as [|fuel IH]; intros n acc Hn.
  - cbn in Hn. assert (n = 0)%Z by lia. subst n. cbn [Store.toBase36]. lia.
  - cbn [Store.toBase36].
    pose proof (Z.mod_pos_bound n 36 ltac:(lia)) as Hmod.
    pose proof (Z.div_mod n 36 ltac:(lia)) as Hdm.
    destruct (n / 36 =? 0)%Z eqn:E.
    + apply Z.eqb_eq in E. rewrite fromBase36_String, undigit36_digit36 by lia.
      replace (n mod 36)%Z with n by lia. reflexivity.
    + apply Z.eqb_neq in E. rewrite IH.
      * rewrite fromBase36_String, undigit36_digit36 by lia.
        cbn [String.length]. rewrite Nat2Z.inj_succ, Z.pow_succ_r by lia.
        set (k := (36 ^ Z.of_nat (String.length acc))%Z).
        rewrite Hdm at 3. ring.
      * rewrite Nat2Z.inj_succ, Z.pow_succ_r in Hn by lia.
        split; [apply Z.div_pos; lia|].
        apply Z.div_lt_upper_bound; lia.
Qed.

(** X20. The digits after "sha_" read back, in base 36, as the magnitude of
    the 32-bit hash: the encoding loses the sign and nothing else. Two
    inputs therefore get the same hash text exactly when their 32-bit hashes
    are equal or opposite. *)
Theorem simpleHash_text_determines_magnitude :
  (forall n, (0 <= n < 36 ^ 7)%Z ->
     Store.fromBase36 (Store.toString36 n) = n) /\
  (forall p q,
     Store.simpleHash p = Store.simpleHash q <->
     Z.abs (Store.hashValue p) = Z.abs (Store.hashValue q)).
Proof.
  assert (Hround : forall n, (0 <= n < 36 ^ 7)%Z ->
                     Store.fromBase36 (Store.toString36 n) = n).
  { intros n Hn. unfold Store.toString36.
    rewrite fromBase36_toBase36 by exact Hn. cbn. lia. }
  split; [exact Hround|].
  intros p q. split.
  - unfold Store.simpleHash. cbn [String.append]. intros H.
    injection H as H.
    destruct (simpleHash_range p) as [Hp1 Hp2].
    destruct (simpleHash_range q) as [Hq1 Hq2].
    rewrite <- (Hround (Z.abs (Store.hashValue p))),
            <- (Hround (Z.abs (Store.hashValue q))) by lia.
    now rewrite H.
  - intros H. unfold Store.simpleHash. now rewrite H.
Qed.

Lemma simpleHash_text_determines_magnitude_witness :
  Store.fromBase36 (Store.toString36 2147483648) = 2147483648%Z.
Proof.
  apply (proj1 simpleHash_text_determines_magnitude). lia.
Defined.

(** ** Accounts: the users object *)

Lemma own_define_same :
  forall users key u, Store.own (Store.define users key u) key = Some u.
Proof.
  induction users as [|[k u0] rest IH]; intros key u; cbn.
  - now rewrite String.eqb_refl.
  - destruct (String.eqb k key) eqn:E; cbn; rewrite E; [reflexivity | apply IH].
Qed.

Lemma own_define_other :
  forall users key u other,
    other <> key ->
    Store.own (Store.define users key u) other = Store.own users other.
Proof.
  induction users as [|[k u0] rest IH]; intros key u other Hne; cbn.
  - destruct (String.eqb key other) eqn:E; [|reflexivity].
    apply String.eqb_eq in E. congruence.
  - destruct (String.eqb k key) eqn:E; cbn.
    + apply String.eqb_eq in E. subst k.
      destruct (String.eqb key other) eqn:E2; [|reflexivity].
      apply String.eqb_eq in E2. congruence.
    + destruct (String.eqb k other); [reflexivity | now apply IH].
Qed.

Lemma assignEntry_define :
  forall users key u,
    Store.inherited key = false \/ isSome (Store.own users key) = true ->
    Store.assignEntry users key u = Store.define users key u.
Proof.
  intros users key u H. unfold Store.assignEntry.
  destruct (Store.own users key); [reflexivity|].
  destruct H as [H | H]; [|discriminate H].
  destruct (String.eqb key "__proto__") eqn:E; [|reflexivity].
  apply String.eqb_eq in E. subst key. discriminate H.
Qed.

Lemma lookup_assignEntry_same :
  forall users key u,
    Store.inherited key = false \/ isSome (Store.own users key) = true ->
    Store.lookup (Store.assignEntry users key u) key = Store.Own u.
Proof.
  intros users key u H. rewrite (assignEntry_define _ _ _ H).
  unfold Store.lookup. now rewrite own_define_same.
Qed.

Lemma lookup_assignEntry_other :
  forall users key u other,
    other <> key ->
    Store.lookup (Store.assignEntry users key u) other = Store.lookup users other.
Proof.
  intros users key u other Hne. unfold Store.lookup, Store.assignEntry.
  destruct (Store.own users key);
    [now rewrite own_define_other|].
  destruct (String.eqb key "__proto__"); [reflexivity|].
  now rewrite own_define_other.
Qed.

Lemma own_In :
  forall users key u,
    Store.own users key = Some u -> In (key, u) users.
Proof.
  induction users as [|[k u0] rest IH]; intros key u H; [discriminate|].
  cbn in H. destruct (String.eqb k key) eqn:E.
  - injection H as ->. apply String.eqb_eq in E. subst k. now left.
  - right. now apply IH.
Qed.

Lemma In_own :
  forall users key u,
    NoDup (map fst users) -> In (key, u) users ->
    Store.own users key = Some u.
Proof.
  induction users as [|[k u0] rest IH]; intros key u Hnd Hin; [destruct Hin|].
  cbn in Hnd. inversion Hnd as [|? ? Hnotin Hrest]; subst.
  cbn. destruct Hin as [Heq | Hin].
  - injection Heq as -> ->. now rewrite String.eqb_refl.
  - destruct (String.eqb k key) eqn:E; [|now apply IH].
    apply String.eqb_eq in E. subst k. exfalso. apply Hnotin.
    change key with (fst (key, u)). now apply in_map.
Qed.

Lemma define_twice :
  forall users key a b,
    Store.define (Store.define users key a) key b = Store.define users key b.
Proof.
  induction users as [|[k u0] rest IH]; intros key a b; cbn.
  - now rewrite String.eqb_refl.
  - destruct (String.eqb k key) eqn:E; cbn; rewrite E; [reflexivity|].
    now rewrite IH.
Qed.

(** ** Generated identifiers *)

Lemma digit36_not_underscore :
  forall d, (0 <= d < 36)%Z -> Store.digit36 d <> "_"%char.
Proof.
  intros d Hd H. apply (f_equal nat_of_ascii) in H. unfold Store.digit36 in H.
  destruct (d <? 10)%Z eqn:E.
  - apply Z.ltb_lt in E. rewrite nat_ascii_embedding in H by lia.
    cbn in H. lia.
  - apply Z.ltb_ge in E. rewrite nat_ascii_embedding in H by lia.
    cbn in H. lia.
Qed.

Lemma toBase36_head :
  forall fuel n acc,
    fuel <> O ->
    exists d rest,
      (0 <= d < 36)%Z /\
      Store.toBase36 fuel n acc = String (Store.digit36 d) rest.
Proof.
  induction fuel as [|f IH]; intros n acc Hf; [congruence|].
  cbn [Store.toBase36].
  destruct (n / 36 =? 0)%Z.
  - exists (n mod 36)%Z, acc. split; [apply Z.mod_pos_bound; lia | reflexivity].
  - destruct f as [|f'].
    + exists (n mod 36)%Z, acc.
      split; [apply Z.mod_pos_bound; lia | reflexivity].
    + apply IH. discriminate.
Qed.

Lemma integerToString36_head :
  forall n,
    exists c rest,
      Store.integerToString36 n = String c rest /\ c <> "_"%char.
Proof.
  intros n. unfold Store.integerToString36.
  destruct (n <? 0)%Z.
  - eexists. eexists. split; [reflexivity | discriminate].
  - destruct (toBase36_head 11 n "") as (d & rest & Hd & ->); [discriminate|].
    exists (Store.digit36 d), rest.
    split; [reflexivity | now apply digit36_not_underscore].
Qed.

Lemma list_ascii_append :
  forall a b,
    list_ascii_of_string (String.append a b) =
    (list_ascii_of_string a ++ list_ascii_of_string b)%list.
Proof.
  induction a as [|c a IH]; intros b; cbn; [reflexivity | now rewrite IH].
Qed.

(** A generated identifier is no name of [Object.prototype]: it has an
    underscore, as seven of those names have not, and does not begin with
    one, as the other five do. *)
Lemma generateId_own_name :
  forall clock random, Store.inherited (Store.generateId clock random) = false.
Proof.
  intros clock random.
  assert (Hu : In "_"%char
                 (list_ascii_of_string (Store.generateId clock random))).
  { unfold Store.generateId. rewrite list_ascii_append.
    apply in_or_app. right. cbn. now left. }
  destruct (integerToString36_head clock) as (c & rest & Hc & Hne).
  assert (Hhead : exists tail, Store.generateId clock random = String c tail).
  { unfold Store.generateId. rewrite Hc. cbn. eexists. reflexivity. }
  destruct Hhead as (tail & Hhead).
  unfold Store.inherited. apply not_true_is_false. intros H.
  apply existsb_exists in H. destruct H as (name & Hin & Heq).
  apply String.eqb_eq in Heq. rewrite Heq in Hu, Hhead. clear Heq.
  unfold Store.OBJECT_PROTOTYPE in Hin. cbn [In] in Hin.
  repeat (destruct Hin as [<- | Hin]); try contradiction;
    first [ injection Hhead as E _; congruence
          | cbn in Hu; intuition discriminate ].
Qed.

(** ** Searching the entries *)

Lemma someSameText_case :
  forall f a b l,
    toLowerCase a = toLowerCase b ->
    Store.someSameText f a l = Store.someSameText f b l.
Proof.
  intros f a b l H. induction l as [|u rest IH]; cbn; [reflexivity|].
  destruct (f u) as [t|]; [|reflexivity].
  unfold Store.sameText. rewrite H, IH. reflexivity.
Qed.

Lemma findSameText_some :
  forall f text l x,
    Store.findSameText f text l = Some (Some x) ->
    In x l /\ exists t, f x = Some t /\ toLowerCase t = toLowerCase text.
Proof.
  intros f text. induction l as [|u rest IH]; intros x H; [discriminate|].
  cbn in H. destruct (f u) as [t|] eqn:Ef; [|discriminate].
  destruct (Store.sameText t text) eqn:Es.
  - injection H as <-. split; [now left|]. exists t. split; [exact Ef|].
    now apply String.eqb_eq.
  - destruct (IH x H) as [Hin Ht]. split; [now right | exact Ht].
Qed.

Lemma find_define_fresh :
  forall f text users key u t,
    Store.someSameText f text (Store.values users) = Some false ->
    f u = Some t ->
    Store.sameText t text = true ->
    Store.findSameText f text (Store.values (Store.define users key u))
      = Some (Some u).
Proof.
  intros f text. induction users as [|[k u0] rest IH];
    intros key u t Hnone Hf Hs.
  - cbn. now rewrite Hf, Hs.
  - cbn in Hnone. destruct (f u0) as [t0|] eqn:E0; [|discriminate].
    destruct (Store.sameText t0 text) eqn:E1; [discriminate|].
    cbn. destruct (String.eqb k key); cbn.
    + now rewrite Hf, Hs.
    + rewrite E0, E1. now apply (IH key u t).
Qed.

Lemma createUser_fulfilled :
  forall clock random now name0 email0 username0 password ls ls' u,
    Store.createUser clock random now name0 email0 username0 password ls
      = (ls', Store.Fulfilled u) ->
    Store.someSameText (fun x => Store.email (Store.user x)) email0
      (Store.values (Store.loadUsers ls)) = Some false /\
    Store.someSameText (fun x => Store.username (Store.user x)) username0
      (Store.values (Store.loadUsers ls)) = Some false /\
    (6 <= String.length password)%nat /\
    u = {| Store.id := Some (Store.generateId clock random);
           Store.name := Some name0; Store.email := Some email0;
           Store.username := Some username0; Store.profile := None;
           Store.createdAt := Some now; Store.updatedAt := Some now |} /\
    ls' = Store.saveUsers
            (Store.define (Store.loadUsers ls) (Store.generateId clock random)
               {| Store.user := u;
                  Store._passwordHash := Some (Store.simpleHash password) |})
            ls.
Proof.
  intros clock random now name0 email0 username0 password ls ls' u.
  unfold Store.createUser.
  destruct (Store.someSameText (fun x => Store.email (Store.user x)) email0
              (Store.values (Store.loadUsers ls))) as [[|]|] eqn:E1;
    try (intros H; discriminate H).
  destruct (Store.someSameText (fun x => Store.username (Store.user x))
              username0 (Store.values (Store.loadUsers ls))) as [[|]|] eqn:E2;
    try (intros H; discriminate H).
  destruct (String.length password <? 6)%nat eqn:E3; [intros H; discriminate H|].
  intros H. injection H as <- <-. apply Nat.ltb_ge in E3.
  rewrite assignEntry_define by (left; apply generateId_own_name).
  repeat split; assumption.
Qed.

(** X21. Sign up, log out, log in. After a sign-up that succeeded, the new
    user is the current session and is found under its identifier; after
    logging out there is no session; and logging in with the same password
    and the same address, in whatever letter case, gives back the same user
    and makes it the session again. A password whose hash text differs is
    turned away with the message for a wrong password. *)
Theorem signup_logout_login_round_trip :
  forall (clock : Z) (random now name0 email0 username0 password : string)
         (ls ls' : Store.LocalStorage) (u : Store.User),
    Store.signup clock random now name0 email0 username0 password ls
      = (ls', Store.Fulfilled u) ->
    Store.getCurrentUser ls' = Some u /\
    Store.getUserData (Store.generateId clock random) ls' = Some u /\
    Store.getCurrentUser (Store.logout ls') = None /\
    forall email1,
      toLowerCase email1 = toLowerCase email0 ->
      Store.login email1 password (Store.logout ls')
        = (Store.setSession u (Store.logout ls'), Store.Fulfilled u) /\
      Store.getCurrentUser
        (fst (Store.login email1 password (Store.logout ls'))) = Some u /\
      forall password1,
        Store.simpleHash password1 <> Store.simpleHash password ->
        Store.login email1 password1 (Store.logout ls')
          = (Store.logout ls',
             Store.Failed "Incorrect password. Please try again.").
Proof.
  intros clock random now name0 email0 username0 password ls ls' u Hs.
  unfold Store.signup in Hs.
  destruct (Store.createUser clock random now name0 email0 username0 password ls)
    as [ls1 [u1|m]] eqn:Hc; [|discriminate].
  injection Hs as <- <-.
  destruct (createUser_fulfilled _ _ _ _ _ _ _ _ _ _ Hc)
    as (He & _ & _ & Hu & Hls).
  set (newId := Store.generateId clock random) in *.
  set (stored := {| Store.user := u1;
                    Store._passwordHash := Some (Store.simpleHash password) |})
    in *.
  assert (Hget : Store.lookup (Store.loadUsers ls1) newId = Store.Own stored).
  { rewrite Hls. cbn [Store.loadUsers Store.saveUsers Store.earvan_users].
    unfold Store.lookup. now rewrite own_define_same. }
  split; [reflexivity|].
  split.
  { unfold Store.getUserData.
    change (Store.loadUsers (Store.setSession u1 ls1)) with (Store.loadUsers ls1).
    now rewrite Hget. }
  split; [reflexivity|].
  intros email1 Hcase.
  assert (Hfind :
            Store.findSameText (fun x => Store.email (Store.user x)) email1
              (Store.values (Store.loadUsers ls1)) = Some (Some stored)).
  { rewrite Hls. cbn [Store.loadUsers Store.saveUsers Store.earvan_users].
    apply (find_define_fresh _ _ _ _ _ email0).
    - rewrite (someSameText_case _ _ _ _ Hcase). exact He.
    - subst stored u1. reflexivity.
    - unfold Store.sameText. rewrite Hcase. apply String.eqb_refl. }
  assert (Hlogin : forall pw,
            Store.loginUser email1 pw (Store.logout (Store.setSession u1 ls1)) =
            if negb (String.eqb (Store.simpleHash password) (Store.simpleHash pw))
            then Store.Failed "Incorrect password. Please try again."
            else Store.Fulfilled u1).
  { intros pw. unfold Store.loginUser.
    change (Store.loadUsers (Store.logout (Store.setSession u1 ls1)))
      with (Store.loadUsers ls1).
    rewrite Hfind. reflexivity. }
  unfold Store.login. split; [|split].
  - rewrite Hlogin, String.eqb_refl. reflexivity.
  - rewrite Hlogin, String.eqb_refl. reflexivity.
  - intros password1 Hne. rewrite Hlogin.
    destruct (String.eqb (Store.simpleHash password) (Store.simpleHash password1))
      eqn:E; [|reflexivity].
    apply String.eqb_eq in E. congruence.
Qed.

Lemma signup_logout_login_round_trip_witness :
  exists ls' u,
    Store.signup 1767225600000 "ab12cd3" "2026-01-01T00:00:00.000Z"
      "Ann" "Ann@Example.com" "ann" "secret1" Store.emptyStorage
      = (ls', Store.Fulfilled u) /\
    Store.getCurrentUser
      (fst (Store.login "ann@example.COM" "secret1" (Store.logout ls')))
      = Some u.
Proof.
  eexists. eexists. split; [vm_compute; reflexivity|].
  refine (proj1 (proj2 (proj2 (proj2 (proj2
            (signup_logout_login_round_trip
               1767225600000 "ab12cd3" "2026-01-01T00:00:00.000Z"
               "Ann" "Ann@Example.com" "ann" "secret1" Store.emptyStorage
               _ _ _))) "ann@example.COM"%string _))).
  - vm_compute; reflexivity.
  - vm_compute; reflexivity.
Defined.

(** What [updateProfile] does, by what [users[userId]] is: nothing there,
    the call rejects; an own entry, the entry gets the profile; a member
    inherited from [Object.prototype], an entry with the profile alone is
    written under that name and returned, except for [__proto__], where no
    entry is written and the user returned is the empty object. *)
Lemma updateProfile_outcome :
  forall now userId p ls,
    (Store.lookup (Store.loadUsers ls) userId = Store.Undefined /\
     Store.updateProfile now userId p ls = (ls, Store.Failed "User not found.")) \/
    (exists stored,
        Store.lookup (Store.loadUsers ls) userId = Store.Own stored /\
        Store.updateProfile now userId p ls =
          (Store.setSession (Store.user (Store.withProfile stored p now))
             (Store.saveUsers
                (Store.define (Store.loadUsers ls) userId
                   (Store.withProfile stored p now)) ls),
           Store.Fulfilled (Store.user (Store.withProfile stored p now)))) \/
    (Store.own (Store.loadUsers ls) userId = None /\
     Store.inherited userId = true /\
     userId <> "__proto__"%string /\
     Store.updateProfile now userId p ls =
       (Store.setSession
          (Store.user (Store.withProfile Store.emptyObject p now))
          (Store.saveUsers
             (Store.define (Store.loadUsers ls) userId
                (Store.withProfile Store.emptyObject p now)) ls),
        Store.Fulfilled
          (Store.user (Store.withProfile Store.emptyObject p now)))) \/
    (Store.own (Store.loadUsers ls) userId = None /\
     userId = "__proto__"%string /\
     Store.updateProfile now userId p ls =
       (Store.setSession (Store.user Store.emptyObject)
          (Store.saveUsers (Store.loadUsers ls) ls),
        Store.Fulfilled (Store.user Store.emptyObject))).
Proof.
  intros now userId p ls.
  destruct (Store.own (Store.loadUsers ls) userId) as [stored|] eqn:Eo.
  - assert (Hl : Store.lookup (Store.loadUsers ls) userId = Store.Own stored)
      by (unfold Store.lookup; now rewrite Eo).
    right. left. exists stored. split; [exact Hl|].
    unfold Store.updateProfile, Store.updateHearingProfile, Store.getUserData.
    rewrite Hl. cbn [Store.spread].
    change (Store.loadUsers (Store.saveUsers ?u ls)) with u.
    rewrite lookup_assignEntry_same by (right; now rewrite Eo).
    rewrite assignEntry_define by (right; now rewrite Eo).
    reflexivity.
  - destruct (Store.inherited userId) eqn:Ei.
    + assert (Hl : Store.lookup (Store.loadUsers ls) userId = Store.Inherited)
        by (unfold Store.lookup; now rewrite Eo, Ei).
      right. right.
      unfold Store.updateProfile, Store.updateHearingProfile,
        Store.getUserData.
      rewrite Hl. cbn [Store.spread].
      change (Store.loadUsers (Store.saveUsers ?u ls)) with u.
      unfold Store.assignEntry. rewrite Eo.
      destruct (String.eqb userId "__proto__") eqn:Ep.
      * right. apply String.eqb_eq in Ep.
        split; [reflexivity|]. split; [exact Ep|].
        rewrite Hl. reflexivity.
      * left. split; [reflexivity|]. split; [reflexivity|].
        split; [intros H; subst userId; discriminate Ep|].
        unfold Store.lookup. rewrite own_define_same. reflexivity.
    + assert (Hl : Store.lookup (Store.loadUsers ls) userId = Store.Undefined)
        by (unfold Store.lookup; now rewrite Eo, Ei).
      left. split; [exact Hl|].
      unfold Store.updateProfile, Store.updateHearingProfile. now rewrite Hl.
Qed.

(** X22. A call that fails writes nothing: when [signup], [login] or
    [updateProfile] rejects, with one of their messages or with the
    [TypeError] of an entry that lacks the field searched, the store, users
    and session alike, is what it was before the call. [updateProfile]
    rejects only where [users[userId]] is undefined, with the message that
    the user was not found; its message about an update that cannot be
    read back never occurs. *)
Theorem failed_calls_write_nothing :
  forall (ls : Store.LocalStorage) (m : string),
    (forall clock random now name0 email0 username0 password,
       snd (Store.signup clock random now name0 email0 username0 password ls)
         = Store.Failed m ->
       fst (Store.signup clock random now name0 email0 username0 password ls)
         = ls) /\
    (forall email0 password,
       snd (Store.login email0 password ls) = Store.Failed m ->
       fst (Store.login email0 password ls) = ls) /\
    (forall now userId p,
       snd (Store.updateProfile now userId p ls) = Store.Failed m ->
       fst (Store.updateProfile now userId p ls) = ls /\
       m = "User not found."%string /\
       Store.lookup (Store.loadUsers ls) userId = Store.Undefined).
Proof.
  intros ls m. split; [|split].
  - intros clock random now name0 email0 username0 password.
    unfold Store.signup, Store.createUser.
    destruct (Store.someSameText (fun x => Store.email (Store.user x)) email0
                (Store.values (Store.loadUsers ls))) as [[|]|];
      try (intros _; reflexivity).
    destruct (Store.someSameText (fun x => Store.username (Store.user x))
                username0 (Store.values (Store.loadUsers ls))) as [[|]|];
      try (intros _; reflexivity).
    destruct (String.length password <? 6)%nat;
      [intros _; reflexivity | intros H; discriminate H].
  - intros email0 password. unfold Store.login.
    destruct (Store.loginUser email0 password ls); cbn [fst snd];
      [discriminate | reflexivity].
  - intros now userId p.
    destruct (updateProfile_outcome now userId p ls)
      as [[Hn ->] | [(stored & Hs & ->) | [(_ & _ & _ & ->) | (_ & _ & ->)]]];
      cbn [fst snd]; try discriminate.
    intros H. injection H as <-. repeat split; assumption.
Qed.

Lemma failed_calls_write_nothing_witness :
  fst (Store.login "nobody@example.com" "secret1" Store.emptyStorage)
  = Store.emptyStorage.
Proof.
  apply (proj1 (proj2 (failed_calls_write_nothing Store.emptyStorage
                         "No account found with this email.")));
    vm_compute; reflexivity.
Defined.

(** ** The accounts stay distinct *)

Lemma lookup_Own :
  forall users key stored,
    Store.lookup users key = Store.Own stored ->
    Store.own users key = Some stored.
Proof.
  intros users key stored. unfold Store.lookup.
  destruct (Store.own users key) as [s|].
  - intros H. now injection H as ->.
  - destruct (Store.inherited key); discriminate.
Qed.

Lemma texts_cons :
  forall f k u rest,
    Store.texts f ((k, u) :: rest) =
    (match f u with
     | Some t => [toLowerCase t]
     | None => []
     end ++ Store.texts f rest)%list.
Proof.
  reflexivity.
Qed.

Lemma In_texts :
  forall f users k s t,
    In (k, s) users -> f s = Some t ->
    In (toLowerCase t) (Store.texts f users).
Proof.
  intros f users k s t Hin Hf. unfold Store.texts. apply in_flat_map.
  exists (k, s). split; [exact Hin|]. cbn. rewrite Hf. now left.
Qed.

Lemma In_define :
  forall users key u e,
    In e (Store.define users key u) -> snd e = u \/ In e users.
Proof.
  induction users as [|[k u0] rest IH]; intros key u e H.
  - cbn in H. destruct H as [<- | []]. now left.
  - cbn in H. destruct (String.eqb k key); cbn in H.
    + destruct H as [<- | H]; [now left | right; now right].
    + destruct H as [<- | H]; [right; now left|].
      destruct (IH key u e H) as [Hx | Hx]; [now left | right; now right].
Qed.

Lemma In_texts_define :
  forall f users key u x,
    In x (Store.texts f (Store.define users key u)) ->
    (exists t, f u = Some t /\ x = toLowerCase t) \/
    In x (Store.texts f users).
Proof.
  intros f users key u x H. unfold Store.texts in H.
  apply in_flat_map in H. destruct H as (e & He & Hx).
  destruct (In_define _ _ _ _ He) as [Hs | Hin].
  - rewrite Hs in Hx. destruct (f u) as [t|]; [|destruct Hx].
    left. exists t. destruct Hx as [<- | []]. now split.
  - right. unfold Store.texts. apply in_flat_map. now exists e.
Qed.

Lemma NoDup_texts_define_fresh :
  forall f users key u,
    NoDup (Store.texts f users) ->
    (forall t, f u = Some t -> ~ In (toLowerCase t) (Store.texts f users)) ->
    NoDup (Store.texts f (Store.define users key u)).
Proof.
  intros f. induction users as [|[k u0] rest IH]; intros key u Hnd Hfresh.
  - cbn [Store.define]. rewrite texts_cons.
    destruct (f u) as [t|]; cbn; [|constructor].
    constructor; [intros [] | constructor].
  - rewrite texts_cons in Hnd, Hfresh.
    assert (Hrest : NoDup (Store.texts f rest))
      by (destruct (f u0); [now inversion Hnd | exact Hnd]).
    cbn [Store.define]. destruct (String.eqb k key); rewrite texts_cons.
    + destruct (f u) as [t|] eqn:Ef; [|exact Hrest].
      cbn. constructor; [|exact Hrest].
      intros Hin. apply (Hfresh t eq_refl). apply in_or_app. now right.
    + assert (IH' : NoDup (Store.texts f (Store.define rest key u))).
      { apply IH; [exact Hrest|]. intros t Ht Hin.
        apply (Hfresh t Ht). apply in_or_app. now right. }
      destruct (f u0) as [t0|] eqn:E0; [|exact IH'].
      cbn in *. constructor; [|exact IH'].
      intros Hin. apply In_texts_define in Hin.
      destruct Hin as [(t & Ht & Heq) | Hin].
      * apply (Hfresh t Ht). now left.
      * inversion Hnd; contradiction.
Qed.

Lemma some_false_fresh :
  forall f users text,
    Store.someSameText f text (Store.values users) = Some false ->
    ~ In (toLowerCase text) (Store.texts f users).
Proof.
  intros f. induction users as [|[k u0] rest IH]; intros text H; [intros []|].
  cbn in H. destruct (f u0) as [t0|] eqn:E0; [|discriminate].
  destruct (Store.sameText t0 text) eqn:Es; [discriminate|].
  rewrite texts_cons, E0. cbn. intros [Heq | Hin]; [|now apply (IH text)].
  unfold Store.sameText in Es. rewrite Heq, String.eqb_refl in Es.
  discriminate.
Qed.

Lemma texts_define_same :
  forall f users key old u,
    Store.own users key = Some old ->
    f u = f old ->
    Store.texts f (Store.define users key u) = Store.texts f users.
Proof.
  intros f. induction users as [|[k u0] rest IH]; intros key old u Ho Hf.
  - discriminate.
  - cbn [Store.own Store.define] in Ho |- *.
    destruct (String.eqb k key); rewrite !texts_cons.
    + injection Ho as ->. now rewrite Hf.
    + f_equal. now apply (IH key old).
Qed.

Lemma texts_define_none :
  forall f users key u,
    Store.own users key = None ->
    f u = None ->
    Store.texts f (Store.define users key u) = Store.texts f users.
Proof.
  intros f. induction users as [|[k u0] rest IH]; intros key u Ho Hf.
  - cbn [Store.define]. rewrite texts_cons, Hf. reflexivity.
  - cbn [Store.own Store.define] in Ho |- *.
    destruct (String.eqb k key); [discriminate|].
    rewrite !texts_cons. f_equal. now apply IH.
Qed.

Lemma In_keys_define :
  forall users key u x,
    In x (map fst (Store.define users key u)) ->
    x = key \/ In x (map fst users).
Proof.
  induction users as [|[k u0] rest IH]; intros key u x H.
  - cbn in H. destruct H as [<- | []]. now left.
  - cbn in H. destruct (String.eqb k key) eqn:E; cbn in H.
    + right. exact H.
    + destruct H as [<- | H]; [right; now left|].
      destruct (IH key u x H) as [Hx | Hx]; [now left | right; now right].
Qed.

Lemma NoDup_keys_define :
  forall users key u,
    NoDup (map fst users) -> NoDup (map fst (Store.define users key u)).
Proof.
  induction users as [|[k u0] rest IH]; intros key u Hnd.
  - cbn. constructor; [intros [] | constructor].
  - cbn in Hnd. inversion Hnd as [|? ? Hnotin Hrest]; subst.
    cbn. destruct (String.eqb k key) eqn:E; cbn.
    + constructor; assumption.
    + constructor; [|now apply IH].
      intros H. apply In_keys_define in H.
      destruct H as [-> | H]; [|contradiction].
      now rewrite String.eqb_refl in E.
Qed.

Lemma Forall_define :
  forall (P : string * Store.StoredUser -> Prop) users key u,
    Forall P users ->
    P (key, u) ->
    Forall P (Store.define users key u).
Proof.
  intros P. induction users as [|[k u0] rest IH]; intros key u Hall Hu.
  - cbn. constructor; [exact Hu | constructor].
  - inversion Hall as [|? ? H0 Hrest]; subst. cbn.
    destruct (String.eqb k key) eqn:E.
    + apply String.eqb_eq in E. subst k. constructor; assumption.
    + constructor; [exact H0 | now apply IH].
Qed.

Lemma signup_users :
  forall clock random now name0 email0 username0 password ls,
    Store.loadUsers
      (fst (Store.signup clock random now name0 email0 username0 password ls)) =
    Store.loadUsers
      (fst (Store.createUser clock random now name0 email0 username0 password
              ls)).
Proof.
  intros. unfold Store.signup.
  destruct (Store.createUser clock random now name0 email0 username0 password
              ls) as [ls' [u|m]]; reflexivity.
Qed.

Lemma createUser_failed :
  forall clock random now name0 email0 username0 password ls ls' m,
    Store.createUser clock random now name0 email0 username0 password ls
      = (ls', Store.Failed m) ->
    ls' = ls.
Proof.
  intros clock random now name0 email0 username0 password ls ls' m.
  unfold Store.createUser.
  destruct (Store.someSameText (fun x => Store.email (Store.user x)) email0
              (Store.values (Store.loadUsers ls))) as [[|]|];
    try (intros H; now injection H as <- _).
  destruct (Store.someSameText (fun x => Store.username (Store.user x))
              username0 (Store.values (Store.loadUsers ls))) as [[|]|];
    try (intros H; now injection H as <- _).
  destruct (String.length password <? 6)%nat;
    [intros H; now injection H as <- _ | intros H; discriminate H].
Qed.

Lemma exec_wellKeyed :
  forall c ls,
    Store.wellKeyed (Store.loadUsers ls) ->
    Store.wellKeyed (Store.loadUsers (Store.exec c ls)).
Proof.
  intros c ls (He & Hu & Hk & Hall). destruct c; cbn [Store.exec].
  - rewrite signup_users.
    destruct (Store.createUser clock random now name0 email0 username0
                password ls) as [ls' [u|m]] eqn:Hc.
    + destruct (createUser_fulfilled _ _ _ _ _ _ _ _ _ _ Hc)
        as (E1 & E2 & _ & Hnew & ->).
      cbn [fst Store.loadUsers Store.saveUsers Store.earvan_users].
      subst u. repeat split.
      * apply NoDup_texts_define_fresh; [exact He|].
        cbn [Store.user Store.email]. intros t Ht. injection Ht as <-.
        now apply some_false_fresh.
      * apply NoDup_texts_define_fresh; [exact Hu|].
        cbn [Store.user Store.username]. intros t Ht. injection Ht as <-.
        now apply some_false_fresh.
      * now apply NoDup_keys_define.
      * apply Forall_define; [exact Hall|]. left.
        repeat split; try reflexivity. apply generateId_own_name.
    + apply createUser_failed in Hc. subst ls'. cbn [fst].
      repeat split; assumption.
  - unfold Store.login. destruct (Store.loginUser email0 password ls);
      repeat split; assumption.
  - destruct (updateProfile_outcome now userId p ls)
      as [[Hn ->]
         | [(stored & Hs & ->)
           | [(Ho & Hi & Hp & ->) | (Ho & Hp & ->)]]]; cbn [fst].
    + repeat split; assumption.
    + apply lookup_Own in Hs.
      cbn [Store.loadUsers Store.setSession Store.saveUsers Store.earvan_users].
      repeat split.
      * now rewrite (texts_define_same _ _ _ stored).
      * now rewrite (texts_define_same _ _ _ stored).
      * now apply NoDup_keys_define.
      * apply Forall_define; [exact Hall|].
        apply own_In in Hs. rewrite Forall_forall in Hall.
        destruct (Hall _ Hs) as [(A1 & A2 & A3 & A4) | (R1 & R2 & R3 & R4 & R5 & _)].
        -- left. repeat split; assumption.
        -- right. repeat split; assumption.
    + cbn [Store.loadUsers Store.setSession Store.saveUsers Store.earvan_users].
      repeat split.
      * now rewrite texts_define_none.
      * now rewrite texts_define_none.
      * now apply NoDup_keys_define.
      * apply Forall_define; [exact Hall|]. right.
        repeat split; try reflexivity. exact Hi.
    + repeat split; assumption.
  - repeat split; assumption.
Qed.

Lemma reachable_wellKeyed :
  forall ls, Store.reachable ls -> Store.wellKeyed (Store.loadUsers ls).
Proof.
  intros ls Hr. induction Hr as [|c ls Hr IH].
  - repeat split; constructor.
  - now apply exec_wellKeyed.
Qed.

Lemma NoDup_texts_inj :
  forall f users k1 s1 k2 s2 t1 t2,
    NoDup (Store.texts f users) ->
    In (k1, s1) users -> In (k2, s2) users ->
    f s1 = Some t1 -> f s2 = Some t2 ->
    toLowerCase t1 = toLowerCase t2 ->
    (k1, s1) = (k2, s2).
Proof.
  intros f. induction users as [|[k u0] rest IH];
    intros k1 s1 k2 s2 t1 t2 Hnd H1 H2 F1 F2 Heq; [destruct H1|].
  rewrite texts_cons in Hnd.
  assert (Hrest : NoDup (Store.texts f rest))
    by (destruct (f u0); [now inversion Hnd | exact Hnd]).
  destruct H1 as [E1 | H1], H2 as [E2 | H2].
  - congruence.
  - exfalso. injection E1 as -> ->. rewrite F1 in Hnd. cbn in Hnd.
    inversion Hnd as [|? ? Hnotin _]. apply Hnotin.
    rewrite Heq. now apply (In_texts _ _ k2 s2).
  - exfalso. injection E2 as -> ->. rewrite F2 in Hnd. cbn in Hnd.
    inversion Hnd as [|? ? Hnotin _]. apply Hnotin.
    rewrite <- Heq. now apply (In_texts _ _ k1 s1).
  - now apply (IH k1 s1 k2 s2 t1 t2).
Qed.

(** X23. The accounts stay distinct. In a store that only the application
    has written to, from an empty browser on, no two entries have the same
    e-mail address or the same user name, letter case apart, and no key is
    there twice. Every entry is either an account, with address and user
    name, kept under its own identifier, or a profile without identifier,
    address, user name and password hash, kept under a name of
    [Object.prototype]: what [updateProfile] leaves when it is called with
    such a name, which [users[userId]] finds although no entry has it.
    This holds also when a generated identifier repeats an earlier one: the
    entry it replaces goes, and the addresses and names that remain are
    still distinct. *)
Theorem accounts_stay_distinct :
  forall ls : Store.LocalStorage,
    Store.reachable ls -> Store.wellKeyed (Store.loadUsers ls).
Proof.
  exact reachable_wellKeyed.
Qed.

Lemma accounts_stay_distinct_witness :
  List.length
    (Store.loadUsers
       (Store.exec
          (Store.UpdateProfile "2026-01-04T00:00:00.000Z" "toString"
             SetupProfile.DEFAULT_PROFILE)
          (Store.exec
             (Store.Signup 1767225600000 "ab12cd3" "2026-01-03T00:00:00.000Z"
                "Cid" "cid@example.com" "cid" "secret3")
             (Store.exec
                (Store.Signup 1767312000000 "zz90yx1" "2026-01-02T00:00:00.000Z"
                   "Bob" "bob@example.com" "bob" "secret2")
                (Store.exec
                   (Store.Signup 1767225600000 "ab12cd3"
                      "2026-01-01T00:00:00.000Z"
                      "Ann" "Ann@Example.com" "ann" "secret1")
                   Store.emptyStorage))))) = 3%nat /\
  Store.wellKeyed
    (Store.loadUsers
       (Store.exec
          (Store.UpdateProfile "2026-01-04T00:00:00.000Z" "toString"
             SetupProfile.DEFAULT_PROFILE)
          (Store.exec
             (Store.Signup 1767225600000 "ab12cd3" "2026-01-03T00:00:00.000Z"
                "Cid" "cid@example.com" "cid" "secret3")
             (Store.exec
                (Store.Signup 1767312000000 "zz90yx1" "2026-01-02T00:00:00.000Z"
                   "Bob" "bob@example.com" "bob" "secret2")
                (Store.exec
                   (Store.Signup 1767225600000 "ab12cd3"
                      "2026-01-01T00:00:00.000Z"
                      "Ann" "Ann@Example.com" "ann" "secret1")
                   Store.emptyStorage))))).
Proof.
  split; [vm_compute; reflexivity|].
  apply accounts_stay_distinct.
  apply Store.reach_call, Store.reach_call, Store.reach_call,
    Store.reach_call, Store.reach_empty.
Defined.

(** X24. Saving a hearing profile. For an identifier that an entry of the
    store has, [updateProfile] succeeds; the user it returns is the stored
    one with the new profile and the new time of update, and with
    identifier, name, address, user name and time of creation as before;
    that user is the session and is what [getUserData] gives for the
    identifier, and the password hash kept with it is unchanged; every
    other identifier gives what it gave before. A second save replaces the
    first: the store after both is the store after the second alone. *)
Theorem updateProfile_round_trip :
  forall (now userId : string) (p : HearingProfile)
         (ls : Store.LocalStorage) (stored : Store.StoredUser),
    Store.lookup (Store.loadUsers ls) userId = Store.Own stored ->
    exists u : Store.User,
      snd (Store.updateProfile now userId p ls) = Store.Fulfilled u /\
      u = {| Store.id := Store.id (Store.user stored);
             Store.name := Store.name (Store.user stored);
             Store.email := Store.email (Store.user stored);
             Store.username := Store.username (Store.user stored);
             Store.profile := Some p;
             Store.createdAt := Store.createdAt (Store.user stored);
             Store.updatedAt := Some now |} /\
      Store.getCurrentUser (fst (Store.updateProfile now userId p ls)) = Some u /\
      Store.getUserData userId (fst (Store.updateProfile now userId p ls))
        = Some u /\
      (exists stored',
          Store.lookup
            (Store.loadUsers (fst (Store.updateProfile now userId p ls))) userId
          = Store.Own stored' /\
          Store._passwordHash stored' = Store._passwordHash stored) /\
      (forall other,
          other <> userId ->
          Store.lookup
            (Store.loadUsers (fst (Store.updateProfile now userId p ls))) other
          = Store.lookup (Store.loadUsers ls) other) /\
      (forall now' p',
          Store.updateProfile now' userId p'
            (fst (Store.updateProfile now userId p ls))
          = Store.updateProfile now' userId p' ls).
Proof.
  intros now userId p ls stored Hs.
  pose proof (lookup_Own _ _ _ Hs) as Ho.
  assert (Hcase : forall now0 p0 l,
             Store.own (Store.loadUsers l) userId = Some stored ->
             Store.updateProfile now0 userId p0 l =
             (Store.setSession (Store.user (Store.withProfile stored p0 now0))
                (Store.saveUsers
                   (Store.define (Store.loadUsers l) userId
                      (Store.withProfile stored p0 now0)) l),
              Store.Fulfilled (Store.user (Store.withProfile stored p0 now0)))).
  { intros now0 p0 l Hl.
    destruct (updateProfile_outcome now0 userId p0 l)
      as [[Hn _]
         | [(stored' & Hs' & E)
           | [(Ho' & _) | (Ho' & _)]]]; try congruence.
    - unfold Store.lookup in Hn. rewrite Hl in Hn. discriminate.
    - apply lookup_Own in Hs'. assert (stored' = stored) by congruence.
      subst stored'. exact E. }
  rewrite (Hcase now p ls Ho).
  cbn [fst snd]. eexists. split; [reflexivity|].
  split; [reflexivity|].
  split; [reflexivity|].
  assert (Hl :
            Store.lookup
              (Store.loadUsers
                 (Store.setSession (Store.user (Store.withProfile stored p now))
                    (Store.saveUsers
                       (Store.define (Store.loadUsers ls) userId
                          (Store.withProfile stored p now)) ls))) userId
            = Store.Own (Store.withProfile stored p now)).
  { cbn [Store.loadUsers Store.setSession Store.saveUsers Store.earvan_users].
    unfold Store.lookup. now rewrite own_define_same. }
  split; [unfold Store.getUserData; rewrite Hl; reflexivity|].
  split; [eexists; split; [exact Hl | reflexivity]|].
  split.
  - intros other Hne.
    cbn [Store.loadUsers Store.setSession Store.saveUsers Store.earvan_users].
    unfold Store.lookup. now rewrite own_define_other.
  - intros now' p'. rewrite (Hcase now' p' ls Ho).
    match goal with
    | |- Store.updateProfile _ _ _ ?l = _ =>
        destruct (updateProfile_outcome now' userId p' l)
          as [[Hn _]
             | [(stored2 & Hs2 & ->)
               | [(Ho2 & _) | (Ho2 & _)]]]
    end.
    + rewrite Hl in Hn. discriminate.
    + assert (stored2 = Store.withProfile stored p now) by congruence.
      subst stored2.
      cbn [Store.loadUsers Store.setSession Store.saveUsers Store.earvan_users
           Store.earvan_user].
      rewrite define_twice. reflexivity.
    + apply lookup_Own in Hl. congruence.
    + apply lookup_Own in Hl. congruence.
Qed.

Lemma updateProfile_round_trip_witness :
  exists u : Store.User,
    snd (Store.updateProfile "2026-01-03T00:00:00.000Z"
           (Store.generateId 1767225600000 "ab12cd3")
           SetupProfile.DEFAULT_PROFILE
           (fst (Store.signup 1767225600000 "ab12cd3"
                   "2026-01-01T00:00:00.000Z"
                   "Ann" "Ann@Example.com" "ann" "secret1" Store.emptyStorage)))
      = Store.Fulfilled u /\
    Store.profile u = Some SetupProfile.DEFAULT_PROFILE.
Proof.
  destruct (updateProfile_round_trip
              "2026-01-03T00:00:00.000Z"
              (Store.generateId 1767225600000 "ab12cd3")
              SetupProfile.DEFAULT_PROFILE
              (fst (Store.signup 1767225600000 "ab12cd3"
                      "2026-01-01T00:00:00.000Z"
                      "Ann" "Ann@Example.com" "ann" "secret1"
                      Store.emptyStorage))
              _ ltac:(vm_compute; reflexivity))
    as (u & Hu & -> & _).
  eexists. split; [exact Hu | reflexivity].
Defined.

(** X25. A login names one account. In a store that only the application
    has written to, the user that [loginUser] returns has the address that
    was typed, letter case apart, and is the only stored entry with it; it
    has an identifier, for which [getUserData] gives the same user; and
    saving a profile under that identifier succeeds and returns that user
    with the new profile. *)
Theorem login_names_one_account :
  forall (ls : Store.LocalStorage) (email0 password : string) (u : Store.User),
    Store.reachable ls ->
    Store.loginUser email0 password ls = Store.Fulfilled u ->
    option_map toLowerCase (Store.email u) = Some (toLowerCase email0) /\
    (forall stored,
        In stored (Store.values (Store.loadUsers ls)) ->
        option_map toLowerCase (Store.email (Store.user stored))
          = Some (toLowerCase email0) ->
        Store.user stored = u) /\
    exists userId,
      Store.id u = Some userId /\
      Store.getUserData userId ls = Some u /\
      (forall now p,
          exists u',
            snd (Store.updateProfile now userId p ls) = Store.Fulfilled u' /\
            Store.profile u' = Some p /\
            Store.id u' = Store.id u /\
            Store.email u' = Store.email u /\
            Store.username u' = Store.username u).
Proof.
  intros ls email0 password u Hr Hlogin.
  destruct (reachable_wellKeyed ls Hr) as (He & _ & Hk & Hall).
  unfold Store.loginUser in Hlogin.
  destruct (Store.findSameText (fun x => Store.email (Store.user x)) email0
              (Store.values (Store.loadUsers ls))) as [[found|]|] eqn:Hf;
    try discriminate.
  destruct (Store.differs (Store._passwordHash found)
              (Store.simpleHash password)); [discriminate|].
  injection Hlogin as <-. unfold Store.toPublicUser.
  apply findSameText_some in Hf. destruct Hf as (Hin & t & Ht & Hsame).
  unfold Store.values in Hin. apply in_map_iff in Hin.
  destruct Hin as ([k x] & Hx & Hin). cbn in Hx. subst x.
  assert (Hacc : Store.account (k, found)).
  { rewrite Forall_forall in Hall.
    destruct (Hall _ Hin) as [A | (_ & _ & R & _)]; [exact A|].
    cbn in R. congruence. }
  destruct Hacc as (Hid & _ & _ & _). cbn [fst snd] in Hid.
  assert (Ho : Store.own (Store.loadUsers ls) k = Some found)
    by now apply In_own.
  assert (Hl : Store.lookup (Store.loadUsers ls) k = Store.Own found)
    by (unfold Store.lookup; now rewrite Ho).
  split; [rewrite Ht; cbn; now rewrite Hsame|].
  split.
  { intros stored Hs Hcase. unfold Store.values in Hs. apply in_map_iff in Hs.
    destruct Hs as ([k' x'] & Hx' & Hin'). cbn in Hx'. subst x'.
    destruct (Store.email (Store.user stored)) as [t'|] eqn:Et;
      [|discriminate]. cbn in Hcase. injection Hcase as Hcase.
    assert (E : (k', stored) = (k, found)).
    { apply (NoDup_texts_inj (fun s => Store.email (Store.user s))
               (Store.loadUsers ls) k' stored k found t' t); auto.
      congruence. }
    now injection E as _ ->. }
  exists k. split; [exact Hid|].
  split; [unfold Store.getUserData; now rewrite Hl|].
  intros now p.
  destruct (updateProfile_outcome now k p ls)
    as [[Hn _]
       | [(stored' & Hs' & ->)
         | [(Ho' & _) | (Ho' & _)]]]; try congruence.
  assert (stored' = found) by congruence. subst stored'.
  eexists. split; [reflexivity|]. repeat split.
Qed.

Lemma login_names_one_account_witness :
  Store.getUserData (Store.generateId 1767225600000 "ab12cd3")
    (Store.exec
       (Store.Signup 1767225600000 "ab12cd3" "2026-01-01T00:00:00.000Z"
          "Ann" "Ann@Example.com" "ann" "secret1")
       Store.emptyStorage)
  = Some {| Store.id := Some (Store.generateId 1767225600000 "ab12cd3");
            Store.name := Some "Ann"%string;
            Store.email := Some "Ann@Example.com"%string;
            Store.username := Some "ann"%string;
            Store.profile := None;
            Store.createdAt := Some "2026-01-01T00:00:00.000Z"%string;
            Store.updatedAt := Some "2026-01-01T00:00:00.000Z"%string |}.
Proof.
  destruct (proj2 (proj2
              (login_names_one_account
                 (Store.exec
                    (Store.Signup 1767225600000 "ab12cd3"
                       "2026-01-01T00:00:00.000Z"
                       "Ann" "Ann@Example.com" "ann" "secret1")
                    Store.emptyStorage)
                 "ANN@example.com" "secret1"
                 {| Store.id := Some (Store.generateId 1767225600000 "ab12cd3");
                    Store.name := Some "Ann"%string;
                    Store.email := Some "Ann@Example.com"%string;
                    Store.username := Some "ann"%string;
                    Store.profile := None;
                    Store.createdAt := Some "2026-01-01T00:00:00.000Z"%string;
                    Store.updatedAt := Some "2026-01-01T00:00:00.000Z"%string |}
                 (Store.reach_call _ Store.reach_empty)
                 ltac:(vm_compute; reflexivity))))
    as (userId & Hid & Hget & _).
  injection Hid as <-. exact Hget.
Defined.

(** ** A profile saved under an inherited name *)

Lemma define_append :
  forall users key u,
    Store.own users key = None ->
    Store.define users key u = (users ++ [(key, u)])%list.
Proof.
  induction users as [|[k u0] rest IH]; intros key u Ho; [reflexivity|].
  cbn [Store.own Store.define] in Ho |- *.
  destruct (String.eqb k key); [discriminate|].
  cbn. now rewrite IH.
Qed.

Lemma someSameText_stuck :
  forall f text l x,
    Store.someSameText f text l = Some false ->
    f x = None ->
    Store.someSameText f text (l ++ [x]) = None.
Proof.
  intros f text. induction l as [|u rest IH]; intros x H Hx; cbn.
  - now rewrite Hx.
  - cbn in H. destruct (f u) as [t|]; [|discriminate].
    destruct (Store.sameText t text); [discriminate|]. now apply IH.
Qed.

Lemma findSameText_stuck :
  forall f text l x,
    Store.findSameText f text l = Some None ->
    f x = None ->
    Store.findSameText f text (l ++ [x]) = None.
Proof.
  intros f text. induction l as [|u rest IH]; intros x H Hx; cbn.
  - now rewrite Hx.
  - cbn in H. destruct (f u) as [t|]; [|discriminate].
    destruct (Store.sameText t text); [discriminate|]. now apply IH.
Qed.

(** X28. A profile saved under a name of [Object.prototype]. When
    [updateProfile] is called with such a name, other than [__proto__], that
    no entry has, [users[userId]] finds the inherited member, so the call
    does not reject: it returns, as the user, an object with the profile
    and the time of update and nothing else, makes it the session, and adds
    it to the users as the last entry. From then on the searches of
    [createUser] and [loginUser] stop at that entry, which has no address: a
    sign-up with an address that no earlier entry has, and a login with an
    address that no earlier entry has, fail with the platform's [TypeError]
    and write nothing. *)
Theorem profile_saved_under_inherited_name :
  forall (now userId : string) (p : HearingProfile) (ls : Store.LocalStorage),
    Store.inherited userId = true ->
    userId <> "__proto__"%string ->
    Store.own (Store.loadUsers ls) userId = None ->
    snd (Store.updateProfile now userId p ls) =
      Store.Fulfilled
        {| Store.id := None; Store.name := None; Store.email := None;
           Store.username := None; Store.profile := Some p;
           Store.createdAt := None; Store.updatedAt := Some now |} /\
    Store.getCurrentUser (fst (Store.updateProfile now userId p ls)) =
      Some {| Store.id := None; Store.name := None; Store.email := None;
              Store.username := None; Store.profile := Some p;
              Store.createdAt := None; Store.updatedAt := Some now |} /\
    Store.loadUsers (fst (Store.updateProfile now userId p ls)) =
      (Store.loadUsers ls ++
       [(userId, Store.withProfile Store.emptyObject p now)])%list /\
    (forall clock random now' name0 email0 username0 password,
        Store.someSameText (fun x => Store.email (Store.user x)) email0
          (Store.values (Store.loadUsers ls)) = Some false ->
        Store.signup clock random now' name0 email0 username0 password
          (fst (Store.updateProfile now userId p ls)) =
        (fst (Store.updateProfile now userId p ls),
         Store.Failed Store.UNDEFINED_FIELD)) /\
    (forall email0 password,
        Store.findSameText (fun x => Store.email (Store.user x)) email0
          (Store.values (Store.loadUsers ls)) = Some None ->
        Store.login email0 password
          (fst (Store.updateProfile now userId p ls)) =
        (fst (Store.updateProfile now userId p ls),
         Store.Failed Store.UNDEFINED_FIELD)).
Proof.
  intros now userId p ls Hi Hp Ho.
  assert (Hl : Store.lookup (Store.loadUsers ls) userId = Store.Inherited)
    by (unfold Store.lookup; now rewrite Ho, Hi).
  destruct (updateProfile_outcome now userId p ls)
    as [[Hn _]
       | [(stored & Hs & _)
         | [(_ & _ & _ & E) | (_ & Hp' & _)]]]; try congruence.
  rewrite E. cbn [fst snd].
  split; [reflexivity|]. split; [reflexivity|].
  assert (Husers :
            Store.loadUsers
              (Store.setSession
                 (Store.user (Store.withProfile Store.emptyObject p now))
                 (Store.saveUsers
                    (Store.define (Store.loadUsers ls) userId
                       (Store.withProfile Store.emptyObject p now)) ls)) =
            (Store.loadUsers ls ++
             [(userId, Store.withProfile Store.emptyObject p now)])%list).
  { cbn [Store.loadUsers Store.setSession Store.saveUsers Store.earvan_users].
    now apply define_append. }
  split; [exact Husers|]. split.
  - intros clock random now' name0 email0 username0 password Hnone.
    unfold Store.signup, Store.createUser. rewrite Husers.
    unfold Store.values. rewrite map_app. cbn [map snd].
    change (map snd (Store.loadUsers ls))
      with (Store.values (Store.loadUsers ls)).
    rewrite (someSameText_stuck _ _ _ _ Hnone) by reflexivity.
    reflexivity.
  - intros email0 password Hnone.
    unfold Store.login, Store.loginUser. rewrite Husers.
    unfold Store.values. rewrite map_app. cbn [map snd].
    change (map snd (Store.loadUsers ls))
      with (Store.values (Store.loadUsers ls)).
    rewrite (findSameText_stuck _ _ _ _ Hnone) by reflexivity.
    reflexivity.
Qed.

Lemma profile_saved_under_inherited_name_witness :
  snd (Store.signup 1767312000000 "zz90yx1" "2026-01-03T00:00:00.000Z"
         "Bob" "bob@example.com" "bob" "secret2"
         (fst (Store.updateProfile "2026-01-02T00:00:00.000Z" "toString"
                 SetupProfile.DEFAULT_PROFILE
                 (fst (Store.signup 1767225600000 "ab12cd3"
                         "2026-01-01T00:00:00.000Z"
                         "Ann" "Ann@Example.com" "ann" "secret1"
                         Store.emptyStorage)))))
  = Store.Failed Store.UNDEFINED_FIELD.
Proof.
  rewrite (proj1 (proj2 (proj2 (proj2
             (profile_saved_under_inherited_name
                "2026-01-02T00:00:00.000Z" "toString"
                SetupProfile.DEFAULT_PROFILE
                (fst (Store.signup 1767225600000 "ab12cd3"
                        "2026-01-01T00:00:00.000Z"
                        "Ann" "Ann@Example.com" "ann" "secret1"
                        Store.emptyStorage))
                ltac:(vm_compute; reflexivity)
                ltac:(discriminate)
                ltac:(vm_compute; reflexivity)))))
             1767312000000%Z "zz90yx1"%string "2026-01-03T00:00:00.000Z"%string
             "Bob"%string "bob@example.com"%string "bob"%string
             "secret2"%string ltac:(vm_compute; reflexivity)).
  reflexivity.
Defined.

(** ** The dashboard and the engine *)

Lemma applySettings_isTesting :
  forall s, _isTesting (_applySettings s) = _isTesting s.
Proof.
  intros s. unfold _applySettings. destruct s; simpl. branches; reflexivity.
Qed.

Lemma attachMicrophone_isTesting :
  forall env s,
    _isTesting (fst (_attachMicrophone env s)) = true -> _isTesting s = true.
Proof.
  intros [getUM st0] s. destruct s. unfold_methods.
  branches; intros H; first [exact H | discriminate H].
Qed.

Lemma stopTestAudio_isTesting :
  forall env s, _isTesting (fst (stopTestAudio env s)) = false.
Proof.
  intros [getUM st0] s. destruct s. unfold_methods. branches; reflexivity.
Qed.

Lemma startTestAudio_flags :
  forall s,
    _currentMode (startTestAudio s) = _currentMode s /\
    analyser (startTestAudio s) = analyser s.
Proof.
  intros s. destruct s. unfold_methods. branches; split; reflexivity.
Qed.

Lemma buildGraph_isTesting :
  forall env s, _isTesting (buildGraph env s) = _isTesting s.
Proof.
  intros env s. unfold buildGraph, _connectStaticChain.
  match goal with
  | |- context [match context ?s0 with _ => _ end] =>
      destruct (context s0) as [c|]; [|reflexivity]
  end.
  match goal with
  | |- context [chainFilters ?a ?b ?c ?d] => destruct (chainFilters a b c d)
  end.
  reflexivity.
Qed.

Lemma start_isTesting :
  forall env s, _isTesting (fst (start env s)) = true -> _isTesting s = true.
Proof.
  intros env s. rewrite start_unfold.
  destruct (context s) as [c|] eqn:Hc.
  - rewrite (initialize_existing env s Hc). cbn [fst].
    rewrite applySettings_isTesting. trivial.
  - rewrite (initialize_fresh env s Hc).
    pose proof (attachMicrophone_isTesting env (buildGraph env s)) as Ha.
    rewrite buildGraph_isTesting in Ha.
    destruct (_attachMicrophone env (buildGraph env s)) as [s' [|e]];
      cbn [fst] in *; rewrite ?applySettings_isTesting; exact Ha.
Qed.

Lemma start_context :
  forall env s, isSome (context (fst (start env s))) = true.
Proof.
  intros env s. rewrite start_unfold.
  destruct (context s) as [c|] eqn:Hc.
  - rewrite (initialize_existing env s Hc). cbn [fst].
    rewrite applySettings_context. reflexivity.
  - rewrite (initialize_fresh env s Hc).
    pose proof (attachMicrophone_frame env (buildGraph env s))
      as (_ & Ha & _).
    rewrite buildGraph_context in Ha. cbn [isSome] in Ha.
    destruct (_attachMicrophone env (buildGraph env s)) as [s' [|e]];
      cbn [fst] in *; rewrite ?applySettings_context; exact Ha.
Qed.

Lemma suspend_stops :
  forall s, isRunning (suspend s) = false /\ _isTesting (suspend s) = _isTesting s.
Proof.
  intros s. destruct s. unfold_methods. unfold isRunning.
  branches; split; reflexivity.
Qed.

Lemma setEnvironment_frame :
  forall m s,
    context (setEnvironment m s) = context s /\
    _currentMode (setEnvironment m s) = m /\
    analyser (setEnvironment m s) = analyser s /\
    _isTesting (setEnvironment m s) = _isTesting s.
Proof.
  intros m s. unfold setEnvironment.
  rewrite applySettings_context, applySettings_isTesting.
  destruct (applySettings_flags (set_currentMode s m)) as (_ & _ & _ & Hm & Ha).
  rewrite Hm, Ha. repeat split; reflexivity.
Qed.

Lemma setProfile_frame :
  forall P s,
    context (setProfile P s) = context s /\
    _isTesting (setProfile P s) = _isTesting s.
Proof.
  intros P s. unfold setProfile.
  rewrite applySettings_context, applySettings_isTesting.
  split; reflexivity.
Qed.

Lemma startAudio_shows :
  forall env up d e,
    let p' := Dashboard.startAudio env up (d, e) in
    (Dashboard.audioStatus (fst p') = Dashboard.running /\
     Dashboard.isAssistOn (fst p') = Dashboard.isAssistOn d /\
     Dashboard.micError (fst p') = None /\
     Dashboard.analyser (fst p') = getAnalyser (snd p') /\
     _currentMode (snd p') = Dashboard.mode (fst p') \/
     Dashboard.audioStatus (fst p') = Dashboard.error /\
     Dashboard.isAssistOn (fst p') = false /\
     isSome (Dashboard.micError (fst p')) = true) /\
    isSome (context (snd p')) = true /\
    Dashboard.isTestingAudio (fst p') = Dashboard.isTestingAudio d /\
    (_isTesting (snd p') = true -> _isTesting e = true).
Proof.
  intros env up d e. cbv zeta. unfold Dashboard.startAudio.
  pose proof (start_context env e) as Hc.
  pose proof (start_isTesting env e) as Ht.
  destruct (start env e) as [e1 [|msg]]; cbn [fst snd] in *.
  - cbn [Dashboard.audioStatus Dashboard.isAssistOn Dashboard.micError
         Dashboard.analyser Dashboard.mode Dashboard.isTestingAudio].
    match goal with
    | |- context [setEnvironment ?m ?s] =>
        destruct (setEnvironment_frame m s) as (Ec & Em & _ & Et)
    end.
    rewrite Ec, Em, Et.
    split; [left; repeat split; reflexivity|].
    destruct up as [P|].
    + destruct (setProfile_frame P e1) as (Ec' & Et').
      rewrite Ec', Et'. repeat split; assumption.
    + repeat split; assumption.
  - cbn [Dashboard.audioStatus Dashboard.isAssistOn Dashboard.micError
         Dashboard.analyser Dashboard.mode Dashboard.isTestingAudio isSome].
    split; [right; repeat split; reflexivity|].
    repeat split; assumption.
Qed.

(** X26. The dashboard shows what the engine does. Mount the page over an
    engine that is neither running nor testing, and press the power button,
    the mode buttons and the test button in any order, each handler running
    to its end, the microphone granted or refused at each press. Then at
    every moment: the power switch shows on only while the status is
    running; while the status is running the engine holds a context, the
    mode shown is the mode of the engine, no microphone error is shown and
    the analyser handed to the visualizer is the engine's; the status error
    comes with the switch off and a message; the status idle comes with an
    engine that is not running; the status is never left at starting; and
    the engine is testing only while the page shows the test as on. *)
Theorem dashboard_shows_engine_state :
  forall (userProfile : option HearingProfile) (e0 : AudioEngine)
         (p : Dashboard.Page),
    isRunning e0 = false ->
    _isTesting e0 = false ->
    Dashboard.shown userProfile e0 p ->
    (Dashboard.isAssistOn (fst p) = true ->
     Dashboard.audioStatus (fst p) = Dashboard.running) /\
    (Dashboard.audioStatus (fst p) = Dashboard.running ->
     isSome (context (snd p)) = true /\
     _currentMode (snd p) = Dashboard.mode (fst p) /\
     Dashboard.micError (fst p) = None /\
     Dashboard.analyser (fst p) = getAnalyser (snd p)) /\
    (Dashboard.audioStatus (fst p) = Dashboard.error ->
     Dashboard.isAssistOn (fst p) = false /\
     isSome (Dashboard.micError (fst p)) = true) /\
    (Dashboard.audioStatus (fst p) = Dashboard.idle ->
     isRunning (snd p) = false) /\
    Dashboard.audioStatus (fst p) <> Dashboard.starting /\
    (_isTesting (snd p) = true -> Dashboard.isTestingAudio (fst p) = true).
Proof.
  intros up e0 p Hrun Htest Hshown.
  induction Hshown as [|c [d e] Hshown (Hon & Hrunning & Herr & Hidle & Hst & Htst)].
  - unfold Dashboard.mount. rewrite Hrun.
    replace (match up with Some _ => e0 | None => e0 end) with e0
      by (destruct up; reflexivity).
    rewrite Hrun. cbn.
    repeat split; intros; try discriminate; try assumption; congruence.
  - cbn [fst snd] in *. destruct c as [env | newMode | env].
    + (* the power button *)
      unfold Dashboard.press. cbn [fst].
      destruct (Dashboard.audioStatus d) eqn:Es;
        try (exfalso; apply Hst; reflexivity).
      all: unfold Dashboard.handleToggle.
      all: destruct (Dashboard.isAssistOn d) eqn:Eon;
        try (specialize (Hon eq_refl); discriminate Hon).
      all: cbn [negb].
      (* off -> on, from idle, running or error *)
      all: try match goal with
           | |- context [Dashboard.startAudio ?env ?up (?d', ?e)] =>
               cbn [fst];
               destruct (startAudio_shows env up d' e)
                 as ([(S1 & S2 & S3 & S4 & S5) | (S1 & S2 & S3)] & Sc & St & Se);
               rewrite S1;
               (repeat split; intros; try discriminate; try assumption;
                try congruence;
                try (rewrite St; cbn [Dashboard.isTestingAudio
                                      Dashboard.set_isAssistOn];
                     apply Htst, Se; assumption))
           end.
      (* on -> off, from running *)
      cbn [Dashboard.set_isAssistOn Dashboard.isTestingAudio].
      destruct (Hrunning eq_refl) as (Rc & Rm & Re & Ra).
      destruct (Dashboard.isTestingAudio d) eqn:Et.
      * pose proof (stopTestAudio_isTesting env e) as Ts.
        destruct (stopTestAudio_frame env e) as (Fs & Fc & _ & _ & _ & Fm).
        destruct (stopTestAudio env e) as [e1 [|msg]]; cbn [fst snd] in *.
        -- destruct (suspend_stops e1) as (Hs1 & Hs2).
           cbn [fst snd Dashboard.suspendAudio Dashboard.set_isTestingAudio
                Dashboard.audioStatus Dashboard.isAssistOn
                Dashboard.isTestingAudio].
           repeat split; intros; try discriminate; try assumption.
           congruence.
        -- cbn [Dashboard.set_isAssistOn Dashboard.audioStatus
                Dashboard.isAssistOn Dashboard.isTestingAudio
                Dashboard.micError Dashboard.analyser Dashboard.mode].
           unfold stagesOf in Fs. unfold getAnalyser in *.
           repeat split; intros; try discriminate; try congruence.
      * cbn [fst snd Dashboard.suspendAudio Dashboard.audioStatus
             Dashboard.isAssistOn Dashboard.isTestingAudio].
        destruct (suspend_stops e) as (Hs1 & Hs2).
        repeat split; intros; try discriminate; try assumption.
        cbn [Dashboard.set_isAssistOn Dashboard.isTestingAudio].
        rewrite Et. apply Htst. congruence.
    + (* a mode button *)
      unfold Dashboard.press, Dashboard.controlsLive. cbn [fst].
      destruct (Dashboard.isAssistOn d) eqn:Eon; cbn [andb fst snd];
        [|rewrite ?Eon; intuition congruence].
      rewrite (Hon eq_refl). unfold Dashboard.handleModeChange. cbn [fst snd].
      cbn [Dashboard.audioStatus Dashboard.isAssistOn Dashboard.micError
           Dashboard.analyser Dashboard.mode Dashboard.isTestingAudio].
      destruct (Hrunning (Hon eq_refl)) as (Rc & Rm & Re & Ra).
      destruct (setEnvironment_frame newMode e) as (Ec & Em & Ea & Et).
      rewrite Ec, Em, Et. unfold getAnalyser in *. rewrite Ea.
      repeat split; intros; try discriminate; try assumption; try congruence;
        auto.
      all: rewrite (Hon eq_refl) in *; discriminate.
    + (* the test button *)
      unfold Dashboard.press, Dashboard.controlsLive. cbn [fst].
      destruct (Dashboard.isAssistOn d) eqn:Eon; cbn [andb fst snd];
        [|rewrite ?Eon; intuition congruence].
      rewrite (Hon eq_refl). unfold Dashboard.toggleTestAudio.
      destruct (Hrunning (Hon eq_refl)) as (Rc & Rm & Re & Ra).
      destruct (Dashboard.isTestingAudio d) eqn:Et.
      * pose proof (stopTestAudio_isTesting env e) as Ts.
        destruct (stopTestAudio_frame env e) as (Fs & Fc & _ & _ & _ & Fm).
        unfold stagesOf in Fs. unfold getAnalyser in *.
        destruct (stopTestAudio env e) as [e1 [|msg]]; cbn [fst snd] in *;
          cbn [Dashboard.set_isTestingAudio Dashboard.audioStatus
               Dashboard.isAssistOn Dashboard.micError Dashboard.analyser
               Dashboard.mode Dashboard.isTestingAudio];
          rewrite ?(Hon eq_refl);
          repeat split; intros; try discriminate; try congruence.
      * cbn [fst snd Dashboard.set_isTestingAudio Dashboard.audioStatus
             Dashboard.isAssistOn Dashboard.micError Dashboard.analyser
             Dashboard.mode Dashboard.isTestingAudio].
        destruct (simple_calls_frame e) as (_ & _ & _ & Fc).
        destruct (startTestAudio_flags e) as (Fm & Fa).
        unfold getAnalyser in *. rewrite Fc, Fm, Fa, (Hon eq_refl).
        repeat split; intros; try discriminate; try congruence.
Qed.

Lemma dashboard_shows_engine_state_witness :
  _currentMode
    (snd (Dashboard.press (Some speechFocusProfile) (Dashboard.ModeButton NOISY)
            (Dashboard.press (Some speechFocusProfile)
               (Dashboard.PowerButton micGranted)
               (Dashboard.mount (Some speechFocusProfile) newEngine))))
  = NOISY.
Proof.
  refine (proj1 (proj2 (proj1 (proj2
            (dashboard_shows_engine_state (Some speechFocusProfile) newEngine
               (Dashboard.press (Some speechFocusProfile)
                  (Dashboard.ModeButton NOISY)
                  (Dashboard.press (Some speechFocusProfile)
                     (Dashboard.PowerButton micGranted)
                     (Dashboard.mount (Some speechFocusProfile) newEngine)))
               _ _ _)) _))).
  - vm_compute; reflexivity.
  - vm_compute; reflexivity.
  - apply Dashboard.shown_press, Dashboard.shown_press, Dashboard.shown_mount.
  - vm_compute; reflexivity.
Defined.

(** ** Live tuning *)

Lemma start_mode :
  forall env s, _currentMode (fst (start env s)) = _currentMode s.
Proof.
  intros env s. rewrite start_unfold.
  destruct (initialize_flags env s) as (_ & Hm & _).
  destruct (initialize env s) as [s' [|m]]; cbn [fst] in *; [|exact Hm].
  destruct (applySettings_flags (set_isBypassed s' false)) as (_ & _ & _ & Fm & _).
  rewrite Fm. exact Hm.
Qed.

Lemma setProfile_resolves :
  forall P s,
    isSome (context s) = true ->
    graphBuilt s ->
    _currentProfile (setProfile P s) = Some P /\
    _currentMode (setProfile P s) = _currentMode s /\
    _isBypassed (setProfile P s) = _isBypassed s /\
    Resolver.stageTargets (setProfile P s) =
      Some (Resolver.resolve P (_currentMode s) (_isBypassed s)).
Proof.
  intros P s Hc Hg. unfold setProfile.
  set (s1 := set_currentProfile s (Some P)).
  assert (Hg1 : graphBuilt s1)
    by (apply (@graphBuilt_stagesOf s); [reflexivity | exact Hg]).
  rewrite (@applySettings_refines_resolve s1 P Hc Hg1 eq_refl).
  destruct (applySettings_flags s1) as (_ & Fb & Fp & Fm & _).
  rewrite Fb, Fp, Fm. repeat split; reflexivity.
Qed.

(** X27. Opening the tuning page switches the engine on. [startLiveTuning]
    on an engine that has a context, or with the microphone granted, leaves
    the engine with the page's profile, its mode as before, and the stages
    heading for the parameters resolved from that profile and mode; an
    engine that was not running, a suspended one that the dashboard shows
    as off included, is started and so has bypass off, while a running one
    keeps its bypass flag. With no context and the microphone refused the
    failure is swallowed: the engine is left as the failed start left it,
    with the graph built, and is not given the profile. *)
Theorem live_tuning_starts_engine :
  forall (env : Platform) (P : HearingProfile) (e : AudioEngine),
    reachable e ->
    (isSome (context e) = true \/ getUserMedia env = Granted ->
     _currentProfile (SetupProfile.startLiveTuning env P e) = Some P /\
     _currentMode (SetupProfile.startLiveTuning env P e) = _currentMode e /\
     _isBypassed (SetupProfile.startLiveTuning env P e) =
       (if isRunning e then _isBypassed e else false) /\
     Resolver.stageTargets (SetupProfile.startLiveTuning env P e) =
       Some (Resolver.resolve P (_currentMode e)
               (if isRunning e then _isBypassed e else false))) /\
    (forall errName errMessage,
        context e = None ->
        getUserMedia env = Rejected errName errMessage ->
        SetupProfile.startLiveTuning env P e = buildGraph env e /\
        _currentProfile (SetupProfile.startLiveTuning env P e)
          = _currentProfile e).
Proof.
  intros env P e Hr. split.
  - intros Hok. unfold SetupProfile.startLiveTuning.
    destruct (isRunning e) eqn:Hrun.
    + apply setProfile_resolves;
        [now apply isRunning_context
        | apply (reachable_graphBuilt Hr), isRunning_context, Hrun].
    + pose proof (start_returns env e Hok) as Hret.
      pose proof (start_returned_bypass env e Hret) as Hb.
      pose proof (start_mode env e) as Hm.
      destruct (@start_builds env e (reachable_graphBuilt Hr)) as [Hctx Hg].
      destruct (start env e) as [e1 [|m]]; [|discriminate].
      cbn [fst snd] in *.
      destruct (setProfile_resolves P e1 Hctx Hg) as (Sp & Sm & Sb & St).
      rewrite Sp, Sm, Sb, St, Hm, Hb. repeat split; reflexivity.
  - intros errName errMessage Hc Hrej.
    assert (Hrun : isRunning e = false)
      by (unfold isRunning; rewrite Hc; apply andb_false_r).
    unfold SetupProfile.startLiveTuning. rewrite Hrun.
    rewrite (start_refused env e errName errMessage Hr Hc Hrej).
    split; [reflexivity|]. apply buildGraph_flags.
Qed.

Lemma live_tuning_starts_engine_witness :
  Resolver.stageTargets
    (SetupProfile.startLiveTuning micGranted SetupProfile.handleUseSpeechProfile
       (suspend conversationEngine))
  = Some (Resolver.resolve SetupProfile.handleUseSpeechProfile CONVERSATION false).
Proof.
  refine (proj2 (proj2 (proj2 (proj1
            (live_tuning_starts_engine micGranted
               SetupProfile.handleUseSpeechProfile
               (suspend conversationEngine) _) _)))).
  - apply (reach_call Suspend).
    apply (reachable_run
             [Start micGranted; SetProfile speechFocusProfile;
              SetEnvironment CONVERSATION] reach_new).
  - left. vm_compute; reflexivity.
Defined.
